(** * Alza price comparison: the scraper, its handlers, its configuration

    A shallow embedding of the scraper module (scraper.ts): the session
    lifecycle (initLogin, submitVerificationCode, getSessionStatus,
    scrapePrice, ensureBrowser, closeBrowser) and the text helpers
    (parsePrice, parseCzechNumber, formatCzechPrice, parseProductName);
    of the HTTP handlers that call it (index.ts); and of the reading of
    the configuration from the environment (config.ts). *)

From Stdlib Require Import ZArith QArith Qround Qabs String Ascii List Bool Lia Sorted.
From stdpp Require Import base option list gmap.

Local Open Scope Z_scope.
Set Warnings "-register-all".

(* ===================================================================== *)
(** * JavaScript strings *)
(* ===================================================================== *)

(** A JavaScript string is a sequence of UTF-16 code units.  Literals are
    written [js "..."]: the source text of this file is UTF-8, and [js]
    decodes it (one, two and three byte sequences, which cover every
    character the scraper mentions). *)
Module JsString.

Abbreviation jsstring := (list Z).

Definition byte_of (a : ascii) : Z := Z.of_N (N_of_ascii a).

Fixpoint js (s : string) : jsstring :=
  match s with
  | EmptyString => []
  | String a s1 =>
      let b0 := byte_of a in
      if b0 <? 128 then b0 :: js s1
      else if b0 <? 224 then
        match s1 with
        | String b s2 => ((b0 - 192) * 64 + (byte_of b - 128)) :: js s2
        | EmptyString => [b0]
        end
      else
        match s1 with
        | String b (String c s3) =>
            ((b0 - 224) * 4096 + (byte_of b - 128) * 64 + (byte_of c - 128))
              :: js s3
        | _ => [b0]
        end
  end.

(** Code units the scraper's patterns name. *)
Definition NBSP : Z := 160.          (* U+00A0 *)
Definition EN_DASH : Z := 8211.      (* U+2013 *)
Definition EM_DASH : Z := 8212.      (* U+2014 *)
Definition C_CARON : Z := 269.       (* U+010D, the second letter of the currency marker *)
Definition C_CARON_UP : Z := 268.    (* U+010C *)

Definition ch (c : string) : Z := hd 0 (js c).

(** The regular expression class [\s], which is also the set [trim] strips:
    white space and line terminators of ECMAScript. *)
Definition isSpace (c : Z) : bool :=
  (c =? 9) || (c =? 10) || (c =? 11) || (c =? 12) || (c =? 13) || (c =? 32)
  || (c =? 160) || (c =? 5760) || ((8192 <=? c) && (c <=? 8202))
  || (c =? 8232) || (c =? 8233) || (c =? 8239) || (c =? 8287)
  || (c =? 12288) || (c =? 65279).

(** [\d] *)
Definition isDigit (c : Z) : bool := (48 <=? c) && (c <=? 57).

(** [\w] (no unicode flag): ASCII letters, digits and underscore. *)
Definition isWord (c : Z) : bool :=
  isDigit c || ((65 <=? c) && (c <=? 90)) || ((97 <=? c) && (c <=? 122))
  || (c =? 95).

(** Canonicalisation of the [i] flag without the unicode flag, on the
    letters the patterns of this module contain: ASCII letters and the
    c-with-caron pair.  (A character outside ASCII never canonicalises to
    an ASCII one.) *)
Definition canon (c : Z) : Z :=
  if (97 <=? c) && (c <=? 122) then c - 32
  else if c =? C_CARON then C_CARON_UP
  else c.

Definition eqi (a b : Z) : bool := canon a =? canon b.

(** [toLowerCase], on ASCII (URLs as the browser serialises them). *)
Definition lowerChar (c : Z) : Z :=
  if (65 <=? c) && (c <=? 90) then c + 32 else c.
Definition toLowerCase (s : jsstring) : jsstring := map lowerChar s.

(** [s.startsWith(p)], and its case-insensitive form used for the literal
    parts of patterns under the [i] flag. *)
Fixpoint startsWith (p s : jsstring) : bool :=
  match p, s with
  | [], _ => true
  | a :: p', b :: s' => (a =? b) && startsWith p' s'
  | _ :: _, [] => false
  end.

Fixpoint startsWithI (p s : jsstring) : bool :=
  match p, s with
  | [], _ => true
  | a :: p', b :: s' => eqi a b && startsWithI p' s'
  | _ :: _, [] => false
  end.

(** [s.includes(p)] *)
Fixpoint includes (p s : jsstring) : bool :=
  startsWith p s ||
  match s with
  | [] => false
  | _ :: s' => includes p s'
  end.

Fixpoint dropSpaces (s : jsstring) : jsstring :=
  match s with
  | c :: s' => if isSpace c then dropSpaces s' else s
  | [] => []
  end.

Definition trimStart (s : jsstring) : jsstring := dropSpaces s.
Definition trimEnd (s : jsstring) : jsstring := rev (dropSpaces (rev s)).
Definition trim (s : jsstring) : jsstring := trimEnd (trimStart s).

(** Truthiness of a string: non-empty. *)
Definition truthy (s : jsstring) : bool :=
  match s with [] => false | _ => true end.

End JsString.
Import JsString.

(* ===================================================================== *)
(** * JavaScript numbers *)
(* ===================================================================== *)

(** A number is modelled by the exact value of the decimal text it was read
    from: NaN, the two infinities, or a rational in lowest terms.  The
    rounding of IEEE doubles is not part of the model. *)
Inductive number : Type :=
  | NaN
  | Infinity (negative : bool)
  | Finite (q : Q).

Definition num (q : Q) : number := Finite (Qred q).

Definition isNaN (n : number) : bool :=
  match n with NaN => true | _ => false end.

(** [n > 0] *)
Definition gtZero (n : number) : bool :=
  match n with
  | NaN => false
  | Infinity neg => negb neg
  | Finite q => 0 <? Qnum q
  end.

Definition negate (n : number) : number :=
  match n with
  | NaN => NaN
  | Infinity neg => Infinity (negb neg)
  | Finite q => Finite (Qopp q)
  end.

(** ** parseFloat *)

(** The longest prefix of the (left-trimmed) text that is a
    StrDecimalLiteral, and its value. *)
Fixpoint spanDigits (s : jsstring) : list Z * jsstring :=
  match s with
  | c :: s' =>
      if isDigit c then let '(ds, r) := spanDigits s' in (c :: ds, r)
      else ([], s)
  | [] => ([], [])
  end.

Definition digitsValue (ds : list Z) : Z :=
  fold_left (fun acc d => acc * 10 + (d - 48)) ds 0.

(** An ExponentPart counts only when it is complete: an indicator, an
    optional sign and at least one digit. *)
Definition parseExponent (s : jsstring) : Z :=
  match s with
  | e :: r =>
      if (e =? ch "e") || (e =? ch "E") then
        match r with
        | sg :: r' =>
            if sg =? ch "+" then digitsValue (fst (spanDigits r'))
            else if sg =? ch "-" then - digitsValue (fst (spanDigits r'))
            else digitsValue (fst (spanDigits r))
        | [] => 0
        end
      else 0
  | [] => 0
  end.

Definition decimalValue (ip fp : list Z) (e : Z) : number :=
  num (inject_Z (digitsValue (ip ++ fp))
       * Qpower (10 # 1) (e - Z.of_nat (length fp))).

Definition parseUnsigned (s : jsstring) : number :=
  if startsWith (js "Infinity") s then Infinity false
  else
    let '(ip, r) := spanDigits s in
    match r with
    | c :: r1 =>
        if c =? ch "." then
          let '(fp, r2) := spanDigits r1 in
          match ip, fp with
          | [], [] => NaN
          | _, _ => decimalValue ip fp (parseExponent r2)
          end
        else
          match ip with
          | [] => NaN
          | _ => decimalValue ip [] (parseExponent r)
          end
    | [] =>
        match ip with
        | [] => NaN
        | _ => decimalValue ip [] 0
        end
    end.

Definition parseFloat (text : jsstring) : number :=
  match trimStart text with
  | c :: r =>
      if c =? ch "+" then parseUnsigned r
      else if c =? ch "-" then negate (parseUnsigned r)
      else parseUnsigned (c :: r)
  | [] => NaN
  end.

(* ===================================================================== *)
(** * Price text normalisation *)
(* ===================================================================== *)

(** [.replace(/Kč|CZK|&nbsp;/gi, "")]: every match, scanning from the
    left, alternatives in order; [skip] counts the code units of the
    current match still to drop. *)
Fixpoint stripCurrency (skip : nat) (s : jsstring) : jsstring :=
  match s with
  | [] => []
  | c :: s' =>
      match skip with
      | S k => stripCurrency k s'
      | O =>
          if startsWithI (js "Kč") s then stripCurrency 1 s'
          else if startsWithI (js "CZK") s then stripCurrency 2 s'
          else if startsWithI (js "&nbsp;") s then stripCurrency 5 s'
          else c :: stripCurrency 0 s'
      end
  end.

(** [.replace(/\s/g, "")] *)
Definition stripSpaces (s : jsstring) : jsstring :=
  filter (fun c => isSpace c = false) s.

(** [.replace(/,/g, ".")] *)
Definition commaToDot (s : jsstring) : jsstring :=
  map (fun c => if c =? ch "," then ch "." else c) s.

(** [.replace(/[-–]$/, "")]: a hyphen or an en dash that ends the text. *)
Fixpoint stripTrailingDash (s : jsstring) : jsstring :=
  match s with
  | [] => []
  | [c] => if (c =? ch "-") || (c =? EN_DASH) then [] else [c]
  | c :: s' => c :: stripTrailingDash s'
  end.

Definition cleanNumberText (text : jsstring) : jsstring :=
  trim (stripTrailingDash (commaToDot (stripSpaces (stripCurrency 0 text)))).

(** function parseCzechNumber(text: string): number | null *)
Definition parseCzechNumber (text : jsstring) : option number :=
  if negb (truthy text) then None
  else
    let cleaned := cleanNumberText text in
    if negb (truthy cleaned) then None
    else
      let num := parseFloat cleaned in
      if negb (isNaN num) && gtZero num then Some num else None.

(* ===================================================================== *)
(** * Price display *)
(* ===================================================================== *)

(** Decimal digits of a non-negative integer, most significant first.
    [fuel] bounds the number of digits. *)
Fixpoint digitsFuel (fuel : nat) (n : Z) (acc : list Z) : list Z :=
  match fuel with
  | O => acc
  | S f =>
      let acc' := (48 + n mod 10) :: acc in
      if n <? 10 then acc' else digitsFuel f (n / 10) acc'
  end.

Definition digits (n : Z) : list Z :=
  digitsFuel (S (Z.to_nat (Z.log2 n))) n [].

(** Grouping by three from the right; [rds] is least significant first and
    [k] counts the digits already in the current group. *)
Fixpoint groupRev (k : nat) (rds : list Z) : list Z :=
  match rds with
  | [] => []
  | d :: r =>
      match k with
      | 3%nat => NBSP :: d :: groupRev 1 r
      | _ => d :: groupRev (S k) r
      end
  end.

Definition group3 (ds : list Z) : jsstring := rev (groupRev 0 (rev ds)).

(** The fraction of a value given in hundredths: at most two digits, no
    trailing zero, introduced by the decimal comma. *)
Definition fractionText (frac : Z) : jsstring :=
  if frac =? 0 then []
  else if frac mod 10 =? 0 then [ch ","; 48 + frac / 10]
  else [ch ","; 48 + frac / 10; 48 + frac mod 10].

(** [price.toLocaleString("cs-CZ", { minimumFractionDigits: 0,
    maximumFractionDigits: 2 })], the platform's number formatting as
    ECMA-402 and the locale data define it: rounding to hundredths (half
    away from zero), groups of three separated by a no-break space, a
    decimal comma. *)
Definition toLocaleStringCs (n : number) : jsstring :=
  match n with
  | NaN => js "NaN"
  | Infinity neg => (if neg then js "-" else []) ++ js "∞"
  | Finite q =>
      let cents := Qfloor (Qabs q * (100 # 1) + (1 # 2)) in
      (if Qnum q <? 0 then js "-" else [])
        ++ group3 (digits (cents / 100)) ++ fractionText (cents mod 100)
  end.

(** function formatCzechPrice(price: number): string *)
Definition formatCzechPrice (price : number) : jsstring :=
  toLocaleStringCs price ++ js " Kč".

(* ===================================================================== *)
(** * Product name *)
(* ===================================================================== *)

(** The markup parser (node-html-parser) as the scraper uses it: a parsed
    root answers selector queries with its first matching element or with
    all of them, an element has attributes and a text content. *)
Class HtmlParser : Type := {
  Root : Type;
  Element : Type;
  parseHTML : jsstring -> Root;
  querySelector : Root -> jsstring -> option Element;
  querySelectorAll : Root -> jsstring -> list Element;
  getAttribute : Element -> jsstring -> option jsstring;
  textContent : Element -> jsstring;
}.

Definition QUOTE : Z := 34.

Definition SEL_OG_TITLE : jsstring :=
  js "meta[property=" ++ [QUOTE] ++ js "og:title" ++ [QUOTE] ++ js "]".

(** [/\s*\|\s*Alza\.\w+$/i] tried at the head of [s]: blanks, a bar,
    blanks, the site name and a dot, then word characters up to the end of
    the text. *)
Definition matchSiteSuffix (s : jsstring) : bool :=
  match dropSpaces s with
  | c :: r =>
      (c =? ch "|") &&
      (let r' := dropSpaces r in
       startsWithI (js "Alza.") r' &&
       (let w := drop 5 r' in truthy w && forallb isWord w))
  | [] => false
  end.

(** [.replace(/\s*\|\s*Alza\.\w+$/i, "")]: the leftmost position where
    the pattern matches; the match runs to the end of the text. *)
Fixpoint replaceSiteSuffix (s : jsstring) : jsstring :=
  if matchSiteSuffix s then []
  else
    match s with
    | [] => []
    | c :: s' => c :: replaceSiteSuffix s'
    end.

(** The class [\d\s\u00a0] *)
Definition isPriceChar (c : Z) : bool := isDigit c || isSpace c || (c =? NBSP).

Fixpoint spanPriceChars (s : jsstring) : list Z * jsstring :=
  match s with
  | c :: s' =>
      if isPriceChar c then let '(run, r) := spanPriceChars s' in (c :: run, r)
      else ([], s)
  | [] => ([], [])
  end.

(** [/\s+za\s+[\d\s\u00a0]+K[čc]/i] tried at the head of [s]; the result
    is the text after the match.  After the word, the run of price
    characters must start with a blank (for [\s+]) and leave at least one
    more character (for the class), and the currency marker follows it. *)
Definition matchZaPrice (s : jsstring) : option jsstring :=
  match s with
  | c :: _ =>
      if isSpace c then
        let r := dropSpaces s in
        if startsWithI (js "za") r then
          let '(run, r2) := spanPriceChars (drop 2 r) in
          match run with
          | w :: _ :: _ =>
              if isSpace w then
                match r2 with
                | k :: c2 :: r3 =>
                    if eqi k (ch "K") && (eqi c2 C_CARON || eqi c2 (ch "c"))
                    then Some r3 else None
                | _ => None
                end
              else None
          | _ => None
          end
        else None
      else None
  | [] => None
  end.

(** [.replace(/\s+za\s+[\d\s\u00a0]+K[čc]/i, "")]: the first match only. *)
Fixpoint replaceZaPrice (s : jsstring) : jsstring :=
  match matchZaPrice s with
  | Some rest => rest
  | None =>
      match s with
      | [] => []
      | c :: s' => c :: replaceZaPrice s'
      end
  end.

(** [/\s+-\s+[^-]+$/] tried at the head of [s]: blanks, a hyphen, then a
    remainder without hyphen that starts with a blank and has one more
    character at least. *)
Definition matchDashSuffix (s : jsstring) : bool :=
  match s with
  | c :: _ =>
      isSpace c &&
      match dropSpaces s with
      | d :: rest =>
          (d =? ch "-") &&
          match rest with
          | w :: _ :: _ =>
              isSpace w && forallb (fun x => negb (x =? ch "-")) rest
          | _ => false
          end
      | [] => false
      end
  | [] => false
  end.

(** [.replace(/\s+-\s+[^-]+$/, "")] *)
Fixpoint replaceDashSuffix (s : jsstring) : jsstring :=
  if matchDashSuffix s then []
  else
    match s with
    | [] => []
    | c :: s' => c :: replaceDashSuffix s'
    end.

(** const clean = (name) => name.replace(..).replace(..).replace(..).trim() *)
Definition clean (name : jsstring) : jsstring :=
  trim (replaceDashSuffix (replaceZaPrice (replaceSiteSuffix name))).

Section ProductName.
Context `{HtmlParser}.

(** function parseProductName(html: string): string *)
Definition parseProductName (html : jsstring) : jsstring :=
  let root := parseHTML html in
  let fromOg :=
    match querySelector root SEL_OG_TITLE with
    | Some ogTitle =>
        match getAttribute ogTitle (js "content") with
        | Some c => let content := trim c in
                    if truthy content then Some (clean content) else None
        | None => None
        end
    | None => None
    end in
  match fromOg with
  | Some name => name
  | None =>
      let fromTitle :=
        match querySelector root (js "title") with
        | Some title =>
            let text := trim (textContent title) in
            if truthy text then Some (clean text) else None
        | None => None
        end in
      match fromTitle with
      | Some name => name
      | None =>
          match querySelector root (js "h1") with
          | Some h1 => trim (textContent h1)
          | None => js "Unknown Product"
          end
      end
  end.
End ProductName.

(* ===================================================================== *)
(** * Price extraction *)
(* ===================================================================== *)

(** ** Values of parsed JSON *)

Inductive Json : Type :=
  | JNull
  | JBool (b : bool)
  | JNumber (n : number)
  | JString (s : jsstring)
  | JArray (items : list Json)
  | JObject (members : list (jsstring * Json)).

(** [JSON.parse]; [None] stands for the SyntaxError it throws. *)
Class JsonApi : Type := {
  JSON_parse : jsstring -> option Json;
}.

Definition jsstring_eqb (a b : jsstring) : bool :=
  bool_decide (a = b).

(** [v.key] on a value that is neither null nor undefined, for a key that
    is no built-in property ([offers], [mainEntity], [price]): the member
    of an object (the last one of that name), undefined on anything else.
    The result [None] is undefined. *)
Definition prop (v : Json) (key : jsstring) : option Json :=
  match v with
  | JObject members =>
      match find (fun kv => jsstring_eqb (fst kv) key) (rev members) with
      | Some kv => Some (snd kv)
      | None => None
      end
  | _ => None
  end.

Definition isZero (n : number) : bool :=
  match n with Finite q => Qnum q =? 0 | _ => false end.

(** Truthiness of a value or undefined. *)
Definition truthyValue (v : option Json) : bool :=
  match v with
  | None => false
  | Some JNull => false
  | Some (JBool b) => b
  | Some (JNumber n) => negb (isNaN n) && negb (isZero n)
  | Some (JString s) => truthy s
  | Some (JArray _) => true
  | Some (JObject _) => true
  end.

(** Signed decimal text of an integer. *)
Definition showInt (n : Z) : jsstring :=
  if n <? 0 then ch "-" :: digits (- n) else digits n.

(** The least [t <= fuel] with [b | 10^t]: the number of fraction digits
    of a finite decimal with denominator [b]. *)
Fixpoint decimalScale (fuel : nat) (b : Z) (t : Z) : Z :=
  match fuel with
  | O => t
  | S f => if (10 ^ t) mod b =? 0 then t else decimalScale f b (t + 1)
  end.

Fixpoint stripZeros (fuel : nat) (m t : Z) : Z * Z :=
  match fuel with
  | O => (m, t)
  | S f => if (m mod 10 =? 0) && negb (m =? 0) then stripZeros f (m / 10) (t - 1)
           else (m, t)
  end.

(** Number::toString(x) for [x > 0]: with [s] the digits of [x] without
    trailing zero, [k] their count and [x = s * 10^(n - k)]. *)
Definition positiveToString (q : Q) : jsstring :=
  let a := Qnum (Qred q) in
  let b := Zpos (Qden (Qred q)) in
  let t0 := decimalScale (S (Z.to_nat (Z.log2 b))) b 0 in
  let '(s, t) := stripZeros (S (Z.to_nat (Z.log2 (a * 10 ^ t0)))) (a * 10 ^ t0 / b) t0 in
  let ds := digits s in
  let k := Z.of_nat (length ds) in
  let n := k - t in
  if (k <=? n) && (n <=? 21) then ds ++ repeat 48 (Z.to_nat (n - k))
  else if (0 <? n) && (n <=? 21) then
    take (Z.to_nat n) ds ++ ch "." :: drop (Z.to_nat n) ds
  else if (-6 <? n) && (n <=? 0) then
    js "0." ++ repeat 48 (Z.to_nat (- n)) ++ ds
  else
    let e := n - 1 in
    let etext := (if e <? 0 then ch "-" else ch "+") :: digits (Z.abs e) in
    match ds with
    | [d] => d :: ch "e" :: etext
    | d :: more => d :: ch "." :: more ++ ch "e" :: etext
    | [] => []
    end.

Definition numberToString (n : number) : jsstring :=
  match n with
  | NaN => js "NaN"
  | Infinity neg => (if neg then js "-" else []) ++ js "Infinity"
  | Finite q =>
      if Qnum q =? 0 then js "0"
      else if Qnum q <? 0 then ch "-" :: positiveToString (Qopp q)
      else positiveToString q
  end.

(** [String(v)]: an array joins the texts of its elements with commas,
    null elements giving the empty text. *)
Fixpoint jsToString (v : Json) : jsstring :=
  match v with
  | JNull => js "null"
  | JBool b => if b then js "true" else js "false"
  | JNumber n => numberToString n
  | JString s => s
  | JArray items =>
      (fix join (l : list Json) : jsstring :=
         match l with
         | [] => []
         | x :: r =>
             (match x with JNull => [] | _ => jsToString x end)
               ++ match r with [] => [] | _ => ch "," :: join r end
         end) items
  | JObject _ => js "[object Object]"
  end.

(** ** The four strategies *)

Fixpoint firstSome {A B : Type} (f : A -> option B) (l : list A) : option B :=
  match l with
  | [] => None
  | x :: r => match f x with Some y => Some y | None => firstSome f r end
  end.

Fixpoint spanClass (cls : Z -> bool) (s : jsstring) : list Z * jsstring :=
  match s with
  | c :: s' =>
      if cls c then let '(run, r) := spanClass cls s' in (c :: run, r)
      else ([], s)
  | [] => ([], [])
  end.

Definition lastIsDigit (l : list Z) : bool :=
  match rev l with c :: _ => isDigit c | [] => false end.

(** The leftmost match of a pattern that is tried at the head of every
    suffix in turn; the result is its first capture group. *)
Fixpoint firstMatch (m : jsstring -> option jsstring) (s : jsstring)
  : option jsstring :=
  match m s with
  | Some g => Some g
  | None => match s with [] => None | _ :: s' => firstMatch m s' end
  end.

(** [/(\d[\d\s]*\d)\s*Kč/] at the head of [s].  The group is a digit and
    the run of digits and blanks after it up to its last digit; only
    blanks may separate that digit from the marker. *)
Definition matchDigitsKc (s : jsstring) : option jsstring :=
  match s with
  | d :: t =>
      if isDigit d then
        let '(run, rest) := spanClass (fun c => isDigit c || isSpace c) t in
        let body := trimEnd run in
        if lastIsDigit body && startsWith (js "Kč") rest
        then Some (d :: body) else None
      else None
  | [] => None
  end.

(** [/(\d[\d\s]*\d),[-–]\s*Kč/] at the head of [s]. *)
Definition matchDigitsCommaDash (s : jsstring) : option jsstring :=
  match s with
  | d :: t =>
      if isDigit d then
        let '(run, rest) := spanClass (fun c => isDigit c || isSpace c) t in
        match rest with
        | c1 :: c2 :: rest' =>
            if lastIsDigit run && (c1 =? ch ",")
               && ((c2 =? ch "-") || (c2 =? EN_DASH))
               && startsWith (js "Kč") (dropSpaces rest')
            then Some (d :: run) else None
        | _ => None
        end
      else None
  | [] => None
  end.

(** [/(\d[\d\s,.]*\d)\s*CZK/] at the head of [s]. *)
Definition matchDigitsCZK (s : jsstring) : option jsstring :=
  match s with
  | d :: t =>
      if isDigit d then
        let '(run, rest) :=
          spanClass (fun c => isDigit c || isSpace c
                              || (c =? ch ",") || (c =? ch ".")) t in
        let body := trimEnd run in
        if lastIsDigit body && startsWith (js "CZK") rest
        then Some (d :: body) else None
      else None
  | [] => None
  end.

Definition SEL_JSON_LD : jsstring :=
  js "script[type=" ++ [QUOTE] ++ js "application/ld+json" ++ [QUOTE] ++ js "]".

Definition metaSelectors : list jsstring :=
  [ js "meta[property=" ++ [QUOTE] ++ js "og:price:amount" ++ [QUOTE] ++ js "]";
    js "meta[property=" ++ [QUOTE] ++ js "product:price:amount" ++ [QUOTE] ++ js "]" ].

Definition priceSelectors : list jsstring :=
  [ js ".price-box__price"; js ".c2"; js ".price_withVat";
    js "#prices .js-price-box .price-box__paragraph--price" ].

Definition pricePatterns : list (jsstring -> option jsstring) :=
  [ matchDigitsKc; matchDigitsCommaDash; matchDigitsCZK ].

Section ParsePrice.
Context `{HtmlParser} `{JsonApi}.

(** The body of the loop over the linked-data scripts.  [None]: this
    script yields nothing (invalid JSON, a TypeError on the way to the
    price, no offers, no price, or a price that is not positive). *)
Definition jsonLdPrice (script : Element) : option number :=
  match JSON_parse (textContent script) with
  | None => None
  | Some JNull => None
  | Some data =>
      let offers :=
        if truthyValue (prop data (js "offers")) then prop data (js "offers")
        else
          match prop data (js "mainEntity") with
          | None | Some JNull => None
          | Some me => prop me (js "offers")
          end in
      if truthyValue offers then
        let offer :=
          match offers with
          | Some (JArray items) => head items
          | other => other
          end in
        match offer with
        | None | Some JNull => None
        | Some o =>
            match prop o (js "price") with
            | Some p =>
                let price := parseFloat (jsToString p) in
                if negb (isNaN price) && gtZero price then Some price
                else None
            | None => None
            end
        end
      else None
  end.

Definition metaPrice (root : Root) (selector : jsstring) : option number :=
  match querySelector root selector with
  | Some meta =>
      parseCzechNumber
        (match getAttribute meta (js "content") with
         | Some c => if truthy c then c else []
         | None => []
         end)
  | None => None
  end.

Definition selectorPrice (root : Root) (selector : jsstring) : option number :=
  match querySelector root selector with
  | Some el => parseCzechNumber (textContent el)
  | None => None
  end.

Definition patternPrice (html : jsstring)
    (pattern : jsstring -> option jsstring) : option number :=
  match firstMatch pattern html with
  | Some group => parseCzechNumber group
  | None => None
  end.

(** function parsePrice(html): { price, priceFormatted } | null *)
Definition parsePrice (html : jsstring) : option (number * jsstring) :=
  let root := parseHTML html in
  let found :=
    match firstSome jsonLdPrice (querySelectorAll root SEL_JSON_LD) with
    | Some price => Some price
    | None =>
        match firstSome (metaPrice root) metaSelectors with
        | Some price => Some price
        | None =>
            match firstSome (selectorPrice root) priceSelectors with
            | Some price => Some price
            | None => firstSome (patternPrice html) pricePatterns
            end
        end
    end in
  match found with
  | Some price => Some (price, formatCzechPrice price)
  | None => None
  end.
End ParsePrice.

(* ===================================================================== *)
(** * Sessions and the browser *)
(* ===================================================================== *)

(** ** types.ts *)

Record AlzaAccount : Type := {
  email : jsstring;
  password : jsstring;
  label : jsstring;
}.

Inductive SessionStatus : Type :=
  | logged_in
  | verification_required
  | failed
  | not_started.

Definition SessionStatus_eqb (a b : SessionStatus) : bool :=
  match a, b with
  | logged_in, logged_in => true
  | verification_required, verification_required => true
  | failed, failed => true
  | not_started, not_started => true
  | _, _ => false
  end.

Record AccountSessionStatus : Type := {
  st_label : jsstring;
  st_status : SessionStatus;
  st_phone : option jsstring;
  st_error : option jsstring;
}.

Record ScrapedData : Type := {
  product : jsstring;
  price : number;
  priceFormatted : jsstring;
}.

(** ** config.ts (the fields the scraper reads) *)

Record AppConfig : Type := {
  chromePath : jsstring;
  chromeDebugPort : Z;
  chromeUserDataDir : jsstring;
}.

(** ** Handles of the automation library *)

Inductive Browser : Type := BrowserHandle (id : nat).
Inductive BrowserContext : Type := ContextHandle (id : nat).
Inductive Page : Type := PageHandle (id : nat).
Inductive ChildProcess : Type := ProcessHandle (id : nat).

(** interface AccountSession *)
Record AccountSession : Type := {
  context : BrowserContext;
  status : SessionStatus;
  phone : option jsstring;
  error : option jsstring;
  verifyPage : option Page;
  expires : Z;
}.

Definition ALZA_BASE : jsstring := js "https://www.alza.cz".
Definition CF_TIMEOUT : Z := 90000.
Definition SESSION_TTL : Z := 10 * 60 * 1000.

(** ** The outside world

    Everything the module asks of the browser, the operating system and
    the clock.  A [Query] reads without effect and does not fail; an
    [Action] is an awaited or throwing call: it completes with a value or
    with a thrown value, and the world moves on. *)

Inductive thrown : Type :=
  | JsError (message : jsstring)   (* an instance of Error *)
  | JsOther.                       (* any other thrown value *)

Inductive completion (A : Type) : Type :=
  | Return (a : A)
  | Throw (e : thrown).
Arguments Return {A} a.
Arguments Throw {A} e.

Inductive WaitUntil : Type := domcontentloaded | networkidle.

Inductive Query : Type -> Type :=
  | DateNow : Query Z                                   (* Date.now() *)
  | IsConnected (b : Browser) : Query bool              (* b.isConnected() *)
  | Contexts (b : Browser) : Query (list BrowserContext) (* b.contexts() *)
  | Pages (c : BrowserContext) : Query (list Page)      (* c.pages() *)
  | PageUrl (p : Page) : Query jsstring                 (* p.url() *)
  | EnvUseXvfb : Query bool.            (* process.env.USE_XVFB === "true" *)

Inductive Action : Type -> Type :=
  | PageClose (p : Page) : Action unit
  | ContextClose (c : BrowserContext) : Action unit
  | NewContext (b : Browser) (locale : jsstring) (width height : Z)
      : Action BrowserContext
  | NewPage (c : BrowserContext) : Action Page
  | PageGoto (p : Page) (url : jsstring) (waitUntil : WaitUntil) (timeout : Z)
      : Action unit
  (* page.waitForFunction(title has neither challenge phrase, timeout) *)
  | WaitForChallengeTitle (p : Page) (timeout : Z) : Action unit
  | PageTitle (p : Page) : Action jsstring
  | WaitForSelector (p : Page) (selector : jsstring) (timeout : Z) : Action unit
  | LocatorClick (p : Page) (selector : jsstring) : Action unit
  | LocatorFill (p : Page) (selector value : jsstring) : Action unit
  | LocatorWaitFor (p : Page) (selector : jsstring) (timeout : Z) : Action unit
  | WaitForTimeout (p : Page) (ms : Z) : Action unit
  (* page.evaluate: the masked phone number found in the body text *)
  | EvaluatePhone (p : Page) : Action (option jsstring)
  (* page.evaluate: the first 500 characters of the body text *)
  | EvaluateBodyText (p : Page) : Action (option jsstring)
  (* page.waitForURL(/www\.alza\.cz/, timeout) *)
  | WaitForAlzaURL (p : Page) (timeout : Z) : Action unit
  | PageContent (p : Page) : Action jsstring
  (* execSync(lsof -ti:port | xargs kill -9) *)
  | KillPort (port : Z) : Action unit
  | Spawn (cmd : jsstring) (args : list jsstring) : Action ChildProcess
  | ProcessKill (p : ChildProcess) : Action unit
  (* launchChromeAndWaitForCF: the polling of the listing endpoint until a
     page title shows the challenge has cleared, or the time is out *)
  | PollChallengeCleared (port : Z) (url : jsstring) (timeoutMs : Z) : Action unit
  | ConnectOverCDP (endpoint : jsstring) : Action Browser
  | BrowserClose (b : Browser) : Action unit
  (* awaiting a creation another caller has in flight *)
  | AwaitCreation (promise : nat) : Action Browser.

Class World (W : Type) : Type := {
  observe : forall X, Query X -> W -> X;
  perform : forall X, Action X -> W -> completion X * W;
  (** a timer of between [lo] and [hi] milliseconds has fired *)
  elapse : Z -> Z -> W -> W;
}.
Arguments observe {W _ X} q w.
Arguments perform {W _ X} a w.

(** An entry of the call log: an action the module performed and whether it
    completed normally. *)
Inductive Call : Type :=
  | Performed {X : Type} (a : Action X) (ok : bool).

(** ** Module state

    The module-level variables of the scraper, the world, and a log of the
    actions performed (newest first), which the statements use to say what
    an operation did or did not ask of the browser. *)
Record Globals (W : Type) : Type := mkGlobals {
  browser : option Browser;
  chromeProcess : option ChildProcess;
  browserInitPromise : option nat;
  sessions : gmap jsstring AccountSession;
  promisesMade : nat;
  world : W;
  calls : list Call;
}.
Arguments mkGlobals {W}.
Arguments browser {W}.
Arguments chromeProcess {W}.
Arguments browserInitPromise {W}.
Arguments sessions {W}.
Arguments promisesMade {W}.
Arguments world {W}.
Arguments calls {W}.

Section Setters.
Context {W : Type}.

Definition set_browser (b : option Browser) (g : Globals W) : Globals W :=
  mkGlobals b (chromeProcess g) (browserInitPromise g) (sessions g)
            (promisesMade g) (world g) (calls g).
Definition set_chromeProcess (p : option ChildProcess) (g : Globals W) : Globals W :=
  mkGlobals (browser g) p (browserInitPromise g) (sessions g)
            (promisesMade g) (world g) (calls g).
Definition set_browserInitPromise (p : option nat) (g : Globals W) : Globals W :=
  mkGlobals (browser g) (chromeProcess g) p (sessions g)
            (promisesMade g) (world g) (calls g).
Definition set_sessions (s : gmap jsstring AccountSession) (g : Globals W) : Globals W :=
  mkGlobals (browser g) (chromeProcess g) (browserInitPromise g) s
            (promisesMade g) (world g) (calls g).
Definition set_promisesMade (n : nat) (g : Globals W) : Globals W :=
  mkGlobals (browser g) (chromeProcess g) (browserInitPromise g) (sessions g)
            n (world g) (calls g).
Definition set_world (w : W) (g : Globals W) : Globals W :=
  mkGlobals (browser g) (chromeProcess g) (browserInitPromise g) (sessions g)
            (promisesMade g) w (calls g).
Definition log_call (c : Call) (g : Globals W) : Globals W :=
  mkGlobals (browser g) (chromeProcess g) (browserInitPromise g) (sessions g)
            (promisesMade g) (world g) (c :: calls g).
End Setters.

(** ** Computations: state passing with thrown values *)

Definition M (W A : Type) : Type := Globals W -> completion A * Globals W.

Section Monad.
Context {W : Type} `{World W}.

Definition ret {A} (a : A) : M W A := fun g => (Return a, g).

Definition throw {A} (e : thrown) : M W A := fun g => (Throw e, g).

Definition bind {A B} (m : M W A) (k : A -> M W B) : M W B :=
  fun g =>
    match m g with
    | (Return a, g') => k a g'
    | (Throw e, g') => (Throw e, g')
    end.

(** try { m } catch (e) { h e } *)
Definition tryCatch {A} (m : M W A) (h : thrown -> M W A) : M W A :=
  fun g =>
    match m g with
    | (Return a, g') => (Return a, g')
    | (Throw e, g') => h e g'
    end.

(** try { m } finally { fin } *)
Definition tryFinally {A} (m : M W A) (fin : M W unit) : M W A :=
  fun g =>
    match m g with
    | (r, g') =>
        match fin g' with
        | (Return _, g'') => (r, g'')
        | (Throw e, g'') => (Throw e, g'')
        end
    end.

(** promise.catch(() => {}) *)
Definition ignoreErrors (m : M W unit) : M W unit :=
  tryCatch m (fun _ => ret tt).

Definition gets {A} (f : Globals W -> A) : M W A := fun g => (Return (f g), g).

Definition modify (f : Globals W -> Globals W) : M W unit :=
  fun g => (Return tt, f g).

Definition query {X} (q : Query X) : M W X :=
  fun g => (Return (observe q (world g)), g).

Definition isReturn {A} (r : completion A) : bool :=
  match r with Return _ => true | Throw _ => false end.

Definition act {X} (a : Action X) : M W X :=
  fun g =>
    match perform a (world g) with
    | (r, w') => (r, log_call (Performed a (isReturn r)) (set_world w' g))
    end.

Definition timer (lo hi : Z) : M W unit :=
  fun g => (Return tt, set_world (elapse lo hi (world g)) g).
End Monad.

Notation "'let*' p := m 'in' k" := (bind m (fun p => k))
  (at level 10, p pattern, m at level 100, k at level 200).
Notation "m ;;; k" := (bind m (fun _ => k))
  (at level 100, k at level 200, right associativity).

(** ** Helpers of the scraper *)

Definition hexDigit (n : Z) : Z := if n <? 10 then 48 + n else 55 + n.

Definition percentByte (b : Z) : jsstring :=
  [ch "%"; hexDigit (b / 16); hexDigit (b mod 16)].

(** [new URLSearchParams(..).toString()] on one name or value: the
    application/x-www-form-urlencoded serialisation of its UTF-8 bytes. *)
Definition formEncodeUnit (c : Z) : jsstring :=
  if isDigit c || ((65 <=? c) && (c <=? 90)) || ((97 <=? c) && (c <=? 122))
     || (c =? ch "*") || (c =? ch "-") || (c =? ch ".") || (c =? ch "_")
  then [c]
  else if c =? 32 then [ch "+"]
  else if c <? 128 then percentByte c
  else if c <? 2048 then percentByte (192 + c / 64) ++ percentByte (128 + c mod 64)
  else percentByte (224 + c / 4096) ++ percentByte (128 + (c / 64) mod 64)
         ++ percentByte (128 + c mod 64).

Definition formEncode (s : jsstring) : jsstring := concat (map formEncodeUnit s).

Fixpoint searchParams (kvs : list (jsstring * jsstring)) : jsstring :=
  match kvs with
  | [] => []
  | [(k, v)] => formEncode k ++ ch "=" :: formEncode v
  | (k, v) :: r => formEncode k ++ ch "=" :: formEncode v ++ ch "&" :: searchParams r
  end.

Definition oidcUrlAt (now : Z) : jsstring :=
  js "https://identity.alza.cz/connect/authorize?" ++
  searchParams
    [ (js "client_id", js "alza");
      (js "response_type", js "code id_token");
      (js "scope", js "email openid profile alza offline_access");
      (js "redirect_uri", js "https://www.alza.cz/external/callback");
      (js "response_mode", js "form_post");
      (js "nonce", js "nonce_" ++ showInt now);
      (js "culture", js "cs-CZ");
      (js "acr_values", js "country:CZ regLink:Production_registration source:Web") ].

Definition LOGIN_URL : jsstring := js "https://identity.alza.cz/Account/Login".
Definition VERIFY_URL : jsstring := js "https://identity.alza.cz/Account/Verify".
Definition SEL_SUBMIT : jsstring :=
  js "button[type=" ++ [QUOTE] ++ js "submit" ++ [QUOTE] ++ js "]".

(** ** The operations *)

Section Scraper.
Context {W : Type} `{World W} `{HtmlParser} `{JsonApi}.

(** function sleep(ms) *)
Definition sleep (ms : Z) : M W unit := timer ms ms.

(** function humanDelay(minMs, maxMs) *)
Definition humanDelay (minMs maxMs : Z) : M W unit := timer minMs maxMs.

(** async function waitForCloudflare(page) *)
Definition waitForCloudflare (page : Page) : M W unit :=
  act (WaitForChallengeTitle page CF_TIMEOUT).

(** [if (browser?.isConnected()) return browser]: the handle, when there
    is one and it is connected. *)
Definition connectedBrowser : M W (option Browser) :=
  let* b := gets browser in
  match b with
  | Some b =>
      let* up := query (IsConnected b) in
      ret (if up then Some b else None)
  | None => ret None
  end.

(** *** initBrowser, cut at its awaits *)

(** Up to the first await: the connected handle if there is one, else the
    debug port is freed. *)
Definition initBrowser_prelude (config : AppConfig) : M W (option Browser) :=
  let* b := connectedBrowser in
  match b with
  | Some b => ret (Some b)
  | None =>
      ignoreErrors (act (KillPort (chromeDebugPort config))) ;;;
      ret None
  end.

(** After [await sleep(1000)]: the browser process is spawned on the
    authorisation URL. *)
Definition initBrowser_launch (config : AppConfig) : M W jsstring :=
  sleep 1000 ;;;
  let* useXvfb := query EnvUseXvfb in
  let cmd := if useXvfb then js "xvfb-run" else chromePath config in
  let args :=
    if useXvfb
    then [js "--auto-servernum"; js "--server-args=-screen 0 1280x720x24";
          chromePath config]
    else [] in
  let* now := query DateNow in
  let oidcUrl := oidcUrlAt now in
  let args :=
    args ++
    [ js "--remote-debugging-port=" ++ showInt (chromeDebugPort config);
      js "--user-data-dir=" ++ chromeUserDataDir config;
      js "--no-first-run";
      js "--no-default-browser-check";
      js "--disable-blink-features=AutomationControlled";
      js "--window-size=1280,720";
      oidcUrl ] in
  let* proc := act (Spawn cmd args) in
  modify (set_chromeProcess (Some proc)) ;;;
  ret oidcUrl.

(** After [await sleep(5000)]: the challenge is awaited with no automation
    connection attached. *)
Definition initBrowser_challenge (config : AppConfig) (oidcUrl : jsstring)
  : M W unit :=
  sleep 5000 ;;;
  act (PollChallengeCleared (chromeDebugPort config) oidcUrl 120000).

(** Then the connection is attached and kept. *)
Definition initBrowser_connect (config : AppConfig) : M W Browser :=
  let* b := act (ConnectOverCDP
                   (js "http://127.0.0.1:" ++ showInt (chromeDebugPort config))) in
  modify (set_browser (Some b)) ;;;
  ret b.

(** async function initBrowser(config) *)
Definition initBrowser (config : AppConfig) : M W Browser :=
  let* b := initBrowser_prelude config in
  match b with
  | Some b => ret b
  | None =>
      let* oidcUrl := initBrowser_launch config in
      initBrowser_challenge config oidcUrl ;;;
      initBrowser_connect config
  end.

(** export async function ensureBrowser(config), run without any other
    caller in between. *)
Definition ensureBrowser (config : AppConfig) : M W Browser :=
  let* b := connectedBrowser in
  match b with
  | Some b => ret b
  | None =>
      let* pending := gets browserInitPromise in
      match pending with
      | Some p => act (AwaitCreation p)
      | None =>
          let* p := gets promisesMade in
          modify (set_promisesMade (S p)) ;;;
          modify (set_browserInitPromise (Some p)) ;;;
          tryFinally (initBrowser config)
                     (modify (set_browserInitPromise None))
      end
  end.

(** *** Session store *)

Definition getSession (key : jsstring) : M W (option AccountSession) :=
  gets (fun g => sessions g !! key).

Definition setSession (key : jsstring) (s : AccountSession) : M W unit :=
  modify (fun g => set_sessions (<[key := s]> (sessions g)) g).

Definition deleteSession (key : jsstring) : M W unit :=
  modify (fun g => set_sessions (delete key (sessions g)) g).

(** Assignments to the fields of the session object the store holds. *)
Definition updateSession (key : jsstring) (f : AccountSession -> AccountSession)
  : M W unit :=
  modify (fun g => set_sessions (alter f key (sessions g)) g).

Definition errorMessage (e : thrown) (fallback : jsstring) : jsstring :=
  match e with
  | JsError message => message
  | JsOther => fallback
  end.

Definition statusOnly (account : AlzaAccount) (s : SessionStatus)
  : AccountSessionStatus :=
  {| st_label := label account; st_status := s;
     st_phone := None; st_error := None |}.

Definition failedWith (account : AlzaAccount) (error : jsstring)
  : AccountSessionStatus :=
  {| st_label := label account; st_status := failed;
     st_phone := None; st_error := Some error |}.

(** The loop over [context.pages()] for the page that is on the identity
    provider. *)
Fixpoint findLoginPage (pages : list Page) : M W (option Page) :=
  match pages with
  | [] => ret None
  | p :: rest =>
      let* url := query (PageUrl p) in
      if includes (js "identity.alza.cz") url then ret (Some p)
      else findLoginPage rest
  end.

(** The verification branch of initLogin (both occurrences). *)
Definition recordVerification (account : AlzaAccount)
    (context : BrowserContext) (page : Page) : M W AccountSessionStatus :=
  let* phone := act (EvaluatePhone page) in
  let* now := query DateNow in
  setSession (email account)
    {| context := context; status := verification_required;
       phone := phone; error := None; verifyPage := Some page;
       expires := now + SESSION_TTL |} ;;;
  ret {| st_label := label account; st_status := verification_required;
         st_phone := phone; st_error := None |}.

(** The success branch of initLogin (both occurrences). *)
Definition recordLoggedIn (account : AlzaAccount)
    (context : BrowserContext) (page : Page) : M W AccountSessionStatus :=
  act (PageClose page) ;;;
  let* now := query DateNow in
  setSession (email account)
    {| context := context; status := logged_in;
       phone := None; error := None; verifyPage := None;
       expires := now + SESSION_TTL |} ;;;
  ret (statusOnly account logged_in).

(** The cached session that lets initLogin return at once. *)
Definition stillValid (cached : option AccountSession) (now : Z) : bool :=
  match cached with
  | Some c => SessionStatus_eqb (status c) logged_in && (now <? expires c)
  | None => false
  end.

(** The [try] block of initLogin. *)
Definition initLogin_body (account : AlzaAccount) (config : AppConfig)
  : M W AccountSessionStatus :=
  let* b := ensureBrowser config in
  let* contexts := query (Contexts b) in
  let defaultCtx := head contexts in
  let* size := gets (fun g => size (sessions g)) in
  let* found :=
    match defaultCtx with
    | Some d =>
        if Nat.eqb size 0 then
          (* First account: use the page already open from Chrome launch *)
          let* pages := query (Pages d) in
          let* p := findLoginPage pages in
          ret (option_map (fun p => (d, p)) p)
        else ret None
    | None => ret None
    end in
  let* (context, page) :=
    match found with
    | Some cp => ret cp
    | None =>
        (* Subsequent accounts or if the initial page wasn't found *)
        let* context :=
          match defaultCtx with
          | Some d => ret d
          | None => act (NewContext b (js "cs-CZ") 1280 720)
          end in
        let* page := act (NewPage context) in
        act (PageGoto page LOGIN_URL domcontentloaded CF_TIMEOUT) ;;;
        waitForCloudflare page ;;;
        ret (context, page)
    end in
  act (PageTitle page) ;;;
  humanDelay 500 1000 ;;;
  act (WaitForSelector page (js "#userName") 30000) ;;;
  act (LocatorClick page (js "#userName")) ;;;
  humanDelay 200 400 ;;;
  act (LocatorFill page (js "#userName") (email account)) ;;;
  humanDelay 300 600 ;;;
  act (LocatorClick page (js "#password")) ;;;
  humanDelay 200 400 ;;;
  act (LocatorFill page (js "#password") (password account)) ;;;
  humanDelay 500 1000 ;;;
  act (LocatorClick page SEL_SUBMIT) ;;;
  act (WaitForTimeout page 5000) ;;;
  let* afterLoginUrl := query (PageUrl page) in
  if includes (js "/Account/Verify") afterLoginUrl
     || includes (js "/account/verify") (toLowerCase afterLoginUrl)
  then recordVerification account context page
  else if includes (js "alza.cz") afterLoginUrl
          && negb (includes (js "identity.alza.cz") afterLoginUrl)
  then recordLoggedIn account context page
  else
    (* Try waiting for redirect *)
    let* late :=
      tryCatch
        (act (WaitForAlzaURL page 30000) ;;;
         let* st := recordLoggedIn account context page in
         ret (Some st))
        (fun _ =>
           let* url := query (PageUrl page) in
           if includes (js "/Account/Verify") url then
             let* st := recordVerification account context page in
             ret (Some st)
           else ret None) in
    match late with
    | Some st => ret st
    | None =>
        let* pageTitle := act (PageTitle page) in
        act (EvaluateBodyText page) ;;;
        act (PageClose page) ;;;
        ret (failedWith account
               (js "Unexpected state: " ++ pageTitle ++ js " ("
                  ++ afterLoginUrl ++ js ")"))
    end.

(** export async function initLogin(account, config) *)
Definition initLogin (account : AlzaAccount) (config : AppConfig)
  : M W AccountSessionStatus :=
  (* Check for valid cached session *)
  let* cached := getSession (email account) in
  let* now := query DateNow in
  if stillValid cached now then ret (statusOnly account logged_in)
  else
    (* Clean up old session *)
    match cached with
    | Some c =>
        match verifyPage c with
        | Some p => ignoreErrors (act (PageClose p))
        | None => ret tt
        end ;;;
        ignoreErrors (act (ContextClose (context c))) ;;;
        deleteSession (email account)
    | None => ret tt
    end ;;;
    tryCatch (initLogin_body account config)
             (fun e => ret (failedWith account (errorMessage e (js "Unknown error")))).

(** The [try] block of submitVerificationCode. *)
Definition submitVerificationCode_try (account : AlzaAccount)
    (code : jsstring) (page : Page) : M W AccountSessionStatus :=
  (* If the verify page has navigated away, go back to it *)
  let* currentUrl := query (PageUrl page) in
  (if negb (includes (js "/account/verify") (toLowerCase currentUrl))
   then
     act (PageGoto page VERIFY_URL domcontentloaded 30000) ;;;
     waitForCloudflare page
   else ret tt) ;;;
  (* Fill the code input; the form auto-submits after filling *)
  act (LocatorWaitFor page (js "#code") 10000) ;;;
  act (LocatorFill page (js "#code") code) ;;;
  (* Wait for redirect to alza.cz *)
  act (WaitForAlzaURL page 30000) ;;;
  act (PageClose page) ;;;
  let* now := query DateNow in
  updateSession (email account)
    (fun s => {| context := context s; status := logged_in;
                 phone := phone s; error := error s;
                 verifyPage := None;
                 expires := now + SESSION_TTL |}) ;;;
  ret (statusOnly account logged_in).

(** Its [catch] block. *)
Definition submitVerificationCode_catch (account : AlzaAccount)
    (session : AccountSession) (page : Page) (e : thrown)
  : M W AccountSessionStatus :=
  let error := errorMessage e (js "Verification failed") in
  let* currentUrl := query (PageUrl page) in
  if includes (js "/Account/Verify") currentUrl then
    ret {| st_label := label account;
           st_status := verification_required;
           st_phone := phone session;
           st_error := Some (js "Invalid code, try again") |}
  else
    ignoreErrors (act (PageClose page)) ;;;
    updateSession (email account)
      (fun s => {| context := context s; status := failed;
                   phone := phone s; error := Some error;
                   verifyPage := None;
                   expires := expires s |}) ;;;
    ret (failedWith account error).

(** The session and page a code can be submitted to:
    [session && session.status === "verification_required" && session.verifyPage]. *)
Definition pendingVerification (session : option AccountSession)
  : option (AccountSession * Page) :=
  match session with
  | Some s =>
      if SessionStatus_eqb (status s) verification_required
      then match verifyPage s with Some p => Some (s, p) | None => None end
      else None
  | None => None
  end.

(** export async function submitVerificationCode(account, code) *)
Definition submitVerificationCode (account : AlzaAccount) (code : jsstring)
  : M W AccountSessionStatus :=
  let* session := getSession (email account) in
  match pendingVerification session with
  | None =>
      ret (failedWith account (js "No pending verification for this account"))
  | Some (session, page) =>
      tryCatch (submitVerificationCode_try account code page)
               (submitVerificationCode_catch account session page)
  end.

(** export function getSessionStatus(account) *)
Definition getSessionStatus (account : AlzaAccount) : M W AccountSessionStatus :=
  let* session := getSession (email account) in
  match session with
  | None => ret (statusOnly account not_started)
  | Some session =>
      let* now := query DateNow in
      if SessionStatus_eqb (status session) logged_in
         && (expires session <=? now)
      then ret (statusOnly account not_started)
      else ret {| st_label := label account;
                  st_status := status session;
                  st_phone := phone session;
                  st_error := error session |}
  end.

(** export async function scrapePrice(account, url) *)
Definition scrapePrice (account : AlzaAccount) (url : jsstring)
  : M W ScrapedData :=
  let* session := getSession (email account) in
  let active :=
    match session with
    | Some s => if SessionStatus_eqb (status s) logged_in then Some s else None
    | None => None
    end in
  match active with
  | None =>
      throw (JsError (js "No active session for " ++ label account
                        ++ js ". Call /auth/init first."))
  | Some session =>
      let* now := query DateNow in
      if expires session <=? now then
        deleteSession (email account) ;;;
        throw (JsError (js "Session expired for " ++ label account
                          ++ js ". Call /auth/init to re-login."))
      else
        let* page := act (NewPage (context session)) in
        tryFinally
          (act (PageGoto page url networkidle CF_TIMEOUT) ;;;
           waitForCloudflare page ;;;
           let* html := act (PageContent page) in
           match parsePrice html with
           | None =>
               throw (JsError (js "Could not extract price from account: "
                                 ++ label account))
           | Some (price, priceFormatted) =>
               ret {| product := parseProductName html;
                      price := price;
                      priceFormatted := priceFormatted |}
           end)
          (act (PageClose page))
  end.

(** The loop of closeBrowser over the sessions (in the order the store
    enumerates them). *)
Fixpoint closeSessions (l : list (jsstring * AccountSession)) : M W unit :=
  match l with
  | [] => ret tt
  | (_, session) :: rest =>
      match verifyPage session with
      | Some p => ignoreErrors (act (PageClose p))
      | None => ret tt
      end ;;;
      ignoreErrors (act (ContextClose (context session))) ;;;
      closeSessions rest
  end.

(** export async function closeBrowser() *)
Definition closeBrowser : M W unit :=
  let* all := gets (fun g => map_to_list (sessions g)) in
  closeSessions all ;;;
  modify (set_sessions ∅) ;;;
  let* b := gets browser in
  match b with
  | Some b => ignoreErrors (act (BrowserClose b)) ;;; modify (set_browser None)
  | None => ret tt
  end ;;;
  let* proc := gets chromeProcess in
  match proc with
  | Some p => act (ProcessKill p) ;;; modify (set_chromeProcess None)
  | None => ret tt
  end.
End Scraper.

(* ===================================================================== *)
(** * A simulated browser and page markup, for running the operations *)
(* ===================================================================== *)

Module Sim.

(** The simulated site: whether the challenge clears, whether the
    credentials or the code are accepted, whether a one-time code is
    asked for; the clock; the URL of every page opened so far (a page
    handle is its index). *)
Record Site := {
  challengeClears : bool;
  accepts : bool;
  twoFactor : bool;
  now : Z;
  urls : list jsstring;
}.

Definition at_time (t : Z) (w : Site) : Site :=
  {| challengeClears := challengeClears w; accepts := accepts w;
     twoFactor := twoFactor w; now := t; urls := urls w |}.

Definition with_urls (u : list jsstring) (w : Site) : Site :=
  {| challengeClears := challengeClears w; accepts := accepts w;
     twoFactor := twoFactor w; now := now w; urls := u |}.

Definition urlOf (p : Page) (w : Site) : jsstring :=
  match p with PageHandle i => nth i (urls w) [] end.

Definition navigate (p : Page) (url : jsstring) (w : Site) : Site :=
  match p with PageHandle i => with_urls (<[i := url]> (urls w)) w end.

Definition answer (X : Type) (q : Query X) (w : Site) : X :=
  match q in Query X return X with
  | DateNow => now w
  | IsConnected _ => true
  | Contexts _ => [ContextHandle 0]
  | Pages _ => map PageHandle (seq 0 (length (urls w)))
  | PageUrl p => urlOf p w
  | EnvUseXvfb => false
  end.

Definition timeout (what : jsstring) : thrown :=
  JsError (what ++ js ": Timeout exceeded.").

(** Every action takes one millisecond. *)
Definition run (X : Type) (a : Action X) (w0 : Site)
  : completion X * Site :=
  let w := at_time (now w0 + 1) w0 in
  match a in Action X return completion X * Site with
  | PageClose _ => (Return tt, w)
  | ContextClose _ => (Return tt, w)
  | NewContext _ _ _ _ => (Return (ContextHandle 1), w)
  | NewPage _ =>
      (Return (PageHandle (length (urls w))),
       with_urls (urls w ++ [js "about:blank"]) w)
  | PageGoto p url _ _ => (Return tt, navigate p url w)
  | WaitForChallengeTitle _ _ =>
      if challengeClears w then (Return tt, w)
      else (Throw (timeout (js "page.waitForFunction")), w)
  | PageTitle _ => (Return (js "Alza.cz"), w)
  | WaitForSelector _ _ _ => (Return tt, w)
  | LocatorClick p selector =>
      if bool_decide (selector = SEL_SUBMIT) then
        if twoFactor w then (Return tt, navigate p VERIFY_URL w)
        else if accepts w then (Return tt, navigate p (js "https://www.alza.cz/") w)
        else (Return tt, w)
      else (Return tt, w)
  | LocatorFill p selector _ =>
      if bool_decide (selector = js "#code") && accepts w
      then (Return tt, navigate p (js "https://www.alza.cz/") w)
      else (Return tt, w)
  | LocatorWaitFor _ _ _ => (Return tt, w)
  | WaitForTimeout _ ms => (Return tt, at_time (now w + ms) w)
  | EvaluatePhone _ => (Return (Some (js "*** *** 123")), w)
  | EvaluateBodyText _ => (Return (Some (js "Přihlášení")), w)
  | WaitForAlzaURL p _ =>
      if includes (js "www.alza.cz") (urlOf p w) then (Return tt, w)
      else (Throw (timeout (js "page.waitForURL")), w)
  | PageContent _ => (Return (js "<title>iPhone 16 Pro 256GB | Alza.cz</title><span class=price-box__price>29 990 Kč</span>"), w)
  | KillPort _ => (Throw (JsError (js "Command failed")), w)
  | Spawn _ args => (Return (ProcessHandle 1), with_urls [default [] (last args)] w)
  | ProcessKill _ => (Return tt, w)
  | PollChallengeCleared _ _ timeoutMs =>
      if challengeClears w then (Return tt, w)
      else (Throw (JsError (js "Cloudflare did not resolve within "
                              ++ showInt (timeoutMs / 1000) ++ js "s")), w)
  | ConnectOverCDP _ => (Return (BrowserHandle 0), w)
  | BrowserClose _ => (Return tt, w)
  | AwaitCreation _ => (Return (BrowserHandle 0), w)
  end.

Definition wait (lo hi : Z) (w : Site) : Site := at_time (now w + lo) w.

#[global] Instance world : World Site :=
  {| observe := answer; perform := run; elapse := wait |}.

(** *** Markup of the examples *)

Fixpoint after (p s : jsstring) : option jsstring :=
  if startsWith p s then Some (drop (length p) s)
  else match s with [] => None | _ :: s' => after p s' end.

Fixpoint before (p s : jsstring) : option jsstring :=
  if startsWith p s then Some []
  else match s with
       | [] => None
       | c :: s' => option_map (cons c) (before p s')
       end.

Definition between (opening closing s : jsstring) : option jsstring :=
  match after opening s with
  | Some r => before closing r
  | None => None
  end.

(** An element: its [content] attribute, its text. *)
Record Node := { content : option jsstring; text : jsstring }.

(** A parser for the markup the examples use: a [title], an [h1], a
    [span] of class price-box__price, and [meta] tags written as
    [<meta property=NAME content=VALUE>]. *)
Definition select (html selector : jsstring) : option Node :=
  if bool_decide (selector = js "title") then
    option_map (fun t => {| content := None; text := t |})
               (between (js "<title>") (js "</title>") html)
  else if bool_decide (selector = js "h1") then
    option_map (fun t => {| content := None; text := t |})
               (between (js "<h1>") (js "</h1>") html)
  else if bool_decide (selector = js ".price-box__price") then
    option_map (fun t => {| content := None; text := t |})
               (between (js "<span class=price-box__price>") (js "</span>") html)
  else if bool_decide (selector = SEL_OG_TITLE) then
    option_map (fun t => {| content := Some t; text := [] |})
               (between (js "<meta property=og:title content=") (js ">") html)
  else if bool_decide (selector = hd [] metaSelectors) then
    option_map (fun t => {| content := Some t; text := [] |})
               (between (js "<meta property=og:price:amount content=") (js ">") html)
  else None.

#[global] Instance parser : HtmlParser :=
  {| Root := jsstring; Element := Node;
     parseHTML := fun html => html;
     querySelector := select;
     querySelectorAll := fun _ _ => [];
     getAttribute := fun el name =>
       if bool_decide (name = js "content") then content el else None;
     textContent := text |}.

#[global] Instance json : JsonApi := {| JSON_parse := fun _ => None |}.

Definition start (w : Site) : Globals Site :=
  mkGlobals None None None ∅ 0 w [].

Definition site (clears ok twofa : bool) : Site :=
  {| challengeClears := clears; accepts := ok; twoFactor := twofa;
     now := 1000; urls := [] |}.

Definition config : AppConfig :=
  {| chromePath := js "/usr/bin/google-chrome"; chromeDebugPort := 9222;
     chromeUserDataDir := js "/tmp/alza-chrome-profile" |}.

Definition session (st : SessionStatus) (page : option Page) (expiry : Z)
  : AccountSession :=
  {| context := ContextHandle 0; status := st; phone := None; error := None;
     verifyPage := page; expires := expiry |}.

(** The module state with one session in the store. *)
Definition holding (key : jsstring) (s : AccountSession) (w : Site)
  : Globals Site :=
  set_sessions {[ key := s ]} (start w).

Definition personal : AlzaAccount :=
  {| email := js "a@example.com"; password := js "pw1"; label := js "Personal" |}.
Definition business : AlzaAccount :=
  {| email := js "b@example.com"; password := js "pw2"; label := js "Business" |}.

End Sim.

(* ===================================================================== *)
(** * Callers of ensureBrowser on the event loop *)
(* ===================================================================== *)

(** The module runs on one event loop: a call runs until it awaits, and
    what is awaited completes later, in any order.  The steps below are
    the pieces of ensureBrowser and initBrowser between their awaits. *)
Module EventLoop.
Section EventLoop.
Context {W : Type} `{World W}.

(** The promise an invocation of initBrowser returned: where the
    invocation is suspended, or how it settled. *)
Inductive Creation : Type :=
  | Launching (config : AppConfig)                    (* await sleep(1000) *)
  | Challenge (config : AppConfig) (oidcUrl : jsstring) (* await sleep(5000) *)
  | Connecting (config : AppConfig)          (* the challenge has cleared *)
  | Settled (r : completion Browser).

(** A caller of ensureBrowser. *)
Inductive Caller : Type :=
  | Created (p : nat)    (* [await browserInitPromise] inside try/finally *)
  | Joined (p : nat)     (* [return browserInitPromise], a creation in flight *)
  | Finished (r : completion Browser).

Record Loop : Type := mkLoop {
  globals : Globals W;
  creations : gmap nat Creation;
  callers : list Caller;
}.

Inductive Event : Type :=
  | Call (config : AppConfig)   (* ensureBrowser(config) is invoked *)
  | Advance (p : nat)           (* what creation p awaits has completed *)
  | Resume (i : nat).           (* the promise caller i awaits has settled *)

Definition idle (g : Globals W) : Loop := mkLoop g ∅ [].

(** ensureBrowser up to its await. *)
Definition call (config : AppConfig) (s : Loop) : Loop :=
  match connectedBrowser (globals s) with
  | (Return (Some b), g) =>
      mkLoop g (creations s) (callers s ++ [Finished (Return b)])
  | (Return None, g) =>
      match browserInitPromise g with
      | Some p => mkLoop g (creations s) (callers s ++ [Joined p])
      | None =>
          let p := promisesMade g in
          let '(r, g') := initBrowser_prelude config g in
          let creation :=
            match r with
            | Return (Some b) => Settled (Return b)
            | Return None => Launching config
            | Throw e => Settled (Throw e)
            end in
          mkLoop (set_browserInitPromise (Some p) (set_promisesMade (S p) g'))
                 (<[p := creation]> (creations s))
                 (callers s ++ [Created p])
      end
  | (Throw e, g) =>
      mkLoop g (creations s) (callers s ++ [Finished (Throw e)])
  end.

(** initBrowser from one await to the next. *)
Definition advance (p : nat) (s : Loop) : option Loop :=
  match creations s !! p with
  | Some (Launching config) =>
      let '(r, g) := initBrowser_launch config (globals s) in
      let next := match r with
                  | Return oidcUrl => Challenge config oidcUrl
                  | Throw e => Settled (Throw e)
                  end in
      Some (mkLoop g (<[p := next]> (creations s)) (callers s))
  | Some (Challenge config oidcUrl) =>
      let '(r, g) := initBrowser_challenge config oidcUrl (globals s) in
      let next := match r with
                  | Return _ => Connecting config
                  | Throw e => Settled (Throw e)
                  end in
      Some (mkLoop g (<[p := next]> (creations s)) (callers s))
  | Some (Connecting config) =>
      let '(r, g) := initBrowser_connect config (globals s) in
      Some (mkLoop g (<[p := Settled r]> (creations s)) (callers s))
  | Some (Settled _) | None => None
  end.

(** A caller continues once its promise has settled; the one that created
    it runs its [finally] first. *)
Definition resume (i : nat) (s : Loop) : option Loop :=
  match callers s !! i with
  | Some (Created p) =>
      match creations s !! p with
      | Some (Settled r) =>
          Some (mkLoop (set_browserInitPromise None (globals s))
                       (creations s)
                       (<[i := Finished r]> (callers s)))
      | _ => None
      end
  | Some (Joined p) =>
      match creations s !! p with
      | Some (Settled r) =>
          Some (mkLoop (globals s) (creations s)
                       (<[i := Finished r]> (callers s)))
      | _ => None
      end
  | Some (Finished _) | None => None
  end.

Definition step (ev : Event) (s : Loop) : option Loop :=
  match ev with
  | Call config => Some (call config s)
  | Advance p => advance p s
  | Resume i => resume i s
  end.

(** A schedule; [None] when it asks for a step that cannot happen. *)
Fixpoint run (evs : list Event) (s : Loop) : option Loop :=
  match evs with
  | [] => Some s
  | ev :: rest =>
      match step ev s with
      | Some s' => run rest s'
      | None => None
      end
  end.

Definition isCall (ev : Event) : bool :=
  match ev with Call _ => true | _ => false end.

Definition isResume (ev : Event) : bool :=
  match ev with Resume _ => true | _ => false end.

(** The calls of a schedule are concurrent: each is made before any
    caller has been resumed with a result. *)
Fixpoint concurrent (evs : list Event) : bool :=
  match evs with
  | [] => true
  | ev :: rest =>
      (if isResume ev then forallb (fun e => negb (isCall e)) rest else true)
      && concurrent rest
  end.
End EventLoop.
End EventLoop.

(** Browser processes launched and connections attached, read off the log. *)
Definition isLaunch (c : Call) : bool :=
  match c with
  | @Performed _ a ok => match a with Spawn _ _ => ok | _ => false end
  end.

Definition isAttach (c : Call) : bool :=
  match c with
  | @Performed _ a ok => match a with ConnectOverCDP _ => ok | _ => false end
  end.

Definition isNewContext (c : Call) : bool :=
  match c with
  | @Performed _ a _ => match a with NewContext _ _ _ _ => true | _ => false end
  end.

Definition launches {W} (g : Globals W) : nat := length (filter isLaunch (calls g)).
Definition attachments {W} (g : Globals W) : nat := length (filter isAttach (calls g)).

(* ===================================================================== *)
(** * Arithmetic and arrays of the handlers *)
(* ===================================================================== *)

(** [a - b] *)
Definition subtract (a b : number) : number :=
  match a, b with
  | NaN, _ => NaN
  | _, NaN => NaN
  | Infinity n1, Infinity n2 => if Bool.eqb n1 n2 then NaN else Infinity n1
  | Infinity n1, Finite _ => Infinity n1
  | Finite _, Infinity n2 => Infinity (negb n2)
  | Finite x, Finite y => num (x - y)
  end.

(** [[...l].sort(comparefn)].  The sort of an array is stable, and for a
    comparator that orders the elements consistently its result is the one
    order that is sorted and stable; insertion from the right computes it.
    An element goes after those the comparator puts strictly before it
    ([comparefn(x, y) > 0]; a NaN counts as zero). *)
Section Sort.
Context {A : Type} (comparefn : A -> A -> number).

Fixpoint insertSorted (x : A) (l : list A) : list A :=
  match l with
  | [] => [x]
  | y :: r => if gtZero (comparefn x y) then y :: insertSorted x r else x :: y :: r
  end.

Definition sortBy (l : list A) : list A := foldr insertSorted [] l.
End Sort.

(** [arr.join(sep)] on an array of strings *)
Fixpoint join (sep : jsstring) (l : list jsstring) : jsstring :=
  match l with
  | [] => []
  | [x] => x
  | x :: r => x ++ sep ++ join sep r
  end.

(** ** Number formatting with any number of fraction digits *)

Fixpoint dropZeros (rds : list Z) : list Z :=
  match rds with
  | c :: r => if c =? 48 then dropZeros r else rds
  | [] => []
  end.

(** The fraction of a value given in units of [10^-maxDigits]: its digits
    padded to [maxDigits], without trailing zeros, after the decimal
    comma. *)
Definition fractionTextOf (maxDigits : nat) (frac : Z) : jsstring :=
  let padded := repeat 48 (maxDigits - length (digits frac)) ++ digits frac in
  match rev (dropZeros (rev padded)) with
  | [] => []
  | shown => ch "," :: shown
  end.

(** [n.toLocaleString("cs-CZ", { maximumFractionDigits })]; without
    options the maximum is 3. *)
Definition toLocaleStringCsDigits (maximumFractionDigits : nat) (n : number)
  : jsstring :=
  match n with
  | NaN => js "NaN"
  | Infinity neg => (if neg then js "-" else []) ++ js "∞"
  | Finite q =>
      let scale := 10 ^ Z.of_nat maximumFractionDigits in
      let units := Qfloor (Qabs q * inject_Z scale + (1 # 2)) in
      (if Qnum q <? 0 then js "-" else [])
        ++ group3 (digits (units / scale))
        ++ fractionTextOf maximumFractionDigits (units mod scale)
  end.

(** ** Loops over arrays *)

Section Traversals.
Context {W : Type} `{World W}.

(** [l.map(f)] for an [f] that has effects *)
Fixpoint mapM {A B} (f : A -> M W B) (l : list A) : M W (list B) :=
  match l with
  | [] => ret []
  | x :: rest =>
      let* y := f x in
      let* ys := mapM f rest in
      ret (y :: ys)
  end.

End Traversals.

(* ===================================================================== *)
(** * The HTTP handlers (index.ts) *)
(* ===================================================================== *)

Module Index.

(** interface ErrorResponse *)
Record ErrorResponse : Type := {
  err_error : jsstring;
  err_message : jsstring;
}.

(** type AccountResult = PriceResult | PriceError *)
Inductive AccountResult : Type :=
  | PriceResult (label : jsstring) (price : number) (priceFormatted : jsstring)
  | PriceError (label : jsstring) (error : jsstring).

(** interface CompareResponse *)
Record CompareResponse : Type := {
  cmp_product : jsstring;
  cmp_url : jsstring;
  cmp_accounts : list AccountResult;
  cmp_cheapest : option jsstring;
  cmp_difference : option number;
  cmp_differenceFormatted : option jsstring;
}.

(** What the handlers pass to [c.json]. *)
Inductive Body : Type :=
  | HealthBody                                     (* { status: "ok" } *)
  | ErrorBody (e : ErrorResponse)
  | AccountsBody (accounts : list AccountSessionStatus)        (* { accounts } *)
  | StatusBody (result : AccountSessionStatus)
  (* { error, message, accounts } *)
  | SessionErrorBody (e : ErrorResponse) (accounts : list AccountSessionStatus)
  | CompareBody (response : CompareResponse).

Definition Reply : Type := Body * Z.

(** [c.json(body, status)]; the status is 200 when none is given. *)
Definition json (body : Body) (status : Z) : Reply := (body, status).

Definition errorReply (code message : jsstring) (status : Z) : Reply :=
  json (ErrorBody {| err_error := code; err_message := message |}) status.

Definition UNKNOWN_PRODUCT : jsstring := js "Unknown Product".



(** The entry of an account in the response of /compare. *)
Definition accountResult (account : AlzaAccount)
    (result : completion ScrapedData) : AccountResult :=
  match result with
  | Return value =>
      PriceResult (label account) (price value) (priceFormatted value)
  | Throw reason =>
      PriceError (label account) (errorMessage reason (js "Unknown error"))
  end.

(** The assignments to [productName] in the callback of [results.map]. *)
Fixpoint productNameFrom (productName : jsstring)
    (results : list (completion ScrapedData)) : jsstring :=
  match results with
  | [] => productName
  | Return value :: rest =>
      productNameFrom
        (if jsstring_eqb productName UNKNOWN_PRODUCT then product value
         else productName)
        rest
  | Throw _ :: rest => productNameFrom productName rest
  end.

(** [accounts.filter((a) => a.available)]: the label and price of the
    entries that have them. *)
Definition availableResults (accounts : list AccountResult)
  : list (jsstring * number) :=
  omap (fun a => match a with
                 | PriceResult label price _ => Some (label, price)
                 | PriceError _ _ => None
                 end) accounts.

(** [(a, b) => a.price - b.price] *)
Definition byPrice (a b : jsstring * number) : number := subtract (snd a) (snd b).

(** The handler of GET /compare after [Promise.allSettled]: [settled] has
    each active account with the way its scrapePrice settled. *)
Definition compare_response (url : jsstring)
    (settled : list (AlzaAccount * completion ScrapedData)) : CompareResponse :=
  let productName := productNameFrom UNKNOWN_PRODUCT (map snd settled) in
  let accounts := map (fun ar => accountResult (fst ar) (snd ar)) settled in
  let sorted := sortBy byPrice (availableResults accounts) in
  let cheapest :=
    match sorted with
    | first :: _ => Some (fst first)
    | [] => None
    end in
  let difference :=
    match sorted with
    | first :: _ :: _ =>
        Some (subtract (snd (default first (last sorted))) (snd first))
    | _ => None
    end in
  {| cmp_product := productName;
     cmp_url := url;
     cmp_accounts := accounts;
     cmp_cheapest := cheapest;
     cmp_difference := difference;
     cmp_differenceFormatted :=
       option_map (fun d => toLocaleStringCsDigits 3 d ++ js " Kč") difference |}.

Section Handlers.
Context {W : Type} `{World W} `{HtmlParser} `{JsonApi}.

(** [const config = loadConfig()]: its accounts, its key, and the fields
    the scraper reads. *)
Variables (accounts : list AlzaAccount) (apiKey : jsstring) (config : AppConfig).

(** [new URL(url)] does not throw. *)
Variable canParse : jsstring -> bool.

Definition UNAUTHORIZED : Reply :=
  errorReply (js "UNAUTHORIZED") (js "Invalid or missing API key") 401.

(** const authMiddleware = async (c, next) => ...; [authHeader] is
    [c.req.header("Authorization")]. *)
Definition authMiddleware (authHeader : option jsstring) (next : M W Reply)
  : M W Reply :=
  match authHeader with
  | None => ret UNAUTHORIZED
  | Some authHeader =>
      if negb (truthy authHeader) || negb (startsWith (js "Bearer ") authHeader)
      then ret UNAUTHORIZED
      else if negb (jsstring_eqb (drop 7 authHeader) apiKey)
      then ret UNAUTHORIZED
      else next
  end.

(** app.get("/health") *)
Definition health : M W Reply := ret (json HealthBody 200).

(** app.get("/auth/status") *)
Definition authStatus : M W Reply :=
  let* accounts := mapM getSessionStatus accounts in
  ret (json (AccountsBody accounts) 200).

(** The loop of app.post("/auth/init"): the accounts one after the other. *)
Fixpoint authInit_loop (todo : list AlzaAccount)
    (accounts : list AccountSessionStatus) : M W (list AccountSessionStatus) :=
  match todo with
  | [] => ret accounts
  | account :: rest =>
      let* result :=
        tryCatch (initLogin account config)
          (fun e => ret (failedWith account
                           (errorMessage e (js "Unknown error")))) in
      authInit_loop rest (accounts ++ [result])
  end.

(** app.post("/auth/init") *)
Definition authInit : M W Reply :=
  let* accounts := authInit_loop accounts [] in
  ret (json (AccountsBody accounts) 200).





End Handlers.
End Index.

(* ===================================================================== *)
(** * Configuration from the environment (config.ts) *)
(* ===================================================================== *)

Module Config.

(** [process.env] *)
Definition Env : Type := gmap jsstring jsstring.

(** interface AppConfig *)
Record AppConfig : Type := {
  accounts : list AlzaAccount;
  apiKey : jsstring;
  port : number;
  chromePath : jsstring;
  chromeDebugPort : number;
  chromeUserDataDir : jsstring;
}.

(** A variable that is set and not empty: what [!v] tests and [v || d]
    keeps. *)
Definition nonEmpty (v : option jsstring) : option jsstring :=
  match v with
  | Some s => if truthy s then Some s else None
  | None => None
  end.

(** [v || d] *)
Definition orElse (v : option jsstring) (d : jsstring) : jsstring :=
  default d (nonEmpty v).

(** [parseInt(s, 10)]: blanks, a sign, then the digits up to the first
    character that is none; NaN without a digit. *)
Definition parseInt (s : jsstring) : number :=
  let t := trimStart s in
  let '(negative, t) :=
    match t with
    | c :: r =>
        if c =? ch "-" then (true, r)
        else if c =? ch "+" then (false, r)
        else (false, t)
    | [] => (false, [])
    end in
  match fst (spanDigits t) with
  | [] => NaN
  | ds =>
      let v := digitsValue ds in
      Finite (inject_Z (if negative then - v else v))
  end.

Definition chromePaths : list jsstring :=
  [ js "/Applications/Google Chrome.app/Contents/MacOS/Google Chrome";
    js "/usr/bin/google-chrome";
    js "/usr/bin/google-chrome-stable";
    js "/usr/bin/chromium";
    js "/usr/bin/chromium-browser";
    js "/ms-playwright/chromium_headless_shell-*/chrome-linux/headless_shell" ].

(** function findChrome(): string *)
Definition findChrome : jsstring :=
  match find (fun p => negb (includes (js "*") p)) chromePaths with
  | Some p => p
  | None => js "google-chrome"
  end.

(** [if (!v) missing.push(name)] *)
Definition missingName (v : option jsstring) (name : jsstring) : list jsstring :=
  match v with
  | Some _ => []
  | None => [name]
  end.

(** The prefix of the variables of account [i]. *)
Definition accountPrefix (i : Z) : jsstring := js "ALZA_ACC" ++ showInt i.

(** The loop of loadAccounts from index [i] on, with the accounts read so
    far.  [fuel] bounds the number of iterations; [None] when it is used
    up. *)
Fixpoint loadAccountsFrom (env : Env) (fuel : nat) (i : Z)
    (accounts : list AlzaAccount) : option (completion (list AlzaAccount)) :=
  match fuel with
  | O => None
  | S fuel' =>
      let prefix := accountPrefix i in
      let email := nonEmpty (env !! (prefix ++ js "_EMAIL")) in
      let password := nonEmpty (env !! (prefix ++ js "_PASSWORD")) in
      let label := nonEmpty (env !! (prefix ++ js "_LABEL")) in
      match email, password, label with
      | None, None, None =>
          (* Stop when we hit a gap *)
          Some (Return accounts)
      | Some email, Some password, Some label =>
          loadAccountsFrom env fuel' (i + 1)
            (accounts ++ [{| email := email; password := password; label := label |}])
      | _, _, _ =>
          let missing :=
            missingName email (prefix ++ js "_EMAIL")
            ++ missingName password (prefix ++ js "_PASSWORD")
            ++ missingName label (prefix ++ js "_LABEL") in
          Some (Throw (JsError (js "Incomplete account configuration for "
                                  ++ prefix ++ js ": missing "
                                  ++ join (js ", ") missing)))
      end
  end.

(** function loadAccounts(): AlzaAccount[].  Every iteration but the last
    finds a variable of its own in the environment, so there are no more
    of them than variables. *)
Definition loadAccounts (env : Env) : option (completion (list AlzaAccount)) :=
  loadAccountsFrom env (S (size env)) 1 [].

(** export function loadConfig(): AppConfig *)
Definition loadConfig (env : Env) : option (completion AppConfig) :=
  match nonEmpty (env !! js "API_KEY") with
  | None =>
      Some (Throw (JsError (js "API_KEY environment variable is required")))
  | Some apiKey =>
      let port := parseInt (orElse (env !! js "PORT") (js "3000")) in
      let chromePath := orElse (env !! js "CHROME_PATH") findChrome in
      let chromeDebugPort :=
        parseInt (orElse (env !! js "CHROME_DEBUG_PORT") (js "9222")) in
      let chromeUserDataDir :=
        orElse (env !! js "CHROME_USER_DATA_DIR") (js "/tmp/alza-chrome-profile") in
      match loadAccounts env with
      | None => None
      | Some (Throw e) => Some (Throw e)
      | Some (Return accounts) =>
          if Nat.eqb (length accounts) 0 then
            Some (Throw (JsError (js "At least one Alza account must be configured (ALZA_ACC1_EMAIL, ALZA_ACC1_PASSWORD, ALZA_ACC1_LABEL)")))
          else
            Some (Return {| accounts := accounts; apiKey := apiKey; port := port;
                            chromePath := chromePath;
                            chromeDebugPort := chromeDebugPort;
                            chromeUserDataDir := chromeUserDataDir |})
      end
  end.
End Config.


(* ===================================================================== *)
(** * Vocabulary of the statements *)
(* ===================================================================== *)

Section Triples.
Context {W : Type}.

(** [m], started in a state where [P] holds, ends in [Q]. *)
Definition hoare {A} (P : Globals W -> Prop) (m : M W A)
    (Q : completion A -> Globals W -> Prop) : Prop :=
  forall g, P g -> Q (fst (m g)) (snd (m g)).

(** [m] leaves the component [f] of the state as it found it. *)
Definition keeps {T A} (f : Globals W -> T) (m : M W A) : Prop :=
  forall g, f (snd (m g)) = f g.

(** [f] does not look at the world; [f] does not look at the log entries
    of the action [a]. *)
Definition worldBlind {T} (f : Globals W -> T) : Prop :=
  forall w g, f (set_world w g) = f g.

Definition logBlind {T X} (f : Globals W -> T) (a : Action X) : Prop :=
  forall ok g, f (log_call (Performed a ok) g) = f g.

(** [m] leaves the session store as it found it. *)
Definition keepsSessions {A} (m : M W A) : Prop := keeps sessions m.

(** [m] creates no browsing context: the log has no more calls of
    newContext than before. *)
Definition contextCalls (g : Globals W) : list Call :=
  filter isNewContext (calls g).

(** The store is [S]. *)
Definition storeIs (S : gmap jsstring AccountSession) (g : Globals W) : Prop :=
  sessions g = S.

(** The variables and counts the argument is about. *)
Definition summary (g : Globals W)
  : option Browser * option nat * nat * nat * nat :=
  (browser g, browserInitPromise g, promisesMade g, launches g, attachments g).

Section Blind.
Context {T : Type} (f : Globals W -> T).

(** The components the browser supervisor leaves alone: those blind to
    the world, to the log of its own actions and to its own variables. *)
Definition supervisorBlind : Prop :=
  worldBlind f
  /\ (forall port, logBlind f (KillPort port))
  /\ (forall cmd args, logBlind f (Spawn cmd args))
  /\ (forall port url t, logBlind f (PollChallengeCleared port url t))
  /\ (forall endpoint, logBlind f (ConnectOverCDP endpoint))
  /\ (forall p, logBlind f (AwaitCreation p))
  /\ (forall b g, f (set_browser b g) = f g)
  /\ (forall p g, f (set_chromeProcess p g) = f g)
  /\ (forall p g, f (set_browserInitPromise p g) = f g)
  /\ (forall n g, f (set_promisesMade n g) = f g).
End Blind.
End Triples.

Section Outcomes.
Context {W : Type} `{World W}.

(** What the [try] block of initLogin leaves behind, started on the
    store [S]: a thrown value or a failed status leave [S]; logged_in and
    verification_required have written the record of the account,
    stamped with the time of the write. *)
Definition loginOutcome (account : AlzaAccount)
    (S : gmap jsstring AccountSession)
    (r : completion AccountSessionStatus) (g' : Globals W) : Prop :=
  match r with
  | Throw _ => sessions g' = S
  | Return st =>
      st_label st = label account /\
      match st_status st with
      | failed => is_Some (st_error st) /\ sessions g' = S
      | logged_in =>
          exists ctx,
            sessions g' =
            <[email account :=
                {| context := ctx; status := logged_in; phone := None;
                   error := None; verifyPage := None;
                   expires := observe DateNow (world g') + SESSION_TTL |}]> S
      | verification_required =>
          exists ctx page,
            sessions g' =
            <[email account :=
                {| context := ctx; status := verification_required;
                   phone := st_phone st; error := None;
                   verifyPage := Some page;
                   expires := observe DateNow (world g') + SESSION_TTL |}]> S
      | not_started => False
      end
  end.

(** The clean-up of the old session always completes and leaves the
    store without a record for the account. *)
Definition initLogin_cleanup (account : AlzaAccount)
    (cached : option AccountSession) : M W unit :=
  match cached with
  | Some c =>
      match verifyPage c with
      | Some p => ignoreErrors (act (PageClose p))
      | None => ret tt
      end ;;;
      ignoreErrors (act (ContextClose (context c))) ;;;
      deleteSession (email account)
  | None => ret tt
  end.

(** What submitVerificationCode leaves behind for a pending session [s]
    on the store [S]. *)
Definition verifyOutcome (account : AlzaAccount)
    (S : gmap jsstring AccountSession) (s : AccountSession)
    (r : completion AccountSessionStatus) (g' : Globals W) : Prop :=
  match r with
  | Throw _ => False
  | Return st =>
      st_label st = label account /\
      match st_status st with
      | logged_in =>
          sessions g' =
          alter (fun s => {| context := context s; status := logged_in;
                             phone := phone s; error := error s;
                             verifyPage := None;
                             expires := observe DateNow (world g') + SESSION_TTL |})
                (email account) S
      | verification_required =>
          sessions g' = S /\ st_phone st = phone s
          /\ st_error st = Some (js "Invalid code, try again")
      | failed =>
          exists message,
            st_error st = Some message /\
            sessions g' =
            alter (fun s => {| context := context s; status := failed;
                               phone := phone s; error := Some message;
                               verifyPage := None; expires := expires s |})
                  (email account) S
      | not_started => False
      end
  end.
End Outcomes.


Section NameSourceOf.
Context `{HtmlParser}.


End NameSourceOf.


(** A character no currency marker starts with. *)
Definition plainChar (c : Z) : bool :=
  negb (eqi (ch "K") c) && negb (eqi (ch "C") c) && negb (eqi (ch "&") c).

(** The digits of the fraction of [frac] hundredths as [fractionText]
    shows them. *)
Definition fractionDigits (frac : Z) : list Z :=
  if frac =? 0 then []
  else if frac mod 10 =? 0 then [48 + frac / 10]
  else [48 + frac / 10; 48 + frac mod 10].

Definition withSeparator (sep : Z) (fd : list Z) : jsstring :=
  match fd with [] => [] | _ => sep :: fd end.

(** A character of a cleaned decimal: a digit or the point. *)
Definition decimalChar (c : Z) : bool := isDigit c || (c =? ch ".").

Section Phases.
Import EventLoop.
Context {W : Type}.

(** The first promise made, and the counts before the first call. *)
Variables (p0 L0 A0 : nat).

Definition awaits (c : Caller) : Prop := c = Created p0 \/ c = Joined p0.

Definition awaitsOrGot (r : completion Browser) (c : Caller) : Prop :=
  awaits c \/ c = Finished r.

Definition launchedBy (c : Creation) : nat :=
  match c with Launching _ => 0 | _ => 1 end.

Definition unsettled (c : Creation) : Prop :=
  match c with Settled _ => False | _ => True end.

(** [resumed] tells whether a caller has been resumed already; from then
    on the variable browserInitPromise may have been cleared. *)
Inductive Phase (resumed : bool) (s : @Loop W) : Prop :=
  | Idle :
      callers s = [] -> creations s = ∅ ->
      summary (globals s) = (None, None, p0, L0, A0) ->
      Phase resumed s
  | InFlight (c : Creation) :
      creations s = {[p0 := c]} -> unsettled c ->
      summary (globals s) = (None, Some p0, S p0, (L0 + launchedBy c)%nat, A0) ->
      Forall awaits (callers s) ->
      Phase resumed s
  | Succeeded (b : Browser) (pending : option nat) :
      creations s = {[p0 := Settled (Return b)]} ->
      summary (globals s) = (Some b, pending, S p0, S L0, S A0) ->
      (resumed = false -> pending = Some p0) ->
      Forall (awaitsOrGot (Return b)) (callers s) ->
      Phase resumed s
  | Failed (e : thrown) (pending : option nat) (launched : nat) :
      creations s = {[p0 := Settled (Throw e)]} ->
      summary (globals s) = (None, pending, S p0, launched, A0) ->
      (launched <= S L0)%nat ->
      (resumed = false -> pending = Some p0) ->
      Forall (awaitsOrGot (Throw e)) (callers s) ->
      Phase resumed s.
End Phases.

(** What the callers of a schedule see: they await the first promise or
    have got [outcome], the way that promise settled. *)
Definition sharing (p0 : nat) (outcome : option (completion Browser))
    (c : EventLoop.Caller) : Prop :=
  c = EventLoop.Created p0 \/ c = EventLoop.Joined p0
  \/ exists r, outcome = Some r /\ c = EventLoop.Finished r.

(** ** The call log and the results of a computation *)

Section Logs.
Context {W : Type}.

(** [m] only adds to the call log. *)
Definition logs {A} (m : M W A) : Prop :=
  forall g, exists l, calls (snd (m g)) = l ++ calls g.

End Logs.

Section ScrapeVocabulary.
Context {W : Type} `{World W} `{HtmlParser} `{JsonApi}.

(** The [try]/[finally] of scrapePrice, on the page it opened. *)
Definition scrapePrice_page (account : AlzaAccount) (url : jsstring)
    (page : Page) : M W ScrapedData :=
  tryFinally
    (act (PageGoto page url networkidle CF_TIMEOUT) ;;;
     waitForCloudflare page ;;;
     let* html := act (PageContent page) in
     match parsePrice html with
     | None =>
         throw (JsError (js "Could not extract price from account: "
                           ++ label account))
     | Some (price, priceFormatted) =>
         ret {| product := parseProductName html;
                price := price;
                priceFormatted := priceFormatted |}
     end)
    (act (PageClose page)).

(** A session scrapePrice accepts: logged in, and not yet expired. *)
Definition live (s : AccountSession) (now : Z) : Prop :=
  status s = logged_in /\ now < expires s.
End ScrapeVocabulary.

Section StatusVocabulary.
Context {W : Type} `{World W}.



End StatusVocabulary.

(** [a > b], as the comparator of the price sort sees it. *)
Definition dearer (a b : number) : bool := gtZero (subtract a b).

(** The label and price of the accounts whose scrapePrice was fulfilled. *)
Definition fulfilledPrices (settled : list (AlzaAccount * completion ScrapedData))
  : list (jsstring * number) :=
  omap (fun ar => match snd ar with
                  | Return d => Some (label (fst ar), price d)
                  | Throw _ => None
                  end) settled.

(** The product names of the fulfilled results. *)
Definition fulfilledProducts (settled : list (AlzaAccount * completion ScrapedData))
  : list jsstring :=
  omap (fun ar => match snd ar with
                  | Return d => Some (product d)
                  | Throw _ => None
                  end) settled.

Section ConfigVocabulary.
Variable env : Config.Env.

(** The variable of account [i] with the given suffix, when it is set and
    not empty. *)
Definition accountVar (i : Z) (suffix : jsstring) : option jsstring :=
  Config.nonEmpty (env !! (Config.accountPrefix i ++ suffix)).

(** Account [i] of the environment, when its three variables are set. *)
Definition accountAt (i : Z) : option AlzaAccount :=
  match accountVar i (js "_EMAIL"), accountVar i (js "_PASSWORD"),
        accountVar i (js "_LABEL") with
  | Some e, Some p, Some l => Some {| email := e; password := p; label := l |}
  | _, _, _ => None
  end.

(** None of the variables of account [i] is set. *)
Definition isGap (i : Z) : bool :=
  match accountVar i (js "_EMAIL"), accountVar i (js "_PASSWORD"),
        accountVar i (js "_LABEL") with
  | None, None, None => true
  | _, _, _ => false
  end.

(** The names of the variables of account [i] that are not set. *)
Definition missingNames (i : Z) : list jsstring :=
  Config.missingName (accountVar i (js "_EMAIL"))
    (Config.accountPrefix i ++ js "_EMAIL")
  ++ Config.missingName (accountVar i (js "_PASSWORD"))
       (Config.accountPrefix i ++ js "_PASSWORD")
  ++ Config.missingName (accountVar i (js "_LABEL"))
       (Config.accountPrefix i ++ js "_LABEL").

(** [loaded] are the accounts 1, 2, ... of the environment, each
    complete. *)
Definition accountsFrom (i : Z) (loaded : list AlzaAccount) : Prop :=
  forall k a, loaded !! k = Some a -> accountAt (i + Z.of_nat k) = Some a.

(** What loadAccounts makes of the accounts before index [next], the first
    that is not complete. *)
Definition loadOutcome (loaded : list AlzaAccount) (next : Z)
  : completion (list AlzaAccount) :=
  if isGap next then Return loaded
  else Throw (JsError (js "Incomplete account configuration for "
                         ++ Config.accountPrefix next ++ js ": missing "
                         ++ join (js ", ") (missingNames next))).
End ConfigVocabulary.



(* ===================================================================== *)
(** * The definitions on examples *)
(* ===================================================================== *)

Example js_kc : js "Kč" = [75; 269].
Proof. reflexivity. Qed.

Example js_dashes : js "-–—" = [45; EN_DASH; EM_DASH].
Proof. reflexivity. Qed.

Example parse_1234_50 : parseCzechNumber (js "1 234,50 Kč") = Some (num 1234.5).
Proof. vm_compute. reflexivity. Qed.

Example format_29990 : formatCzechPrice (num 29990) = [50; 57; NBSP; 57; 57; 48; 32; 75; 269].
Proof. vm_compute. reflexivity. Qed.

Example format_1234_5 : formatCzechPrice (num 1234.5) = [49; NBSP; 50; 51; 52; 44; 53; 32; 75; 269].
Proof. vm_compute. reflexivity. Qed.

Example format_0_05 : formatCzechPrice (num 0.05) = js "0,05 Kč".
Proof. vm_compute. reflexivity. Qed.

Example format_million : formatCzechPrice (num 1000000) = [49; NBSP; 48; 48; 48; NBSP; 48; 48; 48; 32; 75; 269].
Proof. vm_compute. reflexivity. Qed.

Example clean_title :
  clean (js "iPhone 16 Pro 256GB | Alza.cz") = js "iPhone 16 Pro 256GB".
Proof. vm_compute. reflexivity. Qed.

Example clean_za :
  clean (js "Sluchátka JBL za 1 299 Kč | Alza.cz") = js "Sluchátka JBL".
Proof. vm_compute. reflexivity. Qed.

Example clean_dash :
  clean (js "Apple iPhone 16 - Mobilní telefon | Alza.cz") = js "Apple iPhone 16".
Proof. vm_compute. reflexivity. Qed.

Example numberToString_samples :
  numberToString (num 29990) = js "29990" /\
  numberToString (num 1234.5) = js "1234.5" /\
  numberToString (num 0.05) = js "0.05" /\
  numberToString (num (-12.25)) = js "-12.25" /\
  numberToString (num 1e21) = js "1e+21" /\
  numberToString (num 120000000000000000000000) = js "1.2e+23" /\
  numberToString (num 0.0000001) = js "1e-7" /\
  numberToString (num 100) = js "100".
Proof. vm_compute. repeat split; reflexivity. Qed.

Example pattern_kc :
  firstMatch matchDigitsKc (js "<b>Cena: 29 990 Kč</b>") = Some (js "29 990").
Proof. vm_compute. reflexivity. Qed.

Example pattern_dash :
  firstMatch matchDigitsCommaDash (js "<b>1 299,- Kč</b>") = Some (js "1 299").
Proof. vm_compute. reflexivity. Qed.

Example pattern_czk :
  firstMatch matchDigitsCZK (js "x 1 234,50 CZK") = Some (js "1 234,50").
Proof. vm_compute. reflexivity. Qed.

Example oidcUrl_sample :
  oidcUrlAt 17 =
  js "https://identity.alza.cz/connect/authorize?client_id=alza&response_type=code+id_token&scope=email+openid+profile+alza+offline_access&redirect_uri=https%3A%2F%2Fwww.alza.cz%2Fexternal%2Fcallback&response_mode=form_post&nonce=nonce_17&culture=cs-CZ&acr_values=country%3ACZ+regLink%3AProduction_registration+source%3AWeb".
Proof. vm_compute. reflexivity. Qed.

Example sortBy_keeps_the_order_of_ties :
  sortBy Index.byPrice
    [(js "a", num 3); (js "b", num 1); (js "c", num 3); (js "d", num 1)]
  = [(js "b", num 1); (js "d", num 1); (js "a", num 3); (js "c", num 3)].
Proof. vm_compute. reflexivity. Qed.

Example toLocaleStringCsDigits_samples :
  toLocaleStringCsDigits 3 (num 1234.5678) = [49; NBSP; 50; 51; 52; 44; 53; 54; 56]
  /\ toLocaleStringCsDigits 3 (num 0.0004) = js "0"
  /\ toLocaleStringCsDigits 3 (num 999.5) = js "999,5"
  /\ toLocaleStringCsDigits 3 (num 12) = js "12".
Proof. vm_compute. refine (conj _ (conj _ (conj _ _))); reflexivity. Qed.

Example parseInt_samples :
  Config.parseInt (js "3000") = Finite (inject_Z 3000)
  /\ Config.parseInt (js "  42px") = Finite (inject_Z 42)
  /\ Config.parseInt (js "-7") = Finite (inject_Z (-7))
  /\ Config.parseInt (js "abc") = NaN
  /\ Config.parseInt (js "") = NaN.
Proof. vm_compute. refine (conj _ (conj _ (conj _ (conj _ _)))); reflexivity. Qed.

Example findChrome_sample :
  Config.findChrome = js "/Applications/Google Chrome.app/Contents/MacOS/Google Chrome".
Proof. vm_compute. reflexivity. Qed.

Example loadAccounts_incomplete :
  Config.loadAccounts
    (list_to_map [(js "ALZA_ACC1_EMAIL", js "a@example.com");
                  (js "ALZA_ACC1_LABEL", js "")])
  = Some (Throw (JsError (js "Incomplete account configuration for ALZA_ACC1: missing ALZA_ACC1_PASSWORD, ALZA_ACC1_LABEL"))).
Proof. vm_compute. reflexivity. Qed.

Example compare_response_sample :
  let scraped := fun (name : jsstring) (q : Q) =>
    Return {| product := name; price := num q;
              priceFormatted := formatCzechPrice (num q) |} in
  let r := Index.compare_response (js "https://www.alza.cz/iphone")
             [(Sim.personal, scraped (js "Unknown Product") 29990%Q);
              (Sim.business, scraped (js "iPhone 16 Pro") 28990.5%Q);
              (Sim.personal, Throw (JsError (js "Session expired")))] in
  Index.cmp_product r = js "iPhone 16 Pro"
  /\ Index.cmp_cheapest r = Some (js "Business")
  /\ Index.cmp_difference r = Some (num 999.5)
  /\ Index.cmp_differenceFormatted r = Some (js "999,5 Kč")
  /\ length (Index.cmp_accounts r) = 3%nat.
Proof. vm_compute. refine (conj _ (conj _ (conj _ (conj _ _)))); reflexivity. Qed.

(** With two fraction digits the general formatting is the one of
    formatCzechPrice. *)
Lemma fractionTextOf_hundredths (frac : Z) :
  0 <= frac < 100 -> fractionTextOf 2 frac = fractionText frac.
Proof.
  intros Hfrac.
  assert (Hall : forallb (fun k => bool_decide
                            (fractionTextOf 2 (Z.of_nat k)
                             = fractionText (Z.of_nat k))) (seq 0 100) = true).
  { vm_compute. reflexivity. }
  rewrite forallb_forall in Hall. specialize (Hall (Z.to_nat frac)).
  rewrite Z2Nat.id in Hall by lia.
  apply bool_decide_eq_true in Hall; [exact Hall|].
  apply in_seq. lia.
Qed.

Lemma toLocaleStringCsDigits_two (n : number) :
  toLocaleStringCsDigits 2 n = toLocaleStringCs n.
Proof.
  destruct n as [|neg|q]; [reflexivity|reflexivity|].
  unfold toLocaleStringCsDigits, toLocaleStringCs.
  change (10 ^ Z.of_nat 2) with 100. change (inject_Z 100) with (100 # 1).
  rewrite fractionTextOf_hundredths by (apply Z.mod_pos_bound; lia).
  reflexivity.
Qed.

(* ===================================================================== *)
(** * Properties: price text *)
(* ===================================================================== *)

Lemma parseCzechNumber_rejects (text : jsstring) :
  isNaN (parseFloat (cleanNumberText text)) = true
  \/ gtZero (parseFloat (cleanNumberText text)) = false ->
  parseCzechNumber text = None.
Proof.
  intros Hbad. unfold parseCzechNumber.
  destruct (negb (truthy text)); [reflexivity|].
  destruct (negb (truthy (cleanNumberText text))); [reflexivity|].
  destruct Hbad as [Hnan | Hpos].
  - rewrite Hnan. reflexivity.
  - rewrite Hpos. rewrite andb_false_r. reflexivity.
Qed.

Lemma parseCzechNumber_positive (text : jsstring) (v : number) :
  parseCzechNumber text = Some v ->
  v = parseFloat (cleanNumberText text) /\ isNaN v = false /\ gtZero v = true.
Proof.
  unfold parseCzechNumber.
  destruct (negb (truthy text)); [discriminate|].
  destruct (negb (truthy (cleanNumberText text))); [discriminate|].
  destruct (isNaN (parseFloat (cleanNumberText text))) eqn:Hn; simpl; [discriminate|].
  destruct (gtZero (parseFloat (cleanNumberText text))) eqn:Hp; [|discriminate].
  intros [= <-]. auto.
Qed.

(** C7.  parseCzechNumber maps "1 234,50 Kč" to 1234.5 and "29 990 Kč" to
    29990; an em dash, the empty text, and every candidate whose cleaned
    text is not numeric (parseFloat gives NaN) or whose value is not
    positive give null, and whatever it returns is a number above zero. *)
Theorem parseCzechNumber_normalises :
  parseCzechNumber (js "1 234,50 Kč") = Some (num 1234.5)
  /\ parseCzechNumber (js "29 990 Kč") = Some (num 29990)
  /\ parseCzechNumber (js "—") = None
  /\ parseCzechNumber (js "") = None
  /\ (forall text,
        isNaN (parseFloat (cleanNumberText text)) = true
        \/ gtZero (parseFloat (cleanNumberText text)) = false ->
        parseCzechNumber text = None)
  /\ (forall text v,
        parseCzechNumber text = Some v -> isNaN v = false /\ gtZero v = true).
Proof.
  refine (conj _ (conj _ (conj _ (conj _ (conj _ _))))).
  - vm_compute. reflexivity.
  - vm_compute. reflexivity.
  - apply parseCzechNumber_rejects. left. vm_compute. reflexivity.
  - reflexivity.
  - apply parseCzechNumber_rejects.
  - intros text v Hv. apply parseCzechNumber_positive in Hv. tauto.
Qed.

(** The rejection and the positivity at concrete candidates. *)
Lemma parseCzechNumber_normalises_witness :
  parseCzechNumber (js "zdarma") = None
  /\ parseCzechNumber (js "0,00 Kč") = None
  /\ parseCzechNumber (js "-15 Kč") = None
  /\ gtZero (num 1234.5) = true.
Proof.
  destruct parseCzechNumber_normalises as (H1 & _ & _ & _ & Hrej & Hpos).
  refine (conj _ (conj _ (conj _ _))).
  - apply Hrej. left. vm_compute. reflexivity.
  - apply Hrej. right. vm_compute. reflexivity.
  - apply Hrej. right. vm_compute. reflexivity.
  - apply (Hpos _ _ H1).
Defined.

(* ===================================================================== *)
(** * Properties: session store *)
(* ===================================================================== *)

Lemma includes_app (p a b : jsstring) : includes p (a ++ p ++ b) = true.
Proof.
  assert (Hs : forall q r, startsWith q (q ++ r) = true).
  { induction q as [|c q IH]; intros r; simpl; [reflexivity|].
    rewrite Z.eqb_refl. apply IH. }
  induction a as [|c a IH]; simpl.
  - specialize (Hs p b). destruct (p ++ b); simpl; rewrite Hs; reflexivity.
  - rewrite IH. apply orb_true_r.
Qed.

Lemma SessionStatus_eqb_eq (a b : SessionStatus) :
  SessionStatus_eqb a b = true <-> a = b.
Proof. destruct a, b; simpl; split; congruence. Qed.

Lemma SessionStatus_eqb_neq (a b : SessionStatus) :
  SessionStatus_eqb a b = false <-> a <> b.
Proof. destruct a, b; simpl; split; congruence. Qed.

Section StoreProperties.
Context {W : Type} `{World W} `{HtmlParser} `{JsonApi}.

Lemma getSessionStatus_reads (account : AlzaAccount) (g : Globals W) :
  snd (getSessionStatus account g) = g.
Proof.
  unfold getSessionStatus, getSession, bind, gets, query, ret. simpl.
  destruct (sessions g !! email account) as [s|]; simpl; [|reflexivity].
  destruct (SessionStatus_eqb (status s) logged_in && (expires s <=? observe DateNow (world g)));
    reflexivity.
Qed.

(** C1, amended.  For a stored session whose expiry is at or before the
    current time, getSessionStatus reports not_started when the stored
    state is logged_in, and the stored state (with its phone and error)
    when it is verification_required or failed; in both cases the store
    and the rest of the module state are left as they were. *)
Theorem getSessionStatus_expired (account : AlzaAccount) (g : Globals W)
    (s : AccountSession) :
  sessions g !! email account = Some s ->
  expires s <= observe DateNow (world g) ->
  (status s = logged_in ->
   getSessionStatus account g = (Return (statusOnly account not_started), g))
  /\ (status s <> logged_in ->
      getSessionStatus account g =
      (Return {| st_label := label account; st_status := status s;
                 st_phone := phone s; st_error := error s |}, g)).
Proof.
  intros Hs Hexp.
  unfold getSessionStatus, getSession, bind, gets, query, ret. simpl.
  rewrite Hs. simpl. split; intros Hst.
  - rewrite Hst. simpl.
    destruct (Z.leb_spec (expires s) (observe DateNow (world g))); [reflexivity|lia].
  - apply SessionStatus_eqb_neq in Hst. rewrite Hst. reflexivity.
Qed.

Lemma scrapePrice_no_session (account : AlzaAccount) (url : jsstring)
    (g : Globals W) :
  (forall s, sessions g !! email account = Some s -> status s <> logged_in) ->
  scrapePrice account url g =
  (Throw (JsError (js "No active session for " ++ label account
                     ++ js ". Call /auth/init first.")), g).
Proof.
  intros Hno.
  unfold scrapePrice, getSession, bind, gets, throw. cbn beta iota.
  destruct (sessions g !! email account) as [s|] eqn:Hs; [|reflexivity].
  specialize (Hno s eq_refl). apply SessionStatus_eqb_neq in Hno.
  rewrite Hno. reflexivity.
Qed.

Lemma scrapePrice_expired (account : AlzaAccount) (url : jsstring)
    (g : Globals W) (s : AccountSession) :
  sessions g !! email account = Some s ->
  status s = logged_in ->
  expires s <= observe DateNow (world g) ->
  scrapePrice account url g =
  (Throw (JsError (js "Session expired for " ++ label account
                     ++ js ". Call /auth/init to re-login.")),
   set_sessions (delete (email account) (sessions g)) g).
Proof.
  intros Hs Hst Hexp.
  unfold scrapePrice, getSession, bind, gets, throw, query, deleteSession, modify.
  cbn beta iota. rewrite Hs, Hst. cbn beta iota delta [SessionStatus_eqb].
  destruct (Z.leb_spec (expires s) (observe DateNow (world g))); [reflexivity|lia].
Qed.

(** C4.  scrapePrice without a session, or with one that is not
    logged_in, throws the no-active-session error naming the account
    label and leaves the whole state (store, world, call log) untouched;
    with a logged_in session whose expiry is at or before the current
    time it deletes the record and throws the session-expired error,
    again asking nothing of the browser, and the next getSessionStatus
    reports not_started. *)
Theorem scrapePrice_requires_live_session (account : AlzaAccount)
    (url : jsstring) (g : Globals W) :
  ((forall s, sessions g !! email account = Some s -> status s <> logged_in) ->
   let message := js "No active session for " ++ label account
                     ++ js ". Call /auth/init first." in
   scrapePrice account url g = (Throw (JsError message), g)
   /\ includes (label account) message = true)
  /\ (forall s,
        sessions g !! email account = Some s ->
        status s = logged_in ->
        expires s <= observe DateNow (world g) ->
        let message := js "Session expired for " ++ label account
                          ++ js ". Call /auth/init to re-login." in
        let g' := snd (scrapePrice account url g) in
        fst (scrapePrice account url g) = Throw (JsError message)
        /\ includes (label account) message = true
        /\ sessions g' = delete (email account) (sessions g)
        /\ calls g' = calls g /\ world g' = world g
        /\ fst (getSessionStatus account g')
           = Return (statusOnly account not_started)).
Proof.
  split.
  - intros Hno message. split; [|apply includes_app].
    apply scrapePrice_no_session, Hno.
  - intros s Hs Hst Hexp message g'. subst g'.
    rewrite (scrapePrice_expired account url g s Hs Hst Hexp).
    cbn [fst snd].
    refine (conj eq_refl (conj _ (conj eq_refl (conj eq_refl (conj eq_refl _))))).
    + apply includes_app.
    + unfold getSessionStatus, getSession, bind, gets, ret. cbn beta iota.
      cbn [sessions set_sessions]. rewrite lookup_delete_eq. reflexivity.
Qed.
End StoreProperties.

(* ===================================================================== *)
(** * Reasoning about computations *)
(* ===================================================================== *)

Section Hoare.
Context {W : Type} `{World W}.

Section Keeps.
Context {T : Type} (f : Globals W -> T).

Lemma keeps_ret {A} (a : A) : keeps f (ret a).
Proof. intros g. reflexivity. Qed.

Lemma keeps_throw {A} (e : thrown) : keeps f (@throw W A e).
Proof. intros g. reflexivity. Qed.

Lemma keeps_gets {A} (h : Globals W -> A) : keeps f (gets h).
Proof. intros g. reflexivity. Qed.

Lemma keeps_query {X} (q : Query X) : keeps f (query q).
Proof. intros g. reflexivity. Qed.

Lemma keeps_timer (lo hi : Z) : worldBlind f -> keeps f (timer lo hi).
Proof. intros Hw g. apply Hw. Qed.

Lemma keeps_act {X} (a : Action X) :
  worldBlind f -> logBlind f a -> keeps f (act a).
Proof.
  intros Hw Hl g. unfold act. destruct (perform a (world g)) as [r w].
  cbn [snd]. rewrite Hl. apply Hw.
Qed.

Lemma keeps_modify (h : Globals W -> Globals W) :
  (forall g, f (h g) = f g) -> keeps f (modify h).
Proof. intros Hf g. apply Hf. Qed.

Lemma keeps_bind {A B} (m : M W A) (k : A -> M W B) :
  keeps f m -> (forall a, keeps f (k a)) -> keeps f (bind m k).
Proof.
  intros Hm Hk g. unfold bind. specialize (Hm g).
  destruct (m g) as [[a|e] g1]; cbn [snd] in *; [|exact Hm].
  rewrite Hk. exact Hm.
Qed.

(** The continuation of a query need only be considered at the answers
    the world can give. *)
Lemma keeps_bind_query {X B} (q : Query X) (k : X -> M W B) :
  (forall w, keeps f (k (observe q w))) -> keeps f (bind (query q) k).
Proof. intros Hk g. unfold bind, query. apply Hk. Qed.

Lemma keeps_tryCatch {A} (m : M W A) (h : thrown -> M W A) :
  keeps f m -> (forall e, keeps f (h e)) -> keeps f (tryCatch m h).
Proof.
  intros Hm Hh g. unfold tryCatch. specialize (Hm g).
  destruct (m g) as [[a|e] g1]; cbn [snd] in *; [exact Hm|].
  rewrite Hh. exact Hm.
Qed.

Lemma keeps_tryFinally {A} (m : M W A) (fin : M W unit) :
  keeps f m -> keeps f fin -> keeps f (tryFinally m fin).
Proof.
  intros Hm Hf g. unfold tryFinally. specialize (Hm g).
  destruct (m g) as [r g1]. specialize (Hf g1).
  destruct (fin g1) as [[u|e] g2]; cbn [snd] in *; congruence.
Qed.

Lemma keeps_ignoreErrors (m : M W unit) :
  keeps f m -> keeps f (ignoreErrors m).
Proof. intros Hm. apply keeps_tryCatch; [exact Hm|]. intros e. apply keeps_ret. Qed.
End Keeps.

(** *** Triples whose precondition fixes the store *)

Lemma hoare_bind {A B} P (m : M W A) (k : A -> M W B) (R : A -> Globals W -> Prop) Q :
  hoare P m (fun r g => match r with
                        | Return a => R a g
                        | Throw e => Q (Throw e) g
                        end) ->
  (forall a, hoare (R a) (k a) Q) ->
  hoare P (bind m k) Q.
Proof.
  intros Hm Hk g HP. unfold bind. specialize (Hm g HP).
  destruct (m g) as [[a|e] g1]; cbn [fst snd] in *; [|exact Hm].
  apply Hk, Hm.
Qed.

Lemma hoare_tryCatch {A} P (m : M W A) (h : thrown -> M W A)
    (R : thrown -> Globals W -> Prop) Q :
  hoare P m (fun r g => match r with
                        | Return a => Q (Return a) g
                        | Throw e => R e g
                        end) ->
  (forall e, hoare (R e) (h e) Q) ->
  hoare P (tryCatch m h) Q.
Proof.
  intros Hm Hh g HP. unfold tryCatch. specialize (Hm g HP).
  destruct (m g) as [[a|e] g1]; cbn [fst snd] in *; [exact Hm|].
  apply Hh, Hm.
Qed.

Lemma hoare_conseq {A} (P P' : Globals W -> Prop) (m : M W A)
    (Q Q' : completion A -> Globals W -> Prop) :
  hoare P' m Q' ->
  (forall g, P g -> P' g) ->
  (forall r g, Q' r g -> Q r g) ->
  hoare P m Q.
Proof. intros Hm HP HQ g Hg. apply HQ, Hm, HP, Hg. Qed.

(** A step that keeps the store, followed by a continuation: what is
    thrown by the step must satisfy the postcondition in any state with
    the same store. *)
Lemma hoare_step {A B} S (m : M W A) (k : A -> M W B) Q :
  keepsSessions m ->
  (forall e g, storeIs S g -> Q (Throw e) g) ->
  (forall a, hoare (storeIs S) (k a) Q) ->
  hoare (storeIs S) (bind m k) Q.
Proof.
  intros Hm Hthrow Hk.
  apply hoare_bind with (R := fun _ => storeIs S); [|exact Hk].
  intros g Hg. specialize (Hm g). unfold storeIs in *.
  destruct (m g) as [[a|e] g1]; cbn [fst snd] in *.
  - congruence.
  - apply Hthrow. unfold storeIs. congruence.
Qed.

Lemma hoare_ret {A} P (a : A) (Q : completion A -> Globals W -> Prop) :
  (forall g, P g -> Q (Return a) g) -> hoare P (ret a) Q.
Proof. intros HQ g Hg. apply HQ, Hg. Qed.

Lemma hoare_keeps {A} S (m : M W A) :
  keepsSessions m -> hoare (storeIs S) m (fun _ g => storeIs S g).
Proof. intros Hm g Hg. unfold storeIs in *. rewrite Hm. exact Hg. Qed.
End Hoare.

Ltac keeps :=
  unfold keepsSessions;
  repeat first
    [ assumption
    | apply keeps_ret | apply keeps_throw | apply keeps_gets
    | apply keeps_query
    | apply keeps_timer; intros ? ?; reflexivity
    | apply keeps_act; [intros ? ?; reflexivity | intros ? ?; reflexivity]
    | apply keeps_ignoreErrors
    | apply keeps_modify; intros; reflexivity
    | apply keeps_bind; [|intros]
    | apply keeps_tryCatch; [|intros]
    | apply keeps_tryFinally
    | match goal with
      | |- keeps _ (match ?x with _ => _ end) => destruct x
      | |- keeps _ (if ?x then _ else _) => destruct x
      end ].

Section KeepsSessions.
Context {W : Type} `{World W} `{HtmlParser} `{JsonApi}.
Context {T : Type} (f : Globals W -> T).

Lemma keeps_connectedBrowser : keeps f connectedBrowser.
Proof. unfold connectedBrowser. keeps. Qed.

Lemma keeps_initBrowser config : supervisorBlind f -> keeps f (initBrowser config).
Proof.
  intros (Hw & Hkill & Hspawn & Hpoll & Hconn & _ & Hb & Hproc & _ & _).
  unfold initBrowser, initBrowser_prelude, initBrowser_launch,
    initBrowser_challenge, initBrowser_connect, sleep.
  pose proof keeps_connectedBrowser.
  repeat first
    [ assumption
    | apply keeps_ret | apply keeps_query
    | apply keeps_timer; exact Hw
    | apply keeps_act; [exact Hw|solve [auto]]
    | apply keeps_ignoreErrors
    | apply keeps_modify; solve [auto]
    | apply keeps_bind; [|intros]
    | match goal with
      | |- keeps _ (match ?x with _ => _ end) => destruct x
      end ].
Qed.

Lemma keeps_ensureBrowser config :
  supervisorBlind f -> keeps f (ensureBrowser config).
Proof.
  intros Hblind. pose proof (keeps_initBrowser config Hblind) as Hinit.
  destruct Hblind as (Hw & _ & _ & _ & _ & Hawait & _ & _ & Hpromise & Hmade).
  unfold ensureBrowser.
  pose proof keeps_connectedBrowser.
  repeat first
    [ assumption
    | apply keeps_ret | apply keeps_gets
    | apply keeps_act; [exact Hw|solve [auto]]
    | apply keeps_modify; solve [auto]
    | apply keeps_bind; [|intros]
    | apply keeps_tryFinally
    | match goal with
      | |- keeps _ (match ?x with _ => _ end) => destruct x
      end ].
Qed.

Lemma keeps_findLoginPage pages : keeps f (findLoginPage pages).
Proof. induction pages as [|p rest IH]; simpl; keeps. Qed.
End KeepsSessions.

Section KeepsInstances.
Context {W : Type} `{World W} `{HtmlParser} `{JsonApi}.

Lemma sessions_supervisorBlind : supervisorBlind (W:=W) sessions.
Proof. repeat split. Qed.

Lemma contextCalls_supervisorBlind : supervisorBlind (W:=W) contextCalls.
Proof. repeat split. Qed.

Lemma keepsSessions_ensureBrowser config : keepsSessions (ensureBrowser config).
Proof. apply keeps_ensureBrowser, sessions_supervisorBlind. Qed.

Lemma keepsSessions_findLoginPage pages : keepsSessions (findLoginPage pages).
Proof. apply keeps_findLoginPage. Qed.
End KeepsInstances.


(* ===================================================================== *)
(** * Properties: verification *)
(* ===================================================================== *)

Section Verification.
Context {W : Type} `{World W} `{HtmlParser} `{JsonApi}.


End Verification.

(* ===================================================================== *)
(** * Properties: login *)
(* ===================================================================== *)

Section Login.
Context {W : Type} `{World W} `{HtmlParser} `{JsonApi}.

Ltac keeps_known :=
  unfold waitForCloudflare, humanDelay;
  first [ apply keepsSessions_ensureBrowser | apply keepsSessions_findLoginPage | keeps ].

Ltac step_by tac :=
  apply hoare_step; [ solve [tac] | intros ? ? Hg; exact Hg | ].

Ltac step_keeping := step_by keeps_known; intros ?.
Ltac step_as x := step_by keeps_known; intros x.

Lemma recordLoggedIn_spec account S ctx page :
  hoare (storeIs S) (recordLoggedIn account ctx page) (loginOutcome account S).
Proof.
  unfold recordLoggedIn. step_keeping.
  intros g Hg. unfold storeIs in Hg. subst S.
  unfold bind, query, setSession, modify, ret. cbn.
  split; [reflexivity|]. exists ctx. reflexivity.
Qed.

Lemma recordVerification_spec account S ctx page :
  hoare (storeIs S) (recordVerification account ctx page) (loginOutcome account S).
Proof.
  unfold recordVerification. step_keeping.
  intros g Hg. unfold storeIs in Hg. subst S.
  unfold bind, query, setSession, modify, ret. cbn.
  split; [reflexivity|]. exists ctx, page. reflexivity.
Qed.

Lemma initLogin_body_spec account config S :
  hoare (storeIs S) (initLogin_body account config) (loginOutcome account S).
Proof.
  unfold initLogin_body.
  step_as b. step_as contexts. step_as n.
  step_by ltac:(destruct (head contexts); keeps;
                destruct (Nat.eqb n 0); keeps;
                apply keeps_findLoginPage).
  intros found.
  step_by ltac:(destruct found; unfold waitForCloudflare; keeps;
                destruct (head contexts); keeps).
  intros [context page].
  do 13 step_keeping.
  step_as afterLoginUrl.
  destruct (includes (js "/Account/Verify") afterLoginUrl
            || includes (js "/account/verify") (toLowerCase afterLoginUrl)).
  { apply recordVerification_spec. }
  destruct (includes (js "alza.cz") afterLoginUrl
            && negb (includes (js "identity.alza.cz") afterLoginUrl)).
  { apply recordLoggedIn_spec. }
  apply hoare_bind with
    (R := fun late g => match late with
                        | Some st => loginOutcome account S (Return st) g
                        | None => storeIs S g
                        end).
  - apply hoare_tryCatch with (R := fun _ => storeIs S).
    + step_keeping.
      apply hoare_bind with (R := fun st g => loginOutcome account S (Return st) g).
      * eapply hoare_conseq; [apply recordLoggedIn_spec | intros ? Hg; exact Hg |].
        intros [st|e] g Hg; exact Hg.
      * intros st g Hg. exact Hg.
    + intros e. step_as url.
      destruct (includes (js "/Account/Verify") url).
      * apply hoare_bind with (R := fun st g => loginOutcome account S (Return st) g).
        -- eapply hoare_conseq; [apply recordVerification_spec | intros ? Hg; exact Hg |].
           intros [st|e'] g Hg; exact Hg.
        -- intros st g Hg. exact Hg.
      * intros g Hg. exact Hg.
  - intros [st|].
    + intros g Hg. exact Hg.
    + do 3 step_keeping.
      intros g Hg. unfold ret, failedWith, loginOutcome.
      cbn [fst snd st_label st_status st_error].
      exact (conj eq_refl (conj (ex_intro _ _ eq_refl) Hg)).
Qed.

Lemma bind_return {A B} (m : M W A) (k : A -> M W B) g a g1 :
  m g = (Return a, g1) -> bind m k g = k a g1.
Proof. intros Hm. unfold bind. rewrite Hm. reflexivity. Qed.

Lemma ignoreErrors_act (a : Action unit) (g : Globals W) :
  exists g1, ignoreErrors (act a) g = (Return tt, g1)
             /\ sessions g1 = sessions g.
Proof.
  unfold ignoreErrors, tryCatch, act, ret.
  destruct (perform a (world g)) as [[[]|e] w]; eexists; split; reflexivity.
Qed.

Lemma initLogin_cleanup_spec (account : AlzaAccount) (g : Globals W) :
  exists g1,
    initLogin_cleanup account (sessions g !! email account) g = (Return tt, g1)
    /\ sessions g1 = delete (email account) (sessions g).
Proof.
  unfold initLogin_cleanup.
  destruct (sessions g !! email account) as [c|] eqn:Hc.
  - assert (Hfirst : exists g1,
               (match verifyPage c with
                | Some p => ignoreErrors (act (PageClose p))
                | None => ret tt
                end) g = (Return tt, g1) /\ sessions g1 = sessions g).
    { destruct (verifyPage c) as [p|].
      - apply ignoreErrors_act.
      - eexists. split; reflexivity. }
    destruct Hfirst as (g1 & Hrun1 & Hs1).
    rewrite (bind_return _ _ _ _ _ Hrun1).
    destruct (ignoreErrors_act (ContextClose (context c)) g1) as (g2 & Hrun2 & Hs2).
    rewrite (bind_return _ _ _ _ _ Hrun2).
    eexists. split; [reflexivity|].
    cbn [sessions set_sessions]. rewrite Hs2, Hs1. reflexivity.
  - eexists. split; [reflexivity|]. symmetry. apply delete_id. exact Hc.
Qed.

(** initLogin as a whole: the cached short cut, or the clean-up followed
    by the outcome of the [try] block with thrown values turned into a
    failed status. *)
Lemma initLogin_spec (account : AlzaAccount) (config : AppConfig)
    (g : Globals W) :
  if stillValid (sessions g !! email account) (observe DateNow (world g))
  then initLogin account config g = (Return (statusOnly account logged_in), g)
  else exists st,
      fst (initLogin account config g) = Return st
      /\ loginOutcome account (delete (email account) (sessions g))
           (Return st) (snd (initLogin account config g)).
Proof.
  assert (Hshape : initLogin account config g =
            if stillValid (sessions g !! email account) (observe DateNow (world g))
            then (Return (statusOnly account logged_in), g)
            else (initLogin_cleanup account (sessions g !! email account) ;;;
                  tryCatch (initLogin_body account config)
                    (fun e => ret (failedWith account
                                     (errorMessage e (js "Unknown error"))))) g).
  { unfold initLogin, getSession, bind at 1, gets. cbn beta iota.
    unfold bind at 1, query. cbn beta iota.
    destruct (stillValid _ _); reflexivity. }
  rewrite Hshape. clear Hshape.
  destruct (stillValid (sessions g !! email account) (observe DateNow (world g)));
    [reflexivity|].
  destruct (initLogin_cleanup_spec account g) as (g1 & Hrun & Hstore).
  rewrite (bind_return _ _ _ _ _ Hrun).
  pose proof (initLogin_body_spec account config
                (delete (email account) (sessions g)) g1 Hstore) as Hbody.
  unfold tryCatch.
  destruct (initLogin_body account config g1) as [[st|e] g2]; cbn [fst snd] in *.
  - exists st. split; [reflexivity|exact Hbody].
  - eexists. split; [reflexivity|]. unfold ret, failedWith, loginOutcome.
    cbn [fst snd st_label st_status st_error].
    exact (conj eq_refl (conj (ex_intro _ _ eq_refl) Hbody)).
Qed.

Lemma submitVerificationCode_try_spec account code page S :
  hoare (storeIs S) (submitVerificationCode_try account code page)
    (fun r g' => match r with
                 | Throw _ => storeIs S g'
                 | Return st =>
                     st = statusOnly account logged_in /\
                     sessions g' =
                     alter (fun s => {| context := context s; status := logged_in;
                                        phone := phone s; error := error s;
                                        verifyPage := None;
                                        expires := observe DateNow (world g')
                                                   + SESSION_TTL |})
                           (email account) S
                 end).
Proof.
  unfold submitVerificationCode_try.
  step_as currentUrl.
  step_by ltac:(destruct (negb (includes (js "/account/verify")
                                  (toLowerCase currentUrl)));
                unfold waitForCloudflare; keeps).
  intros _.
  do 4 step_keeping.
  intros g Hg. unfold storeIs in Hg. subst S.
  unfold bind, query, updateSession, modify, ret. cbn [fst snd].
  split; reflexivity.
Qed.

Lemma submitVerificationCode_spec (account : AlzaAccount) (code : jsstring)
    (g : Globals W) :
  match pendingVerification (sessions g !! email account) with
  | None =>
      submitVerificationCode account code g =
      (Return (failedWith account (js "No pending verification for this account")), g)
  | Some (s, page) =>
      verifyOutcome account (sessions g) s
        (fst (submitVerificationCode account code g))
        (snd (submitVerificationCode account code g))
  end.
Proof.
  assert (Hshape : submitVerificationCode account code g =
            match pendingVerification (sessions g !! email account) with
            | None =>
                (Return (failedWith account
                           (js "No pending verification for this account")), g)
            | Some (s, page) =>
                tryCatch (submitVerificationCode_try account code page)
                         (submitVerificationCode_catch account s page) g
            end).
  { unfold submitVerificationCode, getSession, bind, gets. cbn beta iota.
    destruct (pendingVerification (sessions g !! email account)) as [[s page]|];
      reflexivity. }
  rewrite Hshape. clear Hshape.
  destruct (pendingVerification (sessions g !! email account)) as [[s page]|];
    [|reflexivity].
  pose proof (submitVerificationCode_try_spec account code page (sessions g) g eq_refl)
    as Htry.
  unfold tryCatch.
  destruct (submitVerificationCode_try account code page g) as [[st|e] g1];
    cbn [fst snd] in *.
  - destruct Htry as [-> Hstore]. unfold verifyOutcome, statusOnly.
    cbn [st_label st_status]. split; [reflexivity|exact Hstore].
  - unfold storeIs in Htry.
    assert (Hcatch : submitVerificationCode_catch account s page e g1 =
              if includes (js "/Account/Verify") (observe (PageUrl page) (world g1))
              then (Return {| st_label := label account;
                              st_status := verification_required;
                              st_phone := phone s;
                              st_error := Some (js "Invalid code, try again") |},
                    g1)
              else (ignoreErrors (act (PageClose page)) ;;;
                    updateSession (email account)
                      (fun s => {| context := context s; status := failed;
                                   phone := phone s;
                                   error := Some (errorMessage e (js "Verification failed"));
                                   verifyPage := None;
                                   expires := expires s |}) ;;;
                    ret (failedWith account
                           (errorMessage e (js "Verification failed")))) g1).
    { unfold submitVerificationCode_catch, bind at 1, query. cbn beta iota.
      destruct (includes _ _); reflexivity. }
    rewrite Hcatch. clear Hcatch.
    destruct (includes (js "/Account/Verify") (observe (PageUrl page) (world g1))).
    + unfold verifyOutcome. cbn [fst snd st_label st_status st_phone st_error].
      auto.
    + destruct (ignoreErrors_act (PageClose page) g1) as (g2 & Hrun & Hb).
      rewrite (bind_return _ _ _ _ _ Hrun).
      unfold bind, updateSession, modify, ret, failedWith, verifyOutcome.
      cbn [fst snd st_label st_status st_error sessions set_sessions].
      split; [reflexivity|]. eexists. split; [reflexivity|].
      rewrite Hb, Htry. reflexivity.
Qed.

Lemma pendingVerification_Some (o : option AccountSession) s page :
  pendingVerification o = Some (s, page) ->
  o = Some s /\ status s = verification_required /\ verifyPage s = Some page.
Proof.
  unfold pendingVerification. destruct o as [s0|]; [|discriminate].
  destruct (SessionStatus_eqb (status s0) verification_required) eqn:Hst;
    [|discriminate].
  destruct (verifyPage s0) as [p|] eqn:Hp; [|discriminate].
  intros [= <- <-]. apply SessionStatus_eqb_eq in Hst. auto.
Qed.

(** C2, amended.  initLogin and submitVerificationCode never throw: every
    failure comes back as a status.  A failed status carries an error
    message.  initLogin keeps no record of a failure: after it returns
    failed, the store has no session for the account and
    getSessionStatus reports not_started.  submitVerificationCode writes
    the error into the session record when it marks a pending session
    failed; when there was no pending verification it records nothing. *)
Theorem login_failures_are_statuses (account : AlzaAccount)
    (config : AppConfig) (code : jsstring) (g : Globals W) :
  (exists st,
      fst (initLogin account config g) = Return st
      /\ (st_status st = failed ->
          is_Some (st_error st)
          /\ sessions (snd (initLogin account config g)) !! email account = None
          /\ fst (getSessionStatus account (snd (initLogin account config g)))
             = Return (statusOnly account not_started)))
  /\ (exists st,
        fst (submitVerificationCode account code g) = Return st
        /\ (st_status st = failed ->
            exists message,
              st_error st = Some message
              /\ ((pendingVerification (sessions g !! email account) = None
                   /\ snd (submitVerificationCode account code g) = g)
                  \/ (exists s,
                        sessions (snd (submitVerificationCode account code g))
                          !! email account = Some s
                        /\ status s = failed
                        /\ error s = Some message
                        /\ verifyPage s = None)))).
Proof.
  split.
  - pose proof (initLogin_spec account config g) as Hspec.
    destruct (stillValid (sessions g !! email account) (observe DateNow (world g))).
    + rewrite Hspec. eexists. split; [reflexivity|]. discriminate.
    + destruct Hspec as (st & Hret & Hout). exists st. split; [exact Hret|].
      intros Hfailed. unfold loginOutcome in Hout. rewrite Hfailed in Hout.
      destruct Hout as (_ & Herr & Hstore).
      assert (Hnone : sessions (snd (initLogin account config g)) !! email account
                      = None).
      { rewrite Hstore. apply lookup_delete_eq. }
      refine (conj Herr (conj Hnone _)).
      unfold getSessionStatus, getSession, bind, gets, ret. cbn beta iota.
      rewrite Hnone. reflexivity.
  - pose proof (submitVerificationCode_spec account code g) as Hspec.
    destruct (pendingVerification (sessions g !! email account)) as [[s page]|] eqn:Hp.
    + apply pendingVerification_Some in Hp. destruct Hp as (Hs & _ & _).
      unfold verifyOutcome in Hspec.
      destruct (fst (submitVerificationCode account code g)) as [st|e]; [|contradiction].
      exists st. split; [reflexivity|]. intros Hfailed.
      rewrite Hfailed in Hspec. destruct Hspec as (_ & message & Herr & Hstore).
      exists message. split; [exact Herr|]. right.
      eexists. rewrite Hstore, lookup_alter_eq, Hs.
      split; [reflexivity|]. cbn. auto.
    + rewrite Hspec. eexists. split; [reflexivity|]. intros _.
      eexists. split; [reflexivity|]. left. auto.
Qed.

Lemma SESSION_TTL_value : SESSION_TTL = 600000.
Proof. reflexivity. Qed.

(** C5.  Whenever initLogin (not answering from a still valid cached
    session) or submitVerificationCode returns logged_in, the session
    record of the account is in the logged_in state and its expiry is
    exactly the time of the write plus 600000 ms; no effect follows the
    write, so that time is the clock of the state the operation ends
    in. *)
Theorem logged_in_expiry_is_ten_minutes (account : AlzaAccount)
    (config : AppConfig) (code : jsstring) (g : Globals W) :
  (stillValid (sessions g !! email account) (observe DateNow (world g)) = false ->
   forall st,
     fst (initLogin account config g) = Return st ->
     st_status st = logged_in ->
     exists s,
       sessions (snd (initLogin account config g)) !! email account = Some s
       /\ status s = logged_in
       /\ expires s
          = observe DateNow (world (snd (initLogin account config g))) + 600000)
  /\ (forall st,
        fst (submitVerificationCode account code g) = Return st ->
        st_status st = logged_in ->
        exists s,
          sessions (snd (submitVerificationCode account code g)) !! email account
            = Some s
          /\ status s = logged_in
          /\ expires s
             = observe DateNow (world (snd (submitVerificationCode account code g)))
               + 600000).
Proof.
  split.
  - intros Hfresh st Hret Hin.
    pose proof (initLogin_spec account config g) as Hspec.
    rewrite Hfresh in Hspec. destruct Hspec as (st' & Hret' & Hout).
    rewrite Hret in Hret'. injection Hret' as <-.
    unfold loginOutcome in Hout. rewrite Hin in Hout.
    destruct Hout as (_ & ctx & Hstore).
    eexists. rewrite Hstore, lookup_insert_eq. split; [reflexivity|].
    cbn [status expires]. rewrite SESSION_TTL_value. auto.
  - intros st Hret Hin.
    pose proof (submitVerificationCode_spec account code g) as Hspec.
    destruct (pendingVerification (sessions g !! email account)) as [[s page]|] eqn:Hp.
    + apply pendingVerification_Some in Hp. destruct Hp as (Hs & _ & _).
      rewrite Hret in Hspec. unfold verifyOutcome in Hspec.
      rewrite Hin in Hspec. destruct Hspec as (_ & Hstore).
      eexists. rewrite Hstore, lookup_alter_eq, Hs.
      split; [reflexivity|]. cbn [status expires].
      rewrite SESSION_TTL_value. auto.
    + rewrite Hspec in Hret. cbn [fst] in Hret. injection Hret as <-.
      discriminate Hin.
Qed.
End Login.


(* ===================================================================== *)
(** * The session properties at concrete inputs *)
(* ===================================================================== *)

(** C1 as stated fails: a verification_required session whose expiry (900)
    is before the current time (1000) is reported as verification_required,
    not as not_started. *)
Lemma getSessionStatus_expired_counterexample :
  let s := Sim.session verification_required (Some (PageHandle 0)) 900 in
  let g := Sim.holding (email Sim.personal) s (Sim.site true true false) in
  sessions g !! email Sim.personal = Some s
  /\ expires s <= observe DateNow (world g)
  /\ fst (getSessionStatus Sim.personal g)
     = Return {| st_label := label Sim.personal;
                 st_status := verification_required;
                 st_phone := None; st_error := None |}
  /\ st_status {| st_label := label Sim.personal;
                  st_status := verification_required;
                  st_phone := None; st_error := None |} <> not_started.
Proof.
  cbv zeta. refine (conj _ (conj _ (conj _ _))).
  - vm_compute. reflexivity.
  - vm_compute. discriminate.
  - vm_compute. reflexivity.
  - discriminate.
Qed.

Lemma getSessionStatus_expired_witness :
  let s := Sim.session logged_in None 900 in
  let g := Sim.holding (email Sim.personal) s (Sim.site true true false) in
  getSessionStatus Sim.personal g = (Return (statusOnly Sim.personal not_started), g).
Proof.
  cbv zeta.
  refine (proj1 (getSessionStatus_expired Sim.personal
                   (Sim.holding (email Sim.personal) (Sim.session logged_in None 900)
                      (Sim.site true true false))
                   (Sim.session logged_in None 900) _ _) _).
  - vm_compute. reflexivity.
  - vm_compute. discriminate.
  - reflexivity.
Defined.

(** C2 as stated fails: the challenge never clears, initLogin returns a
    failed status with the error message, and the following
    getSessionStatus reports not_started without any error. *)
Lemma initLogin_failure_counterexample :
  let g := Sim.start (Sim.site false true false) in
  fst (initLogin Sim.personal Sim.config g)
  = Return (failedWith Sim.personal (js "Cloudflare did not resolve within 120s"))
  /\ sessions (snd (initLogin Sim.personal Sim.config g)) !! email Sim.personal = None
  /\ fst (getSessionStatus Sim.personal (snd (initLogin Sim.personal Sim.config g)))
     = Return (statusOnly Sim.personal not_started).
Proof.
  cbv zeta. refine (conj _ (conj _ _)); vm_compute; reflexivity.
Qed.

Lemma login_failures_are_statuses_witness :
  let g := Sim.start (Sim.site false true false) in
  sessions (snd (initLogin Sim.personal Sim.config g)) !! email Sim.personal = None.
Proof.
  cbv zeta.
  destruct (login_failures_are_statuses Sim.personal Sim.config (js "123456")
              (Sim.start (Sim.site false true false))) as [(st & Hret & Hfailed) _].
  apply Hfailed.
  assert (Hrun : fst (initLogin Sim.personal Sim.config
                        (Sim.start (Sim.site false true false)))
                 = Return (failedWith Sim.personal
                             (js "Cloudflare did not resolve within 120s"))).
  { vm_compute. reflexivity. }
  rewrite Hrun in Hret. injection Hret as <-. reflexivity.
Defined.

(** On a browser that has a default context (as one attached over the
    remote-control protocol has), initLogin never creates a browsing
    context, whichever account it runs for and whatever sessions exist. *)
Section DefaultContext.
Context {W : Type} `{World W} `{HtmlParser} `{JsonApi}.
Hypothesis default_context : forall b w, observe (Contexts b) w <> [].

Lemma initLogin_body_creates_no_context account config :
  keeps contextCalls (initLogin_body account config).
Proof.
  unfold initLogin_body.
  apply keeps_bind; [apply keeps_ensureBrowser, contextCalls_supervisorBlind|].
  intros b. apply keeps_bind_query. intros w.
  destruct (observe (Contexts b) w) as [|d rest] eqn:Hctx;
    [exfalso; exact (default_context b w Hctx)|].
  cbn [head].
  apply keeps_bind; [apply keeps_gets|]. intros n.
  apply keeps_bind.
  { destruct (Nat.eqb n 0); [|apply keeps_ret].
    apply keeps_bind; [apply keeps_query|]. intros pages.
    apply keeps_bind; [apply keeps_findLoginPage|]. intros p. apply keeps_ret. }
  intros found.
  unfold recordVerification, recordLoggedIn, waitForCloudflare, humanDelay,
    setSession.
  keeps.
Qed.

Lemma initLogin_creates_no_context account config (g : Globals W) :
  contextCalls (snd (initLogin account config g)) = contextCalls g.
Proof.
  revert g. change (keeps contextCalls (initLogin account config)).
  unfold initLogin, getSession, deleteSession.
  pose proof (initLogin_body_creates_no_context account config).
  keeps.
Qed.
End DefaultContext.

(** C3 at the failing input.  The first account logs in through the page
    the browser was launched with; the second account then runs initLogin
    while that session exists.  No browsing context is created: the record
    of the second account holds the default context, the one the first
    account's record holds.  This is so on every browser that has a
    default context: there initLogin performs no newContext at all. *)
Theorem initLogin_second_account_shares_default_context :
  (forall (W : Type) (H : World W) (P : HtmlParser) (J : JsonApi),
      (forall b w, observe (Contexts b) w <> []) ->
      forall account config (g : Globals W),
        contextCalls (snd (initLogin account config g)) = contextCalls g)
  /\ (let g0 := Sim.start (Sim.site true true false) in
      let g1 := snd (initLogin Sim.personal Sim.config g0) in
      let g2 := snd (initLogin Sim.business Sim.config g1) in
      fst (initLogin Sim.personal Sim.config g0)
      = Return (statusOnly Sim.personal logged_in)
      /\ fst (initLogin Sim.business Sim.config g1)
         = Return (statusOnly Sim.business logged_in)
      /\ size (sessions g1) = 1%nat
      /\ head (observe (Contexts (BrowserHandle 0)) (world g1)) = Some (ContextHandle 0)
      /\ context <$> (sessions g2 !! email Sim.personal) = Some (ContextHandle 0)
      /\ context <$> (sessions g2 !! email Sim.business) = Some (ContextHandle 0)
      /\ contextCalls g2 = []).
Proof.
  split.
  - intros W H P J Hdefault account config g.
    apply initLogin_creates_no_context. exact Hdefault.
  - cbv zeta.
    refine (conj _ (conj _ (conj _ (conj _ (conj _ (conj _ _))))));
      vm_compute; reflexivity.
Qed.

(** One caller on the event loop, run to the end, is ensureBrowser run in
    one go: the same result and the same module state. *)
Example ensureBrowser_on_the_loop :
  let g := Sim.start (Sim.site true true false) in
  exists s,
    EventLoop.run [EventLoop.Call Sim.config; EventLoop.Advance 0;
                   EventLoop.Advance 0; EventLoop.Advance 0; EventLoop.Resume 0]
                  (EventLoop.idle g) = Some s
    /\ EventLoop.callers s = [EventLoop.Finished (fst (ensureBrowser Sim.config g))]
    /\ EventLoop.globals s = snd (ensureBrowser Sim.config g).
Proof.
  cbv zeta. eexists.
  refine (conj _ (conj _ _)); vm_compute; reflexivity.
Qed.

Lemma scrapePrice_requires_live_session_witness :
  fst (scrapePrice Sim.personal (js "https://www.alza.cz/iphone-16-pro-d12345.htm")
         (Sim.start (Sim.site true true false)))
  = Throw (JsError (js "No active session for Personal. Call /auth/init first."))
  /\ (let g := Sim.holding (email Sim.personal) (Sim.session logged_in None 900)
                 (Sim.site true true false) in
      fst (scrapePrice Sim.personal (js "https://www.alza.cz/iphone-16-pro-d12345.htm") g)
      = Throw (JsError (js "Session expired for Personal. Call /auth/init to re-login."))
      /\ sessions (snd (scrapePrice Sim.personal
                          (js "https://www.alza.cz/iphone-16-pro-d12345.htm") g))
           !! email Sim.personal = None).
Proof.
  cbv zeta. split.
  - destruct (scrapePrice_requires_live_session Sim.personal
                (js "https://www.alza.cz/iphone-16-pro-d12345.htm")
                (Sim.start (Sim.site true true false))) as [Hno _].
    assert (Hempty : forall s,
               sessions (Sim.start (Sim.site true true false)) !! email Sim.personal
               = Some s -> status s <> logged_in).
    { intros s Hs. vm_compute in Hs. discriminate Hs. }
    destruct (Hno Hempty) as [Hrun _]. rewrite Hrun.
    vm_compute. reflexivity.
  - destruct (scrapePrice_requires_live_session Sim.personal
                (js "https://www.alza.cz/iphone-16-pro-d12345.htm")
                (Sim.holding (email Sim.personal) (Sim.session logged_in None 900)
                   (Sim.site true true false))) as [_ Hexp].
    destruct (Hexp (Sim.session logged_in None 900)) as (Hrun & _ & Hstore & _).
    + vm_compute. reflexivity.
    + reflexivity.
    + vm_compute. discriminate.
    + rewrite Hrun, Hstore. split; [vm_compute; reflexivity | apply lookup_delete_eq].
Defined.

Lemma logged_in_expiry_is_ten_minutes_witness :
  (let g := Sim.start (Sim.site true true false) in
   exists s,
     sessions (snd (initLogin Sim.personal Sim.config g)) !! email Sim.personal = Some s
     /\ status s = logged_in
     /\ expires s = observe DateNow (world (snd (initLogin Sim.personal Sim.config g)))
                    + 600000)
  /\ (let g := Sim.holding (email Sim.personal)
                 (Sim.session verification_required (Some (PageHandle 0)) 500000)
                 (Sim.with_urls [VERIFY_URL] (Sim.site true true true)) in
      exists s,
        sessions (snd (submitVerificationCode Sim.personal (js "123456") g))
          !! email Sim.personal = Some s
        /\ status s = logged_in
        /\ expires s
           = observe DateNow
               (world (snd (submitVerificationCode Sim.personal (js "123456") g)))
             + 600000).
Proof.
  cbv zeta. split.
  - destruct (logged_in_expiry_is_ten_minutes Sim.personal Sim.config (js "123456")
                (Sim.start (Sim.site true true false))) as [Hinit _].
    apply (Hinit eq_refl (statusOnly Sim.personal logged_in)).
    + vm_compute. reflexivity.
    + reflexivity.
  - destruct (logged_in_expiry_is_ten_minutes Sim.personal Sim.config (js "123456")
                (Sim.holding (email Sim.personal)
                   (Sim.session verification_required (Some (PageHandle 0)) 500000)
                   (Sim.with_urls [VERIFY_URL] (Sim.site true true true))))
      as [_ Hverify].
    apply (Hverify (statusOnly Sim.personal logged_in)).
    + vm_compute. reflexivity.
    + reflexivity.
Defined.


(* ===================================================================== *)
(** * Properties: product name *)
(* ===================================================================== *)

Section NameSources.
Context `{HtmlParser}.

End NameSources.







(* ===================================================================== *)
(** * Properties: the display text reads back *)
(* ===================================================================== *)

(** ** Digits *)

Lemma digitsValue_acc (ds : list Z) (acc : Z) :
  fold_left (fun a d => a * 10 + (d - 48)) ds acc
  = acc * 10 ^ Z.of_nat (length ds) + digitsValue ds.
Proof.
  unfold digitsValue. revert acc.
  induction ds as [|d ds IH]; intros acc.
  - cbn. lia.
  - cbn [fold_left length]. rewrite IH. rewrite (IH (0 * 10 + (d - 48))).
    rewrite Nat2Z.inj_succ, Z.pow_succ_r by lia. lia.
Qed.

Lemma digitsValue_app (a b : list Z) :
  digitsValue (a ++ b) = digitsValue a * 10 ^ Z.of_nat (length b) + digitsValue b.
Proof.
  unfold digitsValue at 1. rewrite fold_left_app.
  rewrite digitsValue_acc. reflexivity.
Qed.

Lemma isDigit_offset (d : Z) : 0 <= d < 10 -> isDigit (48 + d) = true.
Proof. intros Hd. unfold isDigit. apply andb_true_iff. split; apply Z.leb_le; lia. Qed.

Lemma digitsFuel_S (f : nat) (n : Z) (acc : list Z) :
  digitsFuel (S f) n acc =
  if n <? 10 then (48 + n mod 10) :: acc
  else digitsFuel f (n / 10) ((48 + n mod 10) :: acc).
Proof. reflexivity. Qed.

Lemma digitsFuel_spec (f : nat) :
  forall n acc, 0 <= n < 2 ^ Z.of_nat (S f) ->
  exists ds,
    digitsFuel (S f) n acc = ds ++ acc
    /\ ds <> []
    /\ forallb isDigit ds = true
    /\ digitsValue ds = n.
Proof.
  induction f as [|f IH]; intros n acc Hn.
  - exists [48 + n]. cbn [digitsFuel].
    assert (Hlt : n < 10) by (change (2 ^ Z.of_nat 1) with 2 in Hn; lia).
    destruct (Z.ltb_spec n 10); [|lia].
    rewrite Z.mod_small by lia.
    refine (conj eq_refl (conj _ (conj _ _))).
    + discriminate.
    + cbn [forallb]. rewrite isDigit_offset by lia. reflexivity.
    + unfold digitsValue. cbn. lia.
  - rewrite (digitsFuel_S (S f)). destruct (Z.ltb_spec n 10) as [Hsmall|Hbig].
    + exists [48 + n]. rewrite Z.mod_small by lia.
      refine (conj eq_refl (conj _ (conj _ _))).
      * discriminate.
      * cbn [forallb]. rewrite isDigit_offset by lia. reflexivity.
      * unfold digitsValue. cbn. lia.
    + assert (Hdiv : 0 <= n / 10 < 2 ^ Z.of_nat (S f)).
      { split; [apply Z.div_pos; lia|].
        apply Z.div_lt_upper_bound; [lia|].
        rewrite (Nat2Z.inj_succ (S f)), Z.pow_succ_r in Hn by lia. lia. }
      destruct (IH (n / 10) ((48 + n mod 10) :: acc) Hdiv)
        as (ds & Hrun & Hne & Hdig & Hval).
      exists (ds ++ [48 + n mod 10]).
      refine (conj _ (conj _ (conj _ _))).
      * rewrite Hrun, <- app_assoc. reflexivity.
      * destruct ds; discriminate.
      * rewrite forallb_app, Hdig. cbn [forallb].
        rewrite isDigit_offset by (apply Z.mod_pos_bound; lia). reflexivity.
      * rewrite digitsValue_app, Hval. unfold digitsValue at 1. cbn.
        pose proof (Z.div_mod n 10). lia.
Qed.

Lemma digits_spec (n : Z) :
  0 <= n ->
  digits n <> [] /\ forallb isDigit (digits n) = true /\ digitsValue (digits n) = n.
Proof.
  intros Hn. unfold digits.
  assert (Hbound : 0 <= n < 2 ^ Z.of_nat (S (Z.to_nat (Z.log2 n)))).
  { split; [exact Hn|].
    rewrite Nat2Z.inj_succ, Z2Nat.id by apply Z.log2_nonneg.
    destruct (Z.eq_dec n 0) as [->|Hpos]; [reflexivity|].
    apply Z.log2_spec. lia. }
  destruct (digitsFuel_spec _ n [] Hbound) as (ds & Hrun & Hne & Hdig & Hval).
  rewrite Hrun, app_nil_r. auto.
Qed.

(** ** Characters of a displayed price *)

Lemma digit_cases (c : Z) :
  isDigit c = true ->
  c = 48 \/ c = 49 \/ c = 50 \/ c = 51 \/ c = 52 \/ c = 53 \/ c = 54 \/ c = 55
  \/ c = 56 \/ c = 57.
Proof.
  unfold isDigit. intros Hc. apply andb_true_iff in Hc as [Hlo Hhi].
  apply Z.leb_le in Hlo, Hhi. lia.
Qed.

Ltac by_digit H :=
  apply digit_cases in H;
  repeat (destruct H as [H|H]); subst; reflexivity.

Lemma digit_plain (c : Z) : isDigit c = true -> plainChar c = true.
Proof. intros Hc. by_digit Hc. Qed.

Lemma digit_not_space (c : Z) : isDigit c = true -> isSpace c = false.
Proof. intros Hc. by_digit Hc. Qed.

Lemma digit_not_comma (c : Z) : isDigit c = true -> (c =? ch ",") = false.
Proof. intros Hc. by_digit Hc. Qed.

Lemma digit_not_dash (c : Z) :
  isDigit c = true -> (c =? ch "-") || (c =? EN_DASH) = false.
Proof. intros Hc. by_digit Hc. Qed.

Lemma digit_not_sign (c : Z) :
  isDigit c = true -> (c =? ch "+") = false /\ (c =? ch "-") = false.
Proof. intros Hc. split; by_digit Hc. Qed.

Lemma digit_not_I (c : Z) : isDigit c = true -> (ch "I" =? c) = false.
Proof. intros Hc. by_digit Hc. Qed.

Lemma forallb_rev {A} (P : A -> bool) (l : list A) :
  forallb P (rev l) = forallb P l.
Proof.
  induction l as [|x l IH]; [reflexivity|].
  cbn [rev forallb]. rewrite forallb_app, IH. cbn [forallb].
  rewrite andb_true_r. apply andb_comm.
Qed.

Lemma stripSpaces_rev (l : jsstring) : stripSpaces (rev l) = rev (stripSpaces l).
Proof.
  unfold stripSpaces. induction l as [|x l IH]; [reflexivity|].
  cbn [rev]. rewrite filter_app, IH, filter_cons.
  destruct (decide (isSpace x = false)) as [Hx|Hx].
  - rewrite filter_cons_True by exact Hx. rewrite filter_nil. reflexivity.
  - rewrite filter_cons_False by exact Hx. rewrite filter_nil, app_nil_r. reflexivity.
Qed.

Lemma stripSpaces_digits (l : jsstring) :
  forallb isDigit l = true -> stripSpaces l = l.
Proof.
  unfold stripSpaces. induction l as [|x l IH]; intros Hl; [reflexivity|].
  cbn [forallb] in Hl. apply andb_true_iff in Hl as [Hx Hl].
  rewrite filter_cons_True by (apply digit_not_space, Hx).
  rewrite (IH Hl). reflexivity.
Qed.

Lemma stripSpaces_groupRev (rds : list Z) :
  forallb isDigit rds = true ->
  forall k, stripSpaces (groupRev k rds) = rds.
Proof.
  unfold stripSpaces. induction rds as [|d r IH]; intros Hd k; [reflexivity|].
  cbn [forallb] in Hd. apply andb_true_iff in Hd as [Hd Hr].
  assert (Hkeep : forall k', filter (fun c => isSpace c = false) (d :: groupRev k' r)
                             = d :: r).
  { intros k'. rewrite filter_cons_True by (apply digit_not_space, Hd).
    rewrite (IH Hr). reflexivity. }
  destruct k as [|[|[|[|k]]]]; cbn [groupRev]; apply Hkeep.
Qed.

Lemma plain_groupRev (rds : list Z) :
  forallb isDigit rds = true ->
  forall k, forallb plainChar (groupRev k rds) = true.
Proof.
  induction rds as [|d r IH]; intros Hd k; [reflexivity|].
  cbn [forallb] in Hd. apply andb_true_iff in Hd as [Hd Hr].
  destruct k as [|[|[|[|k]]]]; cbn [groupRev forallb];
    rewrite (digit_plain d Hd), (IH Hr); reflexivity.
Qed.

Lemma stripSpaces_group3 (ds : list Z) :
  forallb isDigit ds = true -> stripSpaces (group3 ds) = ds.
Proof.
  intros Hd. unfold group3. rewrite stripSpaces_rev, stripSpaces_groupRev.
  - apply rev_involutive.
  - rewrite forallb_rev. exact Hd.
Qed.

Lemma plain_group3 (ds : list Z) :
  forallb isDigit ds = true -> forallb plainChar (group3 ds) = true.
Proof.
  intros Hd. unfold group3. rewrite forallb_rev. apply plain_groupRev.
  rewrite forallb_rev. exact Hd.
Qed.

Lemma startsWithI_head (a c : Z) (p s : jsstring) :
  eqi a c = false -> startsWithI (a :: p) (c :: s) = false.
Proof. intros Hac. cbn [startsWithI]. rewrite Hac. reflexivity. Qed.

Lemma stripCurrency_plain (p rest : jsstring) :
  forallb plainChar p = true ->
  stripCurrency 0 (p ++ rest) = p ++ stripCurrency 0 rest.
Proof.
  induction p as [|c p IH]; intros Hp; [reflexivity|].
  cbn [forallb] in Hp. apply andb_true_iff in Hp as [Hc Hp].
  unfold plainChar in Hc.
  apply andb_true_iff in Hc as [Hc Hamp]. apply andb_true_iff in Hc as [Hk Hcz].
  apply negb_true_iff in Hk, Hcz, Hamp.
  cbn [app stripCurrency].
  change (js "Kč") with [ch "K"; C_CARON].
  change (js "CZK") with [ch "C"; ch "Z"; ch "K"].
  change (js "&nbsp;") with [ch "&"; ch "n"; ch "b"; ch "s"; ch "p"; ch ";"].
  rewrite !startsWithI_head by assumption.
  rewrite (IH Hp). reflexivity.
Qed.

(** ** The cleaning of a displayed price *)

Lemma fractionText_digits (frac : Z) :
  fractionText frac = withSeparator (ch ",") (fractionDigits frac).
Proof.
  unfold fractionText, fractionDigits.
  destruct (frac =? 0); [reflexivity|]. destruct (frac mod 10 =? 0); reflexivity.
Qed.

Lemma fractionDigits_are_digits (frac : Z) :
  0 <= frac < 100 -> forallb isDigit (fractionDigits frac) = true.
Proof.
  intros Hf. unfold fractionDigits.
  assert (H1 : 0 <= frac / 10 < 10).
  { split; [apply Z.div_pos; lia | apply Z.div_lt_upper_bound; lia]. }
  assert (H2 : 0 <= frac mod 10 < 10) by (apply Z.mod_pos_bound; lia).
  destruct (frac =? 0); [reflexivity|].
  destruct (frac mod 10 =? 0); cbn [forallb];
    rewrite ?isDigit_offset by assumption; reflexivity.
Qed.

Lemma decimalChar_not_space (c : Z) : decimalChar c = true -> isSpace c = false.
Proof.
  unfold decimalChar. intros Hc. apply orb_true_iff in Hc as [Hc|Hc].
  - apply digit_not_space, Hc.
  - apply Z.eqb_eq in Hc. subst. reflexivity.
Qed.

Lemma decimalChar_not_dash (c : Z) :
  decimalChar c = true -> (c =? ch "-") || (c =? EN_DASH) = false.
Proof.
  unfold decimalChar. intros Hc. apply orb_true_iff in Hc as [Hc|Hc].
  - apply digit_not_dash, Hc.
  - apply Z.eqb_eq in Hc. subst. reflexivity.
Qed.

Lemma stripTrailingDash_decimal (s : jsstring) :
  forallb decimalChar s = true -> stripTrailingDash s = s.
Proof.
  induction s as [|c s IH]; intros Hs; [reflexivity|].
  cbn [forallb] in Hs. apply andb_true_iff in Hs as [Hc Hs].
  destruct s as [|d s].
  - cbn [stripTrailingDash]. rewrite (decimalChar_not_dash c Hc). reflexivity.
  - change (stripTrailingDash (c :: d :: s)) with (c :: stripTrailingDash (d :: s)).
    rewrite (IH Hs). reflexivity.
Qed.

Lemma dropSpaces_decimal (s : jsstring) :
  forallb decimalChar s = true -> dropSpaces s = s.
Proof.
  destruct s as [|c s]; intros Hs; [reflexivity|].
  cbn [forallb] in Hs. apply andb_true_iff in Hs as [Hc Hs].
  cbn [dropSpaces]. rewrite (decimalChar_not_space c Hc). reflexivity.
Qed.

Lemma trim_decimal (s : jsstring) : forallb decimalChar s = true -> trim s = s.
Proof.
  intros Hs. unfold trim, trimEnd, trimStart.
  rewrite (dropSpaces_decimal s Hs), dropSpaces_decimal.
  - apply rev_involutive.
  - rewrite forallb_rev. exact Hs.
Qed.

Lemma digits_decimal (l : list Z) :
  forallb isDigit l = true -> forallb decimalChar l = true.
Proof.
  induction l as [|c l IH]; intros Hl; [reflexivity|].
  cbn [forallb] in *. apply andb_true_iff in Hl as [Hc Hl].
  unfold decimalChar at 1. rewrite Hc, (IH Hl). reflexivity.
Qed.

Lemma commaToDot_digits (l : list Z) :
  forallb isDigit l = true -> commaToDot l = l.
Proof.
  unfold commaToDot. induction l as [|c l IH]; intros Hl; [reflexivity|].
  cbn [forallb] in Hl. apply andb_true_iff in Hl as [Hc Hl].
  cbn [map]. rewrite (digit_not_comma c Hc), (IH Hl). reflexivity.
Qed.

Lemma cleanNumberText_display (ip fd : list Z) :
  forallb isDigit ip = true ->
  forallb isDigit fd = true ->
  cleanNumberText (group3 ip ++ withSeparator (ch ",") fd ++ js " Kč")
  = ip ++ withSeparator (ch ".") fd.
Proof.
  intros Hip Hfd. unfold cleanNumberText.
  assert (Hplain : forallb plainChar (group3 ip ++ withSeparator (ch ",") fd) = true).
  { rewrite forallb_app, (plain_group3 ip Hip).
    destruct fd as [|d fd]; [reflexivity|].
    cbn [withSeparator forallb andb] in *.
    apply andb_true_iff in Hfd as [Hd Hfd].
    rewrite (digit_plain d Hd).
    change (plainChar (ch ",")) with true. cbn [andb].
    clear Hd. induction fd as [|e fd IH]; [reflexivity|].
    cbn [forallb] in *. apply andb_true_iff in Hfd as [He Hfd].
    rewrite (digit_plain e He). apply (IH Hfd). }
  rewrite app_assoc, (stripCurrency_plain _ _ Hplain).
  change (stripCurrency 0 (js " Kč")) with [32].
  assert (Hspaces : stripSpaces ((group3 ip ++ withSeparator (ch ",") fd) ++ [32])
                    = ip ++ withSeparator (ch ",") fd).
  { unfold stripSpaces. rewrite !filter_app.
    fold (stripSpaces (group3 ip)). rewrite (stripSpaces_group3 ip Hip).
    change (filter (fun c => isSpace c = false) [32]) with (@nil Z).
    rewrite app_nil_r. f_equal.
    destruct fd as [|d fd]; [reflexivity|].
    cbn [withSeparator].
    rewrite filter_cons_True by reflexivity.
    fold (stripSpaces (d :: fd)). rewrite (stripSpaces_digits _ Hfd). reflexivity. }
  rewrite Hspaces.
  assert (Hdots : commaToDot (ip ++ withSeparator (ch ",") fd)
                  = ip ++ withSeparator (ch ".") fd).
  { assert (Happ : forall a b, commaToDot (a ++ b) = commaToDot a ++ commaToDot b).
    { intros a b. apply map_app. }
    rewrite Happ, (commaToDot_digits ip Hip). f_equal.
    destruct fd as [|d fd]; [reflexivity|].
    cbn [withSeparator].
    change (commaToDot (ch "," :: d :: fd)) with (ch "." :: commaToDot (d :: fd)).
    rewrite (commaToDot_digits _ Hfd). reflexivity. }
  rewrite Hdots.
  assert (Hdec : forallb decimalChar (ip ++ withSeparator (ch ".") fd) = true).
  { rewrite forallb_app, (digits_decimal ip Hip).
    destruct fd as [|d fd]; [reflexivity|].
    cbn [withSeparator forallb andb].
    change (decimalChar (ch ".")) with true.
    apply (digits_decimal (d :: fd) Hfd). }
  rewrite (stripTrailingDash_decimal _ Hdec). apply (trim_decimal _ Hdec).
Qed.

(** ** Reading a cleaned decimal *)

Lemma spanDigits_digits (ds rest : jsstring) :
  forallb isDigit ds = true ->
  match rest with [] => true | c :: _ => negb (isDigit c) end = true ->
  spanDigits (ds ++ rest) = (ds, rest).
Proof.
  intros Hds Hrest. induction ds as [|d ds IH].
  - destruct rest as [|c r]; [reflexivity|].
    cbn [app spanDigits]. apply negb_true_iff in Hrest. rewrite Hrest. reflexivity.
  - cbn [forallb] in Hds. apply andb_true_iff in Hds as [Hd Hds].
    cbn [app spanDigits]. rewrite Hd, (IH Hds). reflexivity.
Qed.

Lemma parseFloat_decimal (ip fd : list Z) :
  ip <> [] ->
  forallb isDigit ip = true ->
  forallb isDigit fd = true ->
  parseFloat (ip ++ withSeparator (ch ".") fd) = decimalValue ip fd 0.
Proof.
  intros Hne Hip Hfd. unfold parseFloat, trimStart.
  rewrite dropSpaces_decimal.
  2:{ rewrite forallb_app, (digits_decimal ip Hip).
      destruct fd as [|d fd]; [reflexivity|].
      cbn [withSeparator forallb andb]. change (decimalChar (ch ".")) with true.
      apply (digits_decimal (d :: fd) Hfd). }
  destruct ip as [|c ip]; [contradiction|]. clear Hne.
  pose proof Hip as Hc. cbn [forallb] in Hc. apply andb_true_iff in Hc as [Hc _].
  cbn [app]. destruct (digit_not_sign c Hc) as [Hplus Hminus].
  rewrite Hplus, Hminus. unfold parseUnsigned.
  change (js "Infinity") with (ch "I" :: js "nfinity").
  cbn [startsWith]. rewrite (digit_not_I c Hc). cbn [andb].
  change (c :: ip ++ withSeparator (ch ".") fd)
    with ((c :: ip) ++ withSeparator (ch ".") fd).
  rewrite (spanDigits_digits (c :: ip) (withSeparator (ch ".") fd) Hip)
    by (destruct fd; reflexivity).
  destruct fd as [|d fd]; [reflexivity|].
  cbn [withSeparator]. rewrite Z.eqb_refl.
  pose proof (spanDigits_digits (d :: fd) [] Hfd eq_refl) as Hspan.
  rewrite app_nil_r in Hspan. rewrite Hspan. reflexivity.
Qed.

Lemma hundredths_split (c : Z) :
  0 <= c ->
  0 <= c / 100 /\ 0 <= c mod 100 < 100 /\ c = 100 * (c / 100) + c mod 100.
Proof.
  intros Hc. refine (conj _ (conj _ _)).
  - apply Z.div_pos; lia.
  - apply Z.mod_pos_bound. lia.
  - apply Z.div_mod. lia.
Qed.

(** The value read from the integer digits and the fraction digits of [c]
    hundredths is [c / 100]. *)
Lemma decimalValue_hundredths (c : Z) :
  0 <= c ->
  decimalValue (digits (c / 100)) (fractionDigits (c mod 100)) 0 = num (c # 100).
Proof.
  intros Hc. destruct (hundredths_split c Hc) as (Hip & Hfrac & Hsplit).
  destruct (digits_spec (c / 100) Hip) as (_ & _ & Hval).
  unfold decimalValue, num. f_equal. apply Qred_complete.
  rewrite digitsValue_app, Hval.
  unfold fractionDigits.
  assert (Htens : c mod 100 = 10 * (c mod 100 / 10) + (c mod 100) mod 10)
    by (apply Z.div_mod; lia).
  destruct (Z.eqb_spec (c mod 100) 0) as [Hzero|Hnz].
  - change (Qpower (10 # 1) (0 - Z.of_nat (length (@nil Z)))) with (1 # 1)%Q.
    unfold Qeq, Qmult, inject_Z. cbn [Qnum Qden length digitsValue fold_left].
    change (Z.of_nat 0) with 0. rewrite Z.pow_0_r.
    change (digitsValue []) with 0. lia.
  - destruct (Z.eqb_spec ((c mod 100) mod 10) 0) as [Hunit|Hunit].
    + change (Qpower (10 # 1) (0 - Z.of_nat (length [48 + c mod 100 / 10])))
        with (1 # 10)%Q.
      unfold Qeq, Qmult, inject_Z. cbn [Qnum Qden length].
      change (Z.of_nat 1) with 1. rewrite Z.pow_1_r.
      replace (digitsValue [48 + c mod 100 / 10]) with (c mod 100 / 10)
        by (unfold digitsValue; cbn [fold_left]; lia).
      lia.
    + change (Qpower (10 # 1)
                (0 - Z.of_nat (length [48 + c mod 100 / 10; 48 + (c mod 100) mod 10])))
        with (1 # 100)%Q.
      unfold Qeq, Qmult, inject_Z. cbn [Qnum Qden length].
      change (Z.of_nat 2) with 2.
      replace (digitsValue [48 + c mod 100 / 10; 48 + (c mod 100) mod 10])
        with (10 * (c mod 100 / 10) + (c mod 100) mod 10)
        by (unfold digitsValue; cbn [fold_left]; lia).
      change (10 ^ 2) with 100. lia.
Qed.

Lemma num_positive (k : positive) : gtZero (num (Zpos k # 100)) = true.
Proof.
  unfold num, gtZero. apply Z.ltb_lt.
  assert (Hpos : (0 < Qred (Zpos k # 100))%Q).
  { rewrite Qred_correct. reflexivity. }
  unfold Qlt in Hpos. cbn [Qnum Qden] in Hpos. lia.
Qed.

(** The hundredths the formatter rounds [k / 100] to are [k] itself. *)
Lemma cents_of_hundredths (k : positive) :
  Qfloor (Qabs (Qred (Zpos k # 100)) * (100 # 1) + (1 # 2)) = Zpos k.
Proof.
  assert (Heq : (Qabs (Qred (Zpos k # 100)) * (100 # 1) + (1 # 2)
                 == (2 * Zpos k + 1) # 2)%Q).
  { rewrite Qabs_pos.
    - rewrite Qred_correct. unfold Qeq, Qmult, Qplus. cbn [Qnum Qden]. lia.
    - rewrite Qred_correct. unfold Qle. cbn [Qnum Qden]. lia. }
  rewrite (Qfloor_comp _ _ Heq). unfold Qfloor.
  symmetry. apply (Z.div_unique _ _ _ 1); lia.
Qed.

(** C10.  For every price of k hundredths, k >= 1 (a positive number with
    at most two decimal digits), normalising the display text that
    formatCzechPrice renders gives the price back. *)
Theorem parseCzechNumber_formatCzechPrice (k : positive) :
  parseCzechNumber (formatCzechPrice (num (Zpos k # 100))) = Some (num (Zpos k # 100)).
Proof.
  assert (Hk : 0 <= Zpos k) by lia.
  destruct (hundredths_split (Zpos k) Hk) as (Hip & Hfrac & _).
  destruct (digits_spec (Zpos k / 100) Hip) as (Hne & Hdig & _).
  pose proof (fractionDigits_are_digits (Zpos k mod 100) Hfrac) as Hfd.
  assert (Htext : formatCzechPrice (num (Zpos k # 100))
                  = group3 (digits (Zpos k / 100))
                      ++ withSeparator (ch ",") (fractionDigits (Zpos k mod 100))
                      ++ js " Kč").
  { unfold formatCzechPrice, num, toLocaleStringCs.
    rewrite cents_of_hundredths.
    pose proof (num_positive k) as Hpos. unfold num, gtZero in Hpos.
    apply Z.ltb_lt in Hpos.
    destruct (Z.ltb_spec (Qnum (Qred (Zpos k # 100))) 0); [lia|].
    rewrite fractionText_digits. cbn [app]. rewrite <- app_assoc. reflexivity. }
  assert (Hshown : truthy (group3 (digits (Zpos k / 100))
                            ++ withSeparator (ch ",") (fractionDigits (Zpos k mod 100))
                            ++ js " Kč") = true).
  { destruct (group3 (digits (Zpos k / 100))); [|reflexivity].
    destruct (withSeparator (ch ",") (fractionDigits (Zpos k mod 100))); reflexivity. }
  assert (Hcleaned : truthy (digits (Zpos k / 100)
                              ++ withSeparator (ch ".") (fractionDigits (Zpos k mod 100)))
                     = true).
  { destruct (digits (Zpos k / 100)); [contradiction|reflexivity]. }
  unfold parseCzechNumber. rewrite Htext, Hshown.
  rewrite (cleanNumberText_display _ _ Hdig Hfd), Hcleaned.
  rewrite (parseFloat_decimal _ _ Hne Hdig Hfd).
  rewrite (decimalValue_hundredths (Zpos k) Hk), (num_positive k).
  reflexivity.
Qed.

(* ===================================================================== *)
(** * Properties: one browser for concurrent callers *)
(* ===================================================================== *)

(** ** What the pieces of initBrowser do to the module variables *)

Section Stages.
Context {W : Type} `{World W}.

Lemma launches_log (c : Call) (g : Globals W) :
  launches (log_call c g) = if isLaunch c then S (launches g) else launches g.
Proof.
  unfold launches, log_call. cbn [calls]. rewrite filter_cons.
  destruct (isLaunch c); destruct (decide _) as [Hd|Hd]; cbn in Hd;
    first [reflexivity | contradiction | exfalso; apply Hd; exact I].
Qed.

Lemma attachments_log (c : Call) (g : Globals W) :
  attachments (log_call c g) = if isAttach c then S (attachments g) else attachments g.
Proof.
  unfold attachments, log_call. cbn [calls]. rewrite filter_cons.
  destruct (isAttach c); destruct (decide _) as [Hd|Hd]; cbn in Hd;
    first [reflexivity | contradiction | exfalso; apply Hd; exact I].
Qed.

Lemma connectedBrowser_spec (g : Globals W) :
  connectedBrowser g =
  (Return match browser g with
          | Some b => if observe (IsConnected b) (world g) then Some b else None
          | None => None
          end, g).
Proof.
  unfold connectedBrowser, bind, gets, query, ret.
  destruct (browser g); reflexivity.
Qed.

Lemma initBrowser_prelude_spec (config : AppConfig) (g : Globals W) :
  browser g = None ->
  exists g', initBrowser_prelude config g = (Return None, g')
             /\ summary g' = summary g.
Proof.
  intros Hb. unfold initBrowser_prelude, bind at 1.
  rewrite connectedBrowser_spec, Hb.
  unfold bind, ignoreErrors, tryCatch, act, ret.
  destruct (perform (KillPort (chromeDebugPort config)) (world g)) as [[[]|e] w];
    eexists; (split; [reflexivity|]);
    unfold summary; rewrite launches_log, attachments_log; reflexivity.
Qed.

Lemma initBrowser_launch_spec (config : AppConfig) (g : Globals W) :
  exists r g',
    initBrowser_launch config g = (r, g')
    /\ summary g' =
       (browser g, browserInitPromise g, promisesMade g,
        (if isReturn r then S (launches g) else launches g), attachments g).
Proof.
  unfold initBrowser_launch, sleep, bind, timer, query, act, modify, ret.
  cbn [world set_world].
  match goal with
  | |- context [perform ?a ?w] => destruct (perform a w) as [[proc|e] w']
  end; do 2 eexists; (split; [reflexivity|]); reflexivity.
Qed.

Lemma initBrowser_challenge_spec (config : AppConfig) (url : jsstring)
    (g : Globals W) :
  exists r g',
    initBrowser_challenge config url g = (r, g') /\ summary g' = summary g.
Proof.
  unfold initBrowser_challenge, sleep, bind, timer, act.
  cbn [world set_world].
  match goal with
  | |- context [perform ?a ?w] => destruct (perform a w) as [[[]|e] w']
  end; do 2 eexists; (split; [reflexivity|]); reflexivity.
Qed.

Lemma initBrowser_connect_spec (config : AppConfig) (g : Globals W) :
  exists r g',
    initBrowser_connect config g = (r, g')
    /\ summary g' =
       match r with
       | Return b => (Some b, browserInitPromise g, promisesMade g,
                      launches g, S (attachments g))
       | Throw _ => summary g
       end.
Proof.
  unfold initBrowser_connect, bind, act, modify, ret.
  match goal with
  | |- context [perform ?a ?w] => destruct (perform a w) as [[b|e] w']
  end; do 2 eexists; (split; [reflexivity|]); reflexivity.
Qed.
End Stages.

(** ** The invariant of a schedule of concurrent calls *)

Import EventLoop.

Section SingleCreation.
Context {W : Type} `{World W}.
Variables (p0 L0 A0 : nat).

Local Abbreviation awaits := (awaits p0).
Local Abbreviation awaitsOrGot := (awaitsOrGot p0).
Local Abbreviation Phase := (Phase p0 L0 A0).

Lemma summary_fields (g : Globals W) b p n l a :
  summary g = (b, p, n, l, a) ->
  browser g = b /\ browserInitPromise g = p /\ promisesMade g = n
  /\ launches g = l /\ attachments g = a.
Proof. unfold summary. intros [= <- <- <- <- <-]. auto. Qed.

Lemma awaits_weaken (r : completion Browser) (l : list Caller) :
  Forall awaits l -> Forall (awaitsOrGot r) l.
Proof. intros Hl. eapply Forall_impl; [exact Hl|]. intros c Hc. left. exact Hc. Qed.

(** *** A call *)

Lemma call_phase (config : AppConfig) (s : @Loop W) :
  Phase false s -> Phase false (call config s).
Proof.
  intros Hs. unfold call. rewrite connectedBrowser_spec.
  destruct Hs as [Hcallers Hcre Hsum | c Hcre Hun Hsum Hall
                 | b pending Hcre Hsum Hpend Hall
                 | e pending launched Hcre Hsum Hle Hpend Hall];
    destruct (summary_fields _ _ _ _ _ _ Hsum) as (Hb & Hp & Hn & Hl & Ha).
  - rewrite Hb, Hp.
    destruct (initBrowser_prelude_spec config (globals s) Hb) as (g' & Hrun & Hsum').
    rewrite Hrun. rewrite Hsum in Hsum'.
    destruct (summary_fields _ _ _ _ _ _ Hsum') as (Hb' & Hp' & Hn' & Hl' & Ha').
    apply InFlight with (c := Launching config); cbn [creations callers globals].
    + rewrite Hn, Hcre. apply insert_empty.
    + exact I.
    + unfold summary. cbn. rewrite Hn.
      unfold launches, attachments in *. cbn [calls set_browserInitPromise set_promisesMade].
      rewrite Hb', Hl', Ha', Nat.add_0_r. reflexivity.
    + rewrite Hcallers, Hn. apply Forall_singleton. left. reflexivity.
  - rewrite Hb, Hp.
    apply InFlight with (c := c); cbn [creations callers globals]; try assumption.
    apply Forall_app. split; [exact Hall|]. apply Forall_singleton. right. reflexivity.
  - rewrite Hb. rewrite (Hpend eq_refl) in Hp.
    destruct (observe (IsConnected b) (world (globals s))).
    + apply Succeeded with (b := b) (pending := pending);
        cbn [creations callers globals]; try assumption.
      apply Forall_app. split; [exact Hall|]. apply Forall_singleton.
      right. reflexivity.
    + rewrite Hp.
      apply Succeeded with (b := b) (pending := pending);
        cbn [creations callers globals]; try assumption.
      apply Forall_app. split; [exact Hall|]. apply Forall_singleton.
      left. right. reflexivity.
  - rewrite Hb. rewrite (Hpend eq_refl) in Hp. rewrite Hp.
    apply Failed with (e := e) (pending := pending) (launched := launched);
      cbn [creations callers globals]; try assumption.
    apply Forall_app. split; [exact Hall|]. apply Forall_singleton.
    left. right. reflexivity.
Qed.

(** *** The creation moves on *)

Lemma advance_phase (resumed : bool) (p : nat) (s s' : @Loop W) :
  Phase resumed s -> advance p s = Some s' -> Phase resumed s'.
Proof.
  intros Hs Hstep. unfold advance in Hstep.
  destruct Hs as [Hcallers Hcre Hsum | c Hcre Hun Hsum Hall
                 | b pending Hcre Hsum Hpend Hall
                 | e pending launched Hcre Hsum Hle Hpend Hall];
    rewrite Hcre in Hstep.
  - rewrite lookup_empty in Hstep. discriminate.
  - destruct (decide (p = p0)) as [->|Hne];
      [rewrite lookup_singleton_eq in Hstep
      |rewrite lookup_singleton_ne in Hstep by congruence; discriminate].
    destruct (summary_fields _ _ _ _ _ _ Hsum) as (Hb & Hp & Hn & Hl & Ha).
    destruct c as [config|config url|config|r]; [| | |contradiction].
    + destruct (initBrowser_launch_spec config (globals s)) as (r & g' & Hrun & Hsum').
      rewrite Hrun in Hstep. injection Hstep as <-.
      rewrite Hb, Hp, Hn, Hl, Ha in Hsum'. cbn [launchedBy] in Hsum'.
      rewrite Nat.add_0_r in Hsum'.
      destruct r as [url|e]; cbn [isReturn] in Hsum'.
      * apply InFlight with (c := Challenge config url); cbn [creations callers globals].
        -- apply insert_singleton_eq.
        -- exact I.
        -- rewrite Hsum'. cbn [launchedBy]. rewrite Nat.add_1_r. reflexivity.
        -- exact Hall.
      * apply Failed with (e := e) (pending := Some p0) (launched := L0);
          cbn [creations callers globals].
        -- apply insert_singleton_eq.
        -- exact Hsum'.
        -- lia.
        -- reflexivity.
        -- apply awaits_weaken, Hall.
    + destruct (initBrowser_challenge_spec config url (globals s))
        as (r & g' & Hrun & Hsum').
      rewrite Hrun in Hstep. injection Hstep as <-.
      rewrite Hsum in Hsum'. cbn [launchedBy] in Hsum'.
      destruct r as [[]|e].
      * apply InFlight with (c := Connecting config); cbn [creations callers globals].
        -- apply insert_singleton_eq.
        -- exact I.
        -- exact Hsum'.
        -- exact Hall.
      * apply Failed with (e := e) (pending := Some p0) (launched := (L0 + 1)%nat);
          cbn [creations callers globals].
        -- apply insert_singleton_eq.
        -- exact Hsum'.
        -- lia.
        -- reflexivity.
        -- apply awaits_weaken, Hall.
    + destruct (initBrowser_connect_spec config (globals s)) as (r & g' & Hrun & Hsum').
      rewrite Hrun in Hstep. injection Hstep as <-.
      destruct r as [b|e].
      * rewrite Hp, Hn, Hl, Ha in Hsum'. cbn [launchedBy] in Hsum'.
        rewrite Nat.add_1_r in Hsum'.
        apply Succeeded with (b := b) (pending := Some p0);
          cbn [creations callers globals].
        -- apply insert_singleton_eq.
        -- exact Hsum'.
        -- reflexivity.
        -- apply awaits_weaken, Hall.
      * rewrite Hsum in Hsum'. cbn [launchedBy] in Hsum'.
        apply Failed with (e := e) (pending := Some p0) (launched := (L0 + 1)%nat);
          cbn [creations callers globals].
        -- apply insert_singleton_eq.
        -- exact Hsum'.
        -- lia.
        -- reflexivity.
        -- apply awaits_weaken, Hall.
  - destruct (decide (p = p0)) as [->|Hne];
      [rewrite lookup_singleton_eq in Hstep
      |rewrite lookup_singleton_ne in Hstep by congruence]; discriminate.
  - destruct (decide (p = p0)) as [->|Hne];
      [rewrite lookup_singleton_eq in Hstep
      |rewrite lookup_singleton_ne in Hstep by congruence]; discriminate.
Qed.

(** *** A caller is resumed *)

Lemma resume_settled (r : completion Browser) (pending : option nat)
    (launched attached : nat) (b : option Browser) (i : nat) (s s' : @Loop W) :
  creations s = {[p0 := Settled r]} ->
  summary (globals s) = (b, pending, S p0, launched, attached) ->
  Forall (awaitsOrGot r) (callers s) ->
  resume i s = Some s' ->
  exists pending',
    creations s' = {[p0 := Settled r]}
    /\ summary (globals s') = (b, pending', S p0, launched, attached)
    /\ Forall (awaitsOrGot r) (callers s').
Proof.
  intros Hcre Hsum Hall Hstep. unfold resume in Hstep.
  destruct (callers s !! i) as [c|] eqn:Hc; [|discriminate].
  pose proof (Forall_lookup_1 _ _ _ _ Hall Hc) as Hawait.
  destruct (summary_fields _ _ _ _ _ _ Hsum) as (Hb & Hp & Hn & Hl & Ha).
  destruct Hawait as [[-> | ->] | ->]; [| |discriminate];
    rewrite Hcre, lookup_singleton_eq in Hstep; injection Hstep as <-;
    cbn [creations callers globals].
  - exists None. refine (conj eq_refl (conj _ _)).
    + unfold summary, launches, attachments in *.
      cbn [browser browserInitPromise promisesMade calls set_browserInitPromise].
      congruence.
    + apply Forall_insert; [exact Hall|]. right. reflexivity.
  - exists pending. refine (conj eq_refl (conj Hsum _)).
    apply Forall_insert; [exact Hall|]. right. reflexivity.
Qed.

Lemma resume_phase (resumed : bool) (i : nat) (s s' : @Loop W) :
  Phase resumed s -> resume i s = Some s' -> Phase true s'.
Proof.
  intros Hs Hstep.
  destruct Hs as [Hcallers Hcre Hsum | c Hcre Hun Hsum Hall
                 | b pending Hcre Hsum Hpend Hall
                 | e pending launched Hcre Hsum Hle Hpend Hall].
  - unfold resume in Hstep. rewrite Hcallers in Hstep. discriminate.
  - unfold resume in Hstep.
    destruct (callers s !! i) as [c'|] eqn:Hc; [|discriminate].
    destruct (Forall_lookup_1 _ _ _ _ Hall Hc) as [-> | ->];
      rewrite Hcre, lookup_singleton_eq in Hstep;
      destruct c; try discriminate; contradiction.
  - destruct (resume_settled _ _ _ _ _ _ _ _ Hcre Hsum Hall Hstep)
      as (pending' & Hcre' & Hsum' & Hall').
    apply Succeeded with (b := b) (pending := pending'); try assumption.
    discriminate.
  - destruct (resume_settled _ _ _ _ _ _ _ _ Hcre Hsum Hall Hstep)
      as (pending' & Hcre' & Hsum' & Hall').
    apply Failed with (e := e) (pending := pending') (launched := launched);
      try assumption.
    discriminate.
Qed.

(** *** Schedules *)

Lemma run_phase (evs : list Event) :
  forall (resumed : bool) (s s' : @Loop W),
    Phase resumed s ->
    (resumed = true -> forallb (fun e => negb (isCall e)) evs = true) ->
    concurrent evs = true ->
    run evs s = Some s' ->
    exists resumed', Phase resumed' s'.
Proof.
  induction evs as [|ev rest IH]; intros resumed s s' Hs Hquiet Hconc Hrun.
  - cbn in Hrun. injection Hrun as <-. exists resumed. exact Hs.
  - cbn [run] in Hrun. cbn [concurrent] in Hconc.
    apply andb_true_iff in Hconc as [Hhere Hconc].
    destruct ev as [config|p|i]; cbn [step isResume] in *.
    + destruct resumed.
      * specialize (Hquiet eq_refl). cbn in Hquiet. discriminate.
      * apply (IH false _ _ (call_phase config s Hs)); [discriminate|exact Hconc|exact Hrun].
    + destruct (advance p s) as [s1|] eqn:Hstep; [|discriminate].
      apply (IH resumed _ _ (advance_phase _ _ _ _ Hs Hstep)); [|exact Hconc|exact Hrun].
      intros Hres. specialize (Hquiet Hres). cbn in Hquiet. exact Hquiet.
    + destruct (resume i s) as [s1|] eqn:Hstep; [|discriminate].
      apply (IH true _ _ (resume_phase _ _ _ _ Hs Hstep)); [|exact Hconc|exact Hrun].
      intros _. exact Hhere.
Qed.

Lemma run_callers (evs : list Event) :
  forall (s s' : @Loop W),
    run evs s = Some s' ->
    length (callers s') = (length (callers s) + length (filter isCall evs))%nat.
Proof.
  induction evs as [|ev rest IH]; intros s s' Hrun.
  - cbn in Hrun. injection Hrun as <-. cbn. lia.
  - cbn [run] in Hrun. destruct (step ev s) as [s1|] eqn:Hstep; [|discriminate].
    rewrite (IH _ _ Hrun). rewrite filter_cons.
    destruct ev as [config|p|i]; cbn [step] in Hstep.
    + injection Hstep as <-.
      destruct (decide (isCall (Call config))) as [_|Hn]; [|exfalso; apply Hn; exact I].
      unfold call. rewrite connectedBrowser_spec.
      destruct (match browser (globals s) with
                | Some b => if observe (IsConnected b) (world (globals s))
                            then Some b else None
                | None => None
                end);
        [cbn [callers]; rewrite length_app; cbn; lia|].
      destruct (browserInitPromise (globals s));
        [cbn [callers]; rewrite length_app; cbn; lia|].
      destruct (initBrowser_prelude config (globals s)) as [r g'].
      cbn [callers]. rewrite length_app. cbn. lia.
    + destruct (decide (isCall (Advance p))) as [Hc|_]; [destruct Hc|].
      unfold advance in Hstep.
      destruct (creations s !! p) as [[config|config url|config|r]|]; try discriminate.
      * destruct (initBrowser_launch config (globals s)). injection Hstep as <-. reflexivity.
      * destruct (initBrowser_challenge config url (globals s)).
        injection Hstep as <-. reflexivity.
      * destruct (initBrowser_connect config (globals s)). injection Hstep as <-. reflexivity.
    + destruct (decide (isCall (Resume i))) as [Hc|_]; [destruct Hc|].
      unfold resume in Hstep.
      destruct (callers s !! i) as [[p|p|r]|]; try discriminate;
        destruct (creations s !! p) as [[config|config url|config|r]|]; try discriminate;
        injection Hstep as <-; cbn [callers]; rewrite length_insert; reflexivity.
Qed.
End SingleCreation.

Section SingleCreationResult.
Context {W : Type} `{World W}.

Lemma phase_result (p0 L0 A0 : nat) (resumed : bool) (s : @Loop W) :
  Phase p0 L0 A0 resumed s ->
  (forall p, p <> p0 -> creations s !! p = None)
  /\ (launches (globals s) <= S L0)%nat
  /\ (attachments (globals s) <= S A0)%nat
  /\ exists outcome,
      match outcome with
      | Some r => creations s !! p0 = Some (Settled r)
      | None => True
      end
      /\ Forall (sharing p0 outcome) (callers s)
      /\ (forall b, outcome = Some (Return b) ->
                    launches (globals s) = S L0
                    /\ attachments (globals s) = S A0
                    /\ browser (globals s) = Some b).
Proof.
  intros Hs.
  destruct Hs as [Hcallers Hcre Hsum | c Hcre Hun Hsum Hall
                 | b pending Hcre Hsum Hpend Hall
                 | e pending launched Hcre Hsum Hle Hpend Hall];
    destruct (summary_fields _ _ _ _ _ _ Hsum) as (Hb & Hp & Hn & Hl & Ha);
    rewrite Hl, Ha, Hcre.
  - refine (conj _ (conj _ (conj _ _))); [intros; apply lookup_empty|lia|lia|].
    exists None. rewrite Hcallers.
    refine (conj I (conj (Forall_nil_2 _) _)). discriminate.
  - refine (conj _ (conj _ (conj _ _))).
    + intros p Hne. apply lookup_singleton_ne. congruence.
    + destruct c; cbn [launchedBy]; lia.
    + lia.
    + exists None. refine (conj I (conj _ _)); [|discriminate].
      eapply Forall_impl; [exact Hall|]. intros c' [Hc|Hc]; [left|right; left]; exact Hc.
  - refine (conj _ (conj _ (conj _ _))).
    + intros p Hne. apply lookup_singleton_ne. congruence.
    + lia.
    + lia.
    + exists (Some (Return b)). refine (conj (lookup_singleton_eq _ _) (conj _ _)).
      * eapply Forall_impl; [exact Hall|].
        intros c' [[Hc|Hc]|Hc]; [left|right; left|right; right]; eauto.
      * intros b' [= <-]. auto.
  - refine (conj _ (conj _ (conj _ _))).
    + intros p Hne. apply lookup_singleton_ne. congruence.
    + lia.
    + lia.
    + exists (Some (Throw e)). refine (conj (lookup_singleton_eq _ _) (conj _ _)).
      * eapply Forall_impl; [exact Hall|].
        intros c' [[Hc|Hc]|Hc]; [left|right; left|right; right]; eauto.
      * discriminate.
Qed.

(** C9.  Start with no browser handle and no creation in flight, and let
    any number of calls of ensureBrowser run concurrently (each call is
    made before any caller has been resumed), scheduled in any order with
    the steps of the creation.  Then only the first promise is ever made;
    at most one browser process is launched and at most one connection
    attached; every caller awaits that promise or has received the way it
    settled; and if it settled with a handle, exactly one process was
    launched, exactly one connection attached, and that handle is the
    module's browser.  Moreover a call made while a connected handle
    exists returns it at once and performs nothing. *)
Theorem ensureBrowser_single_creation (g0 : Globals W) (evs : list Event)
    (s : @Loop W) :
  browser g0 = None ->
  browserInitPromise g0 = None ->
  concurrent evs = true ->
  run evs (idle g0) = Some s ->
  length (callers s) = length (filter isCall evs)
  /\ (forall p, p <> promisesMade g0 -> creations s !! p = None)
  /\ (launches (globals s) <= S (launches g0))%nat
  /\ (attachments (globals s) <= S (attachments g0))%nat
  /\ (exists outcome,
        match outcome with
        | Some r => creations s !! promisesMade g0 = Some (Settled r)
        | None => True
        end
        /\ Forall (sharing (promisesMade g0) outcome) (callers s)
        /\ (forall b, outcome = Some (Return b) ->
                      launches (globals s) = S (launches g0)
                      /\ attachments (globals s) = S (attachments g0)
                      /\ browser (globals s) = Some b))
  /\ (forall config (s1 : @Loop W) b,
        browser (globals s1) = Some b ->
        observe (IsConnected b) (world (globals s1)) = true ->
        call config s1
        = mkLoop (globals s1) (creations s1) (callers s1 ++ [Finished (Return b)])).
Proof.
  intros Hb Hp Hconc Hrun.
  assert (Hidle : Phase (promisesMade g0) (launches g0) (attachments g0) false (idle g0)).
  { apply Idle; [reflexivity|reflexivity|].
    unfold summary. cbn [idle globals]. rewrite Hb, Hp. reflexivity. }
  destruct (run_phase _ _ _ evs false (idle g0) s Hidle) as (resumed & Hphase);
    [discriminate|exact Hconc|exact Hrun|].
  destruct (phase_result _ _ _ _ _ Hphase) as (Hone & Hl & Ha & Hout).
  refine (conj _ (conj Hone (conj Hl (conj Ha (conj Hout _))))).
  - rewrite (run_callers evs _ _ Hrun). reflexivity.
  - intros config s1 b Hsome Hup. unfold call.
    rewrite connectedBrowser_spec, Hsome, Hup. reflexivity.
Qed.
End SingleCreationResult.

(** Three concurrent callers on the simulated browser: one launch, one
    connection, the same handle for all. *)
Lemma ensureBrowser_single_creation_witness :
  let evs := [Call Sim.config; Call Sim.config; Advance 0; Call Sim.config;
              Advance 0; Advance 0; Resume 1; Resume 0; Resume 2] in
  exists s,
    run evs (idle (Sim.start (Sim.site true true false))) = Some s
    /\ callers s = [Finished (Return (BrowserHandle 0));
                    Finished (Return (BrowserHandle 0));
                    Finished (Return (BrowserHandle 0))]
    /\ (launches (globals s) <= 1)%nat
    /\ (attachments (globals s) <= 1)%nat.
Proof.
  cbv zeta.
  destruct (run [Call Sim.config; Call Sim.config; Advance 0; Call Sim.config;
                 Advance 0; Advance 0; Resume 1; Resume 0; Resume 2]
              (idle (Sim.start (Sim.site true true false)))) as [s|] eqn:Hrun.
  - exists s.
    destruct (ensureBrowser_single_creation
                (Sim.start (Sim.site true true false))
                [Call Sim.config; Call Sim.config; Advance 0; Call Sim.config;
                 Advance 0; Advance 0; Resume 1; Resume 0; Resume 2]
                s eq_refl eq_refl eq_refl Hrun) as (_ & _ & Hl & Ha & _).
    refine (conj eq_refl (conj _ (conj Hl Ha))).
    vm_compute in Hrun. injection Hrun as <-. reflexivity.
  - vm_compute in Hrun. discriminate Hrun.
Defined.

(* ===================================================================== *)
(** * Properties: the call log *)
(* ===================================================================== *)

Section LogLemmas.
Context {W : Type} `{World W}.

Lemma logs_ret {A} (a : A) : logs (W:=W) (ret a).
Proof. intros g. exists []. reflexivity. Qed.

Lemma logs_throw {A} (e : thrown) : logs (@throw W A e).
Proof. intros g. exists []. reflexivity. Qed.

Lemma logs_gets {A} (h : Globals W -> A) : logs (gets h).
Proof. intros g. exists []. reflexivity. Qed.

Lemma logs_query {X} (q : Query X) : logs (W:=W) (query q).
Proof. intros g. exists []. reflexivity. Qed.

Lemma logs_timer (lo hi : Z) : logs (W:=W) (timer lo hi).
Proof. intros g. exists []. reflexivity. Qed.

Lemma logs_act {X} (a : Action X) : logs (W:=W) (act a).
Proof.
  intros g. unfold act. destruct (perform a (world g)) as [r w].
  exists [Performed a (isReturn r)]. reflexivity.
Qed.

Lemma logs_modify (h : Globals W -> Globals W) :
  (forall g, calls (h g) = calls g) -> logs (modify h).
Proof. intros Hh g. exists []. apply Hh. Qed.

Lemma logs_bind {A B} (m : M W A) (k : A -> M W B) :
  logs m -> (forall a, logs (k a)) -> logs (bind m k).
Proof.
  intros Hm Hk g. unfold bind. destruct (Hm g) as [l Hl].
  destruct (m g) as [[a|e] g1]; cbn [snd] in *.
  - destruct (Hk a g1) as [l' Hl']. exists (l' ++ l).
    rewrite Hl', Hl, app_assoc. reflexivity.
  - exists l. exact Hl.
Qed.

Lemma logs_tryCatch {A} (m : M W A) (h : thrown -> M W A) :
  logs m -> (forall e, logs (h e)) -> logs (tryCatch m h).
Proof.
  intros Hm Hh g. unfold tryCatch. destruct (Hm g) as [l Hl].
  destruct (m g) as [[a|e] g1]; cbn [snd] in *.
  - exists l. exact Hl.
  - destruct (Hh e g1) as [l' Hl']. exists (l' ++ l).
    rewrite Hl', Hl, app_assoc. reflexivity.
Qed.

Lemma logs_tryFinally {A} (m : M W A) (fin : M W unit) :
  logs m -> logs fin -> logs (tryFinally m fin).
Proof.
  intros Hm Hf g. unfold tryFinally. destruct (Hm g) as [l Hl].
  destruct (m g) as [r g1]. cbn [snd] in Hl.
  destruct (Hf g1) as [l' Hl'].
  destruct (fin g1) as [[u|e] g2]; cbn [snd] in *;
    exists (l' ++ l); rewrite Hl', Hl, app_assoc; reflexivity.
Qed.

Lemma logs_ignoreErrors (m : M W unit) : logs m -> logs (ignoreErrors m).
Proof. intros Hm. apply logs_tryCatch; [exact Hm|]. intros e. apply logs_ret. Qed.

(** A log that has grown by an entry is not the log it grew from. *)
Lemma log_grown {A} (l : list A) (c : A) (old : list A) :
  l ++ c :: old <> old.
Proof.
  intros Heq. apply (f_equal length) in Heq.
  rewrite length_app in Heq. cbn [length] in Heq. lia.
Qed.
End LogLemmas.

Ltac logs :=
  repeat first
    [ assumption
    | apply logs_ret | apply logs_throw | apply logs_gets
    | apply logs_query | apply logs_timer | apply logs_act
    | apply logs_ignoreErrors
    | apply logs_modify; intros; reflexivity
    | apply logs_bind; [|intros]
    | apply logs_tryCatch; [|intros]
    | apply logs_tryFinally
    | match goal with
      | |- logs (match ?x with _ => _ end) => destruct x
      | |- logs (if ?x then _ else _) => destruct x
      | |- logs (let '(_, _) := ?x in _) => destruct x
      end ].

Section Results.
Context {W : Type} `{World W}.





Lemma bind_throw {A B} (m : M W A) (k : A -> M W B) g e g1 :
  m g = (Throw e, g1) -> bind m k g = (Throw e, g1).
Proof. intros Hm. unfold bind. rewrite Hm. reflexivity. Qed.

Lemma ignoreErrors_total (m : M W unit) (g : Globals W) :
  fst (ignoreErrors m g) = Return tt.
Proof.
  unfold ignoreErrors, tryCatch, ret. destruct (m g) as [[[]|e] g1]; reflexivity.
Qed.
End Results.

(* ===================================================================== *)
(** * Properties: scraping *)
(* ===================================================================== *)

Section Scraping.
Context {W : Type} `{World W} `{HtmlParser} `{JsonApi}.

Lemma classic_live (s : AccountSession) (now : Z) : live s now \/ ~ live s now.
Proof.
  unfold live. destruct (status s);
    try (right; intros [Hst _]; discriminate Hst).
  destruct (Z.lt_ge_cases now (expires s)); [left; auto|right; intros [_ Hlt]; lia].
Qed.

Lemma scrapePrice_live (account : AlzaAccount) (url : jsstring)
    (g : Globals W) (s : AccountSession) :
  sessions g !! email account = Some s ->
  live s (observe DateNow (world g)) ->
  scrapePrice account url g =
  (let* page := act (NewPage (context s)) in scrapePrice_page account url page) g.
Proof.
  intros Hs [Hst Hexp].
  unfold scrapePrice, getSession, bind at 1, gets. cbn beta iota.
  rewrite Hs, Hst. cbn beta iota delta [SessionStatus_eqb].
  unfold bind at 1, query. cbn beta iota.
  destruct (Z.leb_spec (expires s) (observe DateNow (world g))); [lia|].
  reflexivity.
Qed.

(** Without a live session scrapePrice asks nothing of the browser. *)
Lemma scrapePrice_guarded (account : AlzaAccount) (url : jsstring)
    (g : Globals W) :
  (forall s, sessions g !! email account = Some s ->
             ~ live s (observe DateNow (world g))) ->
  calls (snd (scrapePrice account url g)) = calls g.
Proof.
  intros Hdead.
  destruct (sessions g !! email account) as [s|] eqn:Hs.
  - destruct (SessionStatus_eqb (status s) logged_in) eqn:Hst.
    + apply SessionStatus_eqb_eq in Hst.
      assert (Hexp : expires s <= observe DateNow (world g)).
      { destruct (Z.le_gt_cases (expires s) (observe DateNow (world g))); [assumption|].
        exfalso. apply (Hdead s eq_refl). split; [assumption|lia]. }
      rewrite (scrapePrice_expired account url g s Hs Hst Hexp). reflexivity.
    + rewrite scrapePrice_no_session; [reflexivity|].
      intros s' Hs'. rewrite Hs in Hs'. injection Hs' as <-.
      apply SessionStatus_eqb_neq. exact Hst.
  - rewrite scrapePrice_no_session; [reflexivity|]. intros s' Hs'.
    rewrite Hs in Hs'. discriminate.
Qed.

Lemma keeps_scrapePrice_page {T} (f : Globals W -> T) account url page :
  worldBlind f -> (forall X (a : Action X), logBlind f a) ->
  keeps f (scrapePrice_page account url page).
Proof.
  intros Hw Hl. unfold scrapePrice_page, waitForCloudflare.
  repeat first
    [ apply keeps_ret | apply keeps_throw
    | apply keeps_act; [exact Hw|apply Hl]
    | apply keeps_bind; [|intros]
    | apply keeps_tryFinally
    | match goal with
      | |- keeps _ (match ?x with _ => _ end) => destruct x
      | |- keeps _ (let '(_, _) := ?x in _) => destruct x
      end ].
Qed.

Lemma logs_scrapePrice_page account url page :
  logs (W:=W) (scrapePrice_page account url page).
Proof. unfold scrapePrice_page, waitForCloudflare. logs. Qed.

(** scrapePrice with a live session opens one page in the context of the
    session and, however the extraction ends, closes that page last; if
    the page cannot be opened the error is rethrown with nothing to
    close.  The session store is as before in both cases. *)
Theorem scrapePrice_closes_its_page (account : AlzaAccount) (url : jsstring)
    (g : Globals W) (s : AccountSession) :
  sessions g !! email account = Some s ->
  live s (observe DateNow (world g)) ->
  let g' := snd (scrapePrice account url g) in
  sessions g' = sessions g
  /\ match perform (NewPage (context s)) (world g) with
     | (Return page, _) =>
         exists closed between,
           calls g' = Performed (PageClose page) closed :: between
                        ++ Performed (NewPage (context s)) true :: calls g
     | (Throw e, _) =>
         fst (scrapePrice account url g) = Throw e
         /\ calls g' = Performed (NewPage (context s)) false :: calls g
     end.
Proof.
  intros Hs Hlive g'. subst g'.
  rewrite (scrapePrice_live account url g s Hs Hlive).
  assert (Hrun :
    (let* page := act (NewPage (context s)) in scrapePrice_page account url page) g
    = match perform (NewPage (context s)) (world g) with
      | (Return page, w1) =>
          scrapePrice_page account url page
            (log_call (Performed (NewPage (context s)) true) (set_world w1 g))
      | (Throw e, w1) =>
          (Throw e, log_call (Performed (NewPage (context s)) false) (set_world w1 g))
      end).
  { unfold bind, act.
    destruct (perform (NewPage (context s)) (world g)) as [[page|e] w1]; reflexivity. }
  rewrite Hrun. clear Hrun.
  destruct (perform (NewPage (context s)) (world g)) as [[page|e] w1].
  - set (g1 := log_call (Performed (NewPage (context s)) true) (set_world w1 g)).
    split.
    + assert (Hkeep : keeps sessions (scrapePrice_page account url page)).
      { apply keeps_scrapePrice_page;
          [intros ? ?; reflexivity | intros ? ? ? ?; reflexivity]. }
      rewrite (Hkeep g1). reflexivity.
    + unfold scrapePrice_page, tryFinally.
      match goal with
      | |- context [?m g1] =>
          match m with
          | bind _ _ => pose proof (fun Hm : logs m => Hm g1) as Hbody;
                        destruct (m g1) as [r g2]
          end
      end.
      destruct Hbody as [between Hbetween].
      { unfold waitForCloudflare. logs. }
      cbn [snd] in Hbetween. unfold act.
      destruct (perform (PageClose page) (world g2)) as [[[]|e] w3];
        cbn [snd calls log_call];
        eexists; exists between; cbn [calls set_world]; rewrite Hbetween;
        reflexivity.
  - cbn [fst snd]. split; [reflexivity|]. split; reflexivity.
Qed.
End Scraping.

(* ===================================================================== *)
(** * Properties: price extraction *)
(* ===================================================================== *)

Lemma firstSome_Some {A B} (f : A -> option B) (l : list A) (y : B) :
  firstSome f l = Some y -> exists x, In x l /\ f x = Some y.
Proof.
  induction l as [|x l IH]; cbn [firstSome]; [discriminate|].
  destruct (f x) as [y'|] eqn:Hx.
  - intros [= <-]. exists x. split; [left; reflexivity|exact Hx].
  - intros Hy. destruct (IH Hy) as (x' & Hin & Hx').
    exists x'. split; [right; exact Hin|exact Hx'].
Qed.

Section PriceSound.
Context `{HtmlParser} `{JsonApi}.



End PriceSound.

Section ScrapeResults.
Context {W : Type} `{World W} `{HtmlParser} `{JsonApi}.


(** getSessionStatus reports logged_in for exactly the accounts for which
    scrapePrice gets past its guards and asks the browser for a page. *)
Theorem getSessionStatus_logged_in_iff_scrapePrice_starts
    (account : AlzaAccount) (url : jsstring) (g : Globals W) :
  (exists st, fst (getSessionStatus account g) = Return st
              /\ st_status st = logged_in)
  <-> (exists s opened more,
         sessions g !! email account = Some s
         /\ calls (snd (scrapePrice account url g))
            = more ++ Performed (NewPage (context s)) opened :: calls g).
Proof.
  assert (Hstatus : forall s,
    sessions g !! email account = Some s ->
    fst (getSessionStatus account g)
    = Return (if SessionStatus_eqb (status s) logged_in
                 && (expires s <=? observe DateNow (world g))
              then statusOnly account not_started
              else {| st_label := label account; st_status := status s;
                      st_phone := phone s; st_error := error s |})).
  { intros s Hs. unfold getSessionStatus, getSession, bind, gets, query, ret.
    cbn beta iota. rewrite Hs. cbn beta iota.
    destruct (_ && _); reflexivity. }
  split.
  - intros (st & Hret & Hin).
    destruct (sessions g !! email account) as [s|] eqn:Hs.
    + rewrite (Hstatus s eq_refl) in Hret. injection Hret as <-.
      destruct (SessionStatus_eqb (status s) logged_in) eqn:Hst;
        cbn [andb] in Hin.
      * destruct (Z.leb_spec (expires s) (observe DateNow (world g))) as [Hle|Hlt];
          [discriminate Hin|].
        apply SessionStatus_eqb_eq in Hst.
        assert (Hlive : live s (observe DateNow (world g))) by (split; assumption).
        rewrite (scrapePrice_live account url g s Hs Hlive).
        unfold bind, act.
        destruct (perform (NewPage (context s)) (world g)) as [[page|e] w1].
        -- destruct (logs_scrapePrice_page account url page
                       (log_call (Performed (NewPage (context s)) true)
                          (set_world w1 g))) as [more Hmore].
           exists s, true, more. split; [reflexivity|]. exact Hmore.
        -- exists s, false, []. split; reflexivity.
      * cbn [st_status] in Hin. apply SessionStatus_eqb_neq in Hst. contradiction.
    + unfold getSessionStatus, getSession, bind, gets, ret in Hret.
      cbn beta iota in Hret. rewrite Hs in Hret. injection Hret as <-.
      discriminate Hin.
  - intros (s & opened & more & Hs & Hcalls).
    destruct (classic_live s (observe DateNow (world g))) as [Hlive|Hdead].
    + eexists. split; [apply (Hstatus s Hs)|].
      destruct Hlive as [Hst Hexp]. rewrite Hst. cbn [SessionStatus_eqb andb].
      destruct (Z.leb_spec (expires s) (observe DateNow (world g))); [lia|].
      reflexivity.
    + exfalso. rewrite scrapePrice_guarded in Hcalls.
      * symmetry in Hcalls. exact (log_grown _ _ _ Hcalls).
      * intros s' Hs'. rewrite Hs in Hs'. injection Hs' as <-. exact Hdead.
Qed.
End ScrapeResults.

(* ===================================================================== *)
(** * Properties: what the operations leave in the store *)
(* ===================================================================== *)

Section StoreAfter.
Context {W : Type} `{World W} `{HtmlParser} `{JsonApi}.

Lemma getSessionStatus_stored (account : AlzaAccount) (g : Globals W)
    (s : AccountSession) :
  sessions g !! email account = Some s ->
  fst (getSessionStatus account g)
  = Return (if SessionStatus_eqb (status s) logged_in
               && (expires s <=? observe DateNow (world g))
            then statusOnly account not_started
            else {| st_label := label account; st_status := status s;
                    st_phone := phone s; st_error := error s |}).
Proof.
  intros Hs. unfold getSessionStatus, getSession, bind, gets, query, ret.
  cbn beta iota. rewrite Hs. cbn beta iota.
  destruct (_ && _); reflexivity.
Qed.

Lemma stillValid_live (cached : option AccountSession) (now : Z) :
  stillValid cached now = true <-> exists s, cached = Some s /\ live s now.
Proof.
  unfold stillValid, live. split.
  - destruct cached as [s|]; [|discriminate]. intros Hv.
    apply andb_true_iff in Hv as [Hst Hexp].
    apply SessionStatus_eqb_eq in Hst. apply Z.ltb_lt in Hexp. eauto.
  - intros (s & -> & Hst & Hexp). rewrite Hst. cbn [SessionStatus_eqb andb].
    apply Z.ltb_lt. exact Hexp.
Qed.

(** initLogin for an account whose session is logged in and not expired
    answers logged_in at once: nothing is asked of the browser, no time
    passes, and the store and the module variables are as before. *)
Theorem initLogin_reuses_live_session (account : AlzaAccount)
    (config : AppConfig) (g : Globals W) (s : AccountSession) :
  sessions g !! email account = Some s ->
  live s (observe DateNow (world g)) ->
  initLogin account config g = (Return (statusOnly account logged_in), g).
Proof.
  intros Hs Hlive. pose proof (initLogin_spec account config g) as Hspec.
  assert (Hv : stillValid (sessions g !! email account) (observe DateNow (world g))
               = true).
  { apply stillValid_live. exists s. auto. }
  rewrite Hv in Hspec. exact Hspec.
Qed.

(** initLogin, submitVerificationCode and scrapePrice write to the store
    under the e-mail of their account only: the record of every other key
    is as before. *)
Theorem operations_keep_other_sessions (account : AlzaAccount)
    (config : AppConfig) (code url : jsstring) (g : Globals W)
    (key : jsstring) :
  key <> email account ->
  sessions (snd (initLogin account config g)) !! key = sessions g !! key
  /\ sessions (snd (submitVerificationCode account code g)) !! key
     = sessions g !! key
  /\ sessions (snd (scrapePrice account url g)) !! key = sessions g !! key.
Proof.
  intros Hkey. refine (conj _ (conj _ _)).
  - pose proof (initLogin_spec account config g) as Hspec.
    destruct (stillValid _ _).
    + rewrite Hspec. reflexivity.
    + destruct Hspec as (st & _ & Hout). unfold loginOutcome in Hout.
      destruct Hout as [_ Hout].
      destruct (st_status st).
      * destruct Hout as [ctx ->].
        rewrite lookup_insert_ne, lookup_delete_ne by congruence. reflexivity.
      * destruct Hout as (ctx & page & ->).
        rewrite lookup_insert_ne, lookup_delete_ne by congruence. reflexivity.
      * destruct Hout as [_ ->]. rewrite lookup_delete_ne by congruence. reflexivity.
      * contradiction.
  - pose proof (submitVerificationCode_spec account code g) as Hspec.
    destruct (pendingVerification _) as [[s page]|].
    + unfold verifyOutcome in Hspec.
      destruct (fst (submitVerificationCode account code g)) as [st|e];
        [|contradiction].
      destruct Hspec as [_ Hout]. destruct (st_status st).
      * rewrite Hout, lookup_alter_ne by congruence. reflexivity.
      * destruct Hout as [-> _]. reflexivity.
      * destruct Hout as (message & _ & ->).
        rewrite lookup_alter_ne by congruence. reflexivity.
      * contradiction.
    + rewrite Hspec. reflexivity.
  - assert (Hkeep : keeps (fun g => sessions g !! key) (scrapePrice account url)).
    { unfold scrapePrice, getSession, deleteSession, waitForCloudflare.
      repeat first
        [ apply keeps_ret | apply keeps_throw | apply keeps_gets
        | apply keeps_query
        | apply keeps_act; [intros ? ?; reflexivity | intros ? ?; reflexivity]
        | apply keeps_modify; intros g0; cbn [sessions set_sessions];
          apply lookup_delete_ne; congruence
        | apply keeps_bind; [|intros]
        | apply keeps_tryFinally
        | match goal with
          | |- keeps _ (match ?x with _ => _ end) => destruct x
          | |- keeps _ (if ?x then _ else _) => destruct x
          end ]. }
    apply Hkeep.
Qed.

(** When initLogin answers logged_in or verification_required, the next
    getSessionStatus of the account reports the same state, and for a
    pending verification the same phone hint and no error. *)
Theorem initLogin_answer_is_the_stored_state (account : AlzaAccount)
    (config : AppConfig) (g : Globals W) (st : AccountSessionStatus) :
  fst (initLogin account config g) = Return st ->
  st_status st <> failed ->
  exists st',
    fst (getSessionStatus account (snd (initLogin account config g))) = Return st'
    /\ st_label st' = st_label st
    /\ st_status st' = st_status st
    /\ (st_status st = verification_required ->
        st_phone st' = st_phone st /\ st_error st' = None).
Proof.
  intros Hret Hok. pose proof (initLogin_spec account config g) as Hspec.
  destruct (stillValid _ _) eqn:Hv.
  - rewrite Hspec in Hret |- *. cbn [fst snd] in *. injection Hret as <-.
    apply stillValid_live in Hv as (s & Hs & Hst & Hexp).
    rewrite (getSessionStatus_stored account g s Hs), Hst.
    cbn [SessionStatus_eqb andb].
    destruct (Z.leb_spec (expires s) (observe DateNow (world g))); [lia|].
    eexists. split; [reflexivity|]. cbn. repeat split; discriminate.
  - destruct Hspec as (st0 & Hret0 & Hout). rewrite Hret in Hret0.
    injection Hret0 as <-. unfold loginOutcome in Hout.
    destruct Hout as [Hlabel Hout].
    set (g' := snd (initLogin account config g)) in *.
    destruct (st_status st) eqn:Hst.
    + destruct Hout as [ctx Hstore].
      erewrite getSessionStatus_stored
        by (rewrite Hstore; apply lookup_insert_eq).
      cbn [status expires SessionStatus_eqb andb].
      destruct (Z.leb_spec (observe DateNow (world g') + SESSION_TTL)
                  (observe DateNow (world g'))) as [Hle|Hlt].
      { rewrite SESSION_TTL_value in Hle. lia. }
      eexists. split; [reflexivity|]. cbn. repeat split; auto; discriminate.
    + destruct Hout as (ctx & page & Hstore).
      erewrite getSessionStatus_stored
        by (rewrite Hstore; apply lookup_insert_eq).
      cbn [status SessionStatus_eqb andb].
      eexists. split; [reflexivity|]. cbn. repeat split; auto.
    + contradiction.
    + contradiction.
Qed.

(** A successful verification keeps the browsing context and the phone of
    the pending session, releases the verification page, and leaves a live
    session: getSessionStatus reports logged_in. *)
Theorem submitVerificationCode_success_keeps_context (account : AlzaAccount)
    (code : jsstring) (g : Globals W) (s : AccountSession) (page : Page)
    (st : AccountSessionStatus) :
  pendingVerification (sessions g !! email account) = Some (s, page) ->
  fst (submitVerificationCode account code g) = Return st ->
  st_status st = logged_in ->
  let g' := snd (submitVerificationCode account code g) in
  (exists s',
      sessions g' !! email account = Some s'
      /\ context s' = context s /\ phone s' = phone s /\ verifyPage s' = None
      /\ live s' (observe DateNow (world g')))
  /\ fst (getSessionStatus account g')
     = Return {| st_label := label account; st_status := logged_in;
                 st_phone := phone s; st_error := error s |}.
Proof.
  intros Hp Hret Hin g'. subst g'.
  pose proof (submitVerificationCode_spec account code g) as Hspec.
  rewrite Hp, Hret in Hspec. unfold verifyOutcome in Hspec.
  rewrite Hin in Hspec. destruct Hspec as [_ Hstore].
  apply pendingVerification_Some in Hp as (Hs & _ & _).
  set (g' := snd (submitVerificationCode account code g)) in *.
  assert (Hrec : sessions g' !! email account
                 = Some {| context := context s; status := logged_in;
                           phone := phone s; error := error s;
                           verifyPage := None;
                           expires := observe DateNow (world g') + SESSION_TTL |}).
  { rewrite Hstore, lookup_alter_eq, Hs. reflexivity. }
  split.
  - eexists. split; [exact Hrec|]. cbn [context phone verifyPage].
    refine (conj eq_refl (conj eq_refl (conj eq_refl _))).
    split; [reflexivity|]. cbn [expires]. rewrite SESSION_TTL_value. lia.
  - rewrite (getSessionStatus_stored account g' _ Hrec).
    cbn [status expires phone error SessionStatus_eqb andb].
    destruct (Z.leb_spec (observe DateNow (world g') + SESSION_TTL)
                (observe DateNow (world g'))) as [Hle|Hlt]; [|reflexivity].
    rewrite SESSION_TTL_value in Hle. lia.
Qed.

(** When submitVerificationCode marks a pending session failed, the next
    getSessionStatus reports failed with the same error, and a further
    code is refused without a browser call ("No pending verification"):
    only a new login gets the account out of this state. *)
Theorem submitVerificationCode_failure_is_final (account : AlzaAccount)
    (code again : jsstring) (g : Globals W) (s : AccountSession) (page : Page)
    (st : AccountSessionStatus) :
  pendingVerification (sessions g !! email account) = Some (s, page) ->
  fst (submitVerificationCode account code g) = Return st ->
  st_status st = failed ->
  let g' := snd (submitVerificationCode account code g) in
  fst (getSessionStatus account g')
  = Return {| st_label := label account; st_status := failed;
              st_phone := phone s; st_error := st_error st |}
  /\ submitVerificationCode account again g'
     = (Return (failedWith account (js "No pending verification for this account")),
        g').
Proof.
  intros Hp Hret Hfailed g'. subst g'.
  pose proof (submitVerificationCode_spec account code g) as Hspec.
  rewrite Hp, Hret in Hspec. unfold verifyOutcome in Hspec.
  rewrite Hfailed in Hspec. destruct Hspec as (_ & message & Herr & Hstore).
  apply pendingVerification_Some in Hp as (Hs & _ & _).
  set (g' := snd (submitVerificationCode account code g)) in *.
  assert (Hrec : sessions g' !! email account
                 = Some {| context := context s; status := failed;
                           phone := phone s; error := Some message;
                           verifyPage := None; expires := expires s |}).
  { rewrite Hstore, lookup_alter_eq, Hs. reflexivity. }
  split.
  - rewrite (getSessionStatus_stored account g' _ Hrec), Herr. reflexivity.
  - pose proof (submitVerificationCode_spec account again g') as Hagain.
    rewrite Hrec in Hagain. exact Hagain.
Qed.
End StoreAfter.

(* ===================================================================== *)
(** * Properties: creating and closing the browser *)
(* ===================================================================== *)

Section BrowserLifecycle.
Context {W : Type} `{World W} `{HtmlParser} `{JsonApi}.

(** The four actions of a creation, as log entries. *)
Lemma initBrowser_trace (config : AppConfig) (g : Globals W) :
  (forall b, browser g = Some b -> observe (IsConnected b) (world g) = false) ->
  exists killed cmd args url,
    let kill := Performed (KillPort (chromeDebugPort config)) killed in
    let spawn := Performed (Spawn cmd args) in
    let poll := Performed (PollChallengeCleared (chromeDebugPort config) url 120000) in
    let connect :=
      Performed (ConnectOverCDP
                   (js "http://127.0.0.1:" ++ showInt (chromeDebugPort config))) in
    let g' := snd (initBrowser config g) in
    last args = Some url
    /\ browserInitPromise g' = browserInitPromise g
    /\ promisesMade g' = promisesMade g
    /\ match fst (initBrowser config g) with
       | Return b =>
           calls g' = [connect true; poll true; spawn true; kill] ++ calls g
           /\ browser g' = Some b
       | Throw _ =>
           browser g' = browser g
           /\ (calls g' = [spawn false; kill] ++ calls g
               \/ calls g' = [poll false; spawn true; kill] ++ calls g
               \/ calls g' = [connect false; poll true; spawn true; kill] ++ calls g)
       end.
Proof.
  intros Hdown.
  assert (Hnone : connectedBrowser g = (Return None, g)).
  { rewrite connectedBrowser_spec. destruct (browser g) as [b|] eqn:Hb; [|reflexivity].
    rewrite (Hdown b eq_refl). reflexivity. }
  destruct (perform (KillPort (chromeDebugPort config)) (world g)) as [rk wk] eqn:Hkill.
  set (gk := log_call (Performed (KillPort (chromeDebugPort config)) (isReturn rk))
               (set_world wk g)).
  assert (Hprelude : initBrowser_prelude config g = (Return None, gk)).
  { unfold initBrowser_prelude. rewrite (bind_return _ _ _ _ _ Hnone).
    unfold ignoreErrors, tryCatch, bind, act, ret. rewrite Hkill.
    destruct rk as [[]|e]; reflexivity. }
  exists (isReturn rk).
  unfold initBrowser. rewrite (bind_return _ _ _ _ _ Hprelude).
  unfold initBrowser_launch, initBrowser_challenge, initBrowser_connect, sleep,
    bind, timer, query, act, modify, ret.
  cbn [world set_world log_call].
  match goal with
  | |- context [perform (Spawn ?c ?a) ?w] =>
      exists c, a; destruct (perform (Spawn c a) w) as [[proc|e] ws]
  end.
  2:{ eexists. cbv zeta. cbn [fst snd].
      refine (conj _ (conj eq_refl (conj eq_refl (conj eq_refl _)))).
      - rewrite last_app. reflexivity.
      - left. reflexivity. }
  cbn [world set_world log_call set_chromeProcess].
  match goal with
  | |- context [perform (PollChallengeCleared ?p ?u ?t) ?w] =>
      exists u; destruct (perform (PollChallengeCleared p u t) w) as [[[]|e] wp]
  end.
  2:{ cbv zeta. cbn [fst snd].
      refine (conj _ (conj eq_refl (conj eq_refl (conj eq_refl _)))).
      - rewrite last_app. reflexivity.
      - right. left. reflexivity. }
  cbn [world set_world log_call].
  match goal with
  | |- context [perform (ConnectOverCDP ?ep) ?w] =>
      destruct (perform (ConnectOverCDP ep) w) as [[b|e] wc]
  end; cbv zeta; cbn [fst snd].
  - refine (conj _ (conj eq_refl (conj eq_refl (conj eq_refl eq_refl)))).
    rewrite last_app. reflexivity.
  - refine (conj _ (conj eq_refl (conj eq_refl (conj eq_refl _)))).
    + rewrite last_app. reflexivity.
    + right. right. reflexivity.
Qed.

(** ensureBrowser with no connected browser and no creation in flight runs
    one creation: the debug port is freed (a failure of that is ignored),
    the browser is spawned on the authorisation URL, the challenge is
    polled on that URL, and only when the poll reports it cleared is the
    automation connection attached.  The handle returned is the one kept
    in the module variable.  Whether the creation succeeds or throws, no
    pending promise is left behind, so a later call starts afresh. *)
Theorem ensureBrowser_creates_in_order (config : AppConfig) (g : Globals W) :
  (forall b, browser g = Some b -> observe (IsConnected b) (world g) = false) ->
  browserInitPromise g = None ->
  exists killed cmd args url,
    let kill := Performed (KillPort (chromeDebugPort config)) killed in
    let spawn := Performed (Spawn cmd args) in
    let poll := Performed (PollChallengeCleared (chromeDebugPort config) url 120000) in
    let connect :=
      Performed (ConnectOverCDP
                   (js "http://127.0.0.1:" ++ showInt (chromeDebugPort config))) in
    let g' := snd (ensureBrowser config g) in
    last args = Some url
    /\ browserInitPromise g' = None
    /\ match fst (ensureBrowser config g) with
       | Return b =>
           calls g' = [connect true; poll true; spawn true; kill] ++ calls g
           /\ browser g' = Some b
       | Throw _ =>
           browser g' = browser g
           /\ (calls g' = [spawn false; kill] ++ calls g
               \/ calls g' = [poll false; spawn true; kill] ++ calls g
               \/ calls g' = [connect false; poll true; spawn true; kill] ++ calls g)
       end.
Proof.
  intros Hdown Hpending.
  set (g2 := set_browserInitPromise (Some (promisesMade g))
               (set_promisesMade (S (promisesMade g)) g)).
  assert (Hrun : ensureBrowser config g
                 = (fst (initBrowser config g2),
                    set_browserInitPromise None (snd (initBrowser config g2)))).
  { unfold ensureBrowser, bind at 1. rewrite connectedBrowser_spec.
    destruct (browser g) as [b|] eqn:Hb.
    - rewrite (Hdown b eq_refl). unfold bind, gets, modify, tryFinally.
      rewrite Hpending. fold g2. destruct (initBrowser config g2); reflexivity.
    - unfold bind, gets, modify, tryFinally.
      rewrite Hpending. fold g2. destruct (initBrowser config g2); reflexivity. }
  rewrite Hrun. cbn [fst snd].
  destruct (initBrowser_trace config g2 Hdown)
    as (killed & cmd & args & url & Hlast & _ & _ & Houtcome).
  exists killed, cmd, args, url. cbv zeta.
  refine (conj Hlast (conj eq_refl _)).
  destruct (fst (initBrowser config g2)); exact Houtcome.
Qed.

Lemma ignoreErrors_act_run (a : Action unit) (g : Globals W) :
  exists ok w,
    ignoreErrors (act a) g = (Return tt, log_call (Performed a ok) (set_world w g)).
Proof.
  unfold ignoreErrors, tryCatch, act, ret.
  destruct (perform a (world g)) as [[[]|e] w]; do 2 eexists; reflexivity.
Qed.

(** The loop of closeBrowser completes, asks every context to close, and
    changes nothing but the world and the log. *)
Lemma closeSessions_spec (l : list (jsstring * AccountSession)) :
  forall g : Globals W,
  exists g' added,
    closeSessions l g = (Return tt, g')
    /\ sessions g' = sessions g /\ browser g' = browser g
    /\ chromeProcess g' = chromeProcess g
    /\ calls g' = added ++ calls g
    /\ forall key s, In (key, s) l ->
         exists ok, In (Performed (ContextClose (context s)) ok) added.
Proof.
  induction l as [|[key s] l IH]; intros g.
  - exists g, []. refine (conj eq_refl (conj eq_refl (conj eq_refl (conj eq_refl (conj eq_refl _))))).
    intros key s Hin. destruct Hin.
  - cbn [closeSessions].
    assert (Hpage : exists g1 added1,
               (match verifyPage s with
                | Some p => ignoreErrors (act (PageClose p))
                | None => ret tt
                end) g = (Return tt, g1)
               /\ sessions g1 = sessions g /\ browser g1 = browser g
               /\ chromeProcess g1 = chromeProcess g
               /\ calls g1 = added1 ++ calls g).
    { destruct (verifyPage s) as [p|].
      - destruct (ignoreErrors_act_run (PageClose p) g) as (ok & w & ->).
        do 2 eexists. split; [reflexivity|].
        refine (conj eq_refl (conj eq_refl (conj eq_refl _))).
        instantiate (1 := [_]). reflexivity.
      - exists g, []. repeat split; reflexivity. }
    destruct Hpage as (g1 & added1 & Hrun1 & Hs1 & Hb1 & Hp1 & Hc1).
    rewrite (bind_return _ _ _ _ _ Hrun1).
    destruct (ignoreErrors_act_run (ContextClose (context s)) g1) as (ok & w & Hrun2).
    rewrite (bind_return _ _ _ _ _ Hrun2).
    destruct (IH (log_call (Performed (ContextClose (context s)) ok) (set_world w g1)))
      as (g' & added & Hrun & Hs & Hb & Hp & Hc & Hall).
    exists g', (added ++ Performed (ContextClose (context s)) ok :: added1).
    split; [exact Hrun|]. cbn [sessions browser chromeProcess calls log_call set_world] in *.
    refine (conj _ (conj _ (conj _ (conj _ _)))); try congruence.
    + rewrite Hc, Hc1, <- app_assoc. reflexivity.
    + intros key' s' [[= <- <-]|Hin].
      * exists ok. apply in_or_app. right. left. reflexivity.
      * destruct (Hall key' s' Hin) as [ok' Hok']. exists ok'.
        apply in_or_app. left. exact Hok'.
Qed.

(** closeBrowser asks the context of every stored session to close,
    empties the store and forgets the browser handle, whatever the
    closing calls answer; it throws only if killing the browser process
    does, and when it returns the process handle is forgotten too.
    Afterwards getSessionStatus reports not_started for every account. *)
Theorem closeBrowser_releases_everything (g : Globals W) :
  let g' := snd (closeBrowser g) in
  sessions g' = ∅
  /\ browser g' = None
  /\ (forall key s, sessions g !! key = Some s ->
       exists ok, In (Performed (ContextClose (context s)) ok) (calls g'))
  /\ (fst (closeBrowser g) = Return tt -> chromeProcess g' = None)
  /\ (chromeProcess g = None -> fst (closeBrowser g) = Return tt)
  /\ forall account,
       fst (getSessionStatus account g') = Return (statusOnly account not_started).
Proof.
  destruct (closeSessions_spec (map_to_list (sessions g)) g)
    as (g1 & added & Hrun1 & Hs1 & Hb1 & Hp1 & Hc1 & Hclosed).
  set (g2 := set_sessions ∅ g1).
  assert (Hbrowser : exists g3 added3,
             (forall k : M W unit,
                 (let* b := gets browser in
                  match b with
                  | Some b => ignoreErrors (act (BrowserClose b)) ;;; modify (set_browser None)
                  | None => ret tt
                  end ;;; k) g2 = k g3)
             /\ sessions g3 = ∅ /\ browser g3 = None
             /\ chromeProcess g3 = chromeProcess g
             /\ calls g3 = added3 ++ calls g1).
  { destruct (browser g1) as [b|] eqn:Hb.
    - destruct (ignoreErrors_act_run (BrowserClose b) g2) as (ok & w & Hrun).
      do 2 eexists. split.
      + intros k. unfold bind at 1, gets. cbn [browser set_sessions g2]. rewrite Hb.
        unfold bind at 1. unfold bind at 1. fold g2. rewrite Hrun.
        unfold modify. reflexivity.
      + cbn. refine (conj eq_refl (conj eq_refl (conj Hp1 _))).
        instantiate (1 := [_]). reflexivity.
    - exists g2, []. split.
      + intros k. unfold bind at 1, gets. cbn [browser set_sessions g2]. rewrite Hb.
        reflexivity.
      + cbn. refine (conj eq_refl (conj Hb (conj Hp1 eq_refl))). }
  destruct Hbrowser as (g3 & added3 & Hrun3 & Hs3 & Hb3 & Hp3 & Hc3).
  assert (Hshape : closeBrowser g =
            (let* proc := gets chromeProcess in
             match proc with
             | Some p => act (ProcessKill p) ;;; modify (set_chromeProcess None)
             | None => ret tt
             end) g3).
  { unfold closeBrowser. unfold bind at 1, gets.
    rewrite (bind_return _ _ _ _ _ Hrun1).
    unfold bind at 1, modify. fold g2.
    apply Hrun3. }
  assert (Hend : exists r g4 added4,
             closeBrowser g = (r, g4)
             /\ sessions g4 = ∅ /\ browser g4 = None
             /\ calls g4 = added4 ++ calls g3
             /\ (r = Return tt -> chromeProcess g4 = None)
             /\ (chromeProcess g = None -> r = Return tt)).
  { rewrite Hshape. unfold bind at 1, gets. rewrite Hp3.
    destruct (chromeProcess g) as [p|].
    - unfold bind, act, modify.
      destruct (perform (ProcessKill p) (world g3)) as [[[]|e] w].
      + do 3 eexists. split; [reflexivity|]. cbn.
        refine (conj Hs3 (conj Hb3 (conj _ (conj _ _)))).
        * instantiate (1 := [_]). reflexivity.
        * reflexivity.
        * discriminate.
      + do 3 eexists. split; [reflexivity|]. cbn.
        refine (conj Hs3 (conj Hb3 (conj _ (conj _ _)))).
        * instantiate (1 := [_]). reflexivity.
        * discriminate.
        * discriminate.
    - exists (Return tt), g3, []. split; [reflexivity|].
      refine (conj Hs3 (conj Hb3 (conj eq_refl (conj _ _)))); auto. }
  destruct Hend as (r & g4 & added4 & Hrun & Hs4 & Hb4 & Hc4 & Hkilled & Hnoproc).
  rewrite Hrun. cbn [fst snd].
  refine (conj Hs4 (conj Hb4 (conj _ (conj Hkilled (conj Hnoproc _))))).
  - intros key s Hks.
    assert (Hin : In (key, s) (map_to_list (sessions g))).
    { apply list_elem_of_In, elem_of_map_to_list. exact Hks. }
    destruct (Hclosed key s Hin) as [ok Hok]. exists ok.
    rewrite Hc4, Hc3, Hc1. apply in_or_app. right. apply in_or_app. right.
    apply in_or_app. left. exact Hok.
  - intros account. unfold getSessionStatus, getSession, bind, gets, ret.
    cbn beta iota. rewrite Hs4, lookup_empty. reflexivity.
Qed.
End BrowserLifecycle.

(* ===================================================================== *)
(** * Properties: the HTTP handlers *)
(* ===================================================================== *)

Lemma startsWith_prefix (p s : jsstring) :
  startsWith p s = true <-> s = p ++ drop (length p) s.
Proof.
  revert s. induction p as [|a p IH]; intros s.
  - cbn. split; auto.
  - destruct s as [|b s]; cbn [startsWith length drop app].
    + split; discriminate.
    + rewrite andb_true_iff, Z.eqb_eq, IH. split.
      * intros [-> Hs]. f_equal. exact Hs.
      * intros [= <- Hs]. auto.
Qed.

Section HandlerProperties.
Context {W : Type} `{World W} `{HtmlParser} `{JsonApi}.

(** The middleware lets a request through exactly when its Authorization
    header is the word Bearer, one space and the configured key, compared
    case-sensitively; every other request, and one without the header,
    is answered 401 without running the handler or touching the state. *)
Theorem authMiddleware_accepts_exactly_the_key (apiKey : jsstring)
    (authHeader : option jsstring) (next : M W Index.Reply) (g : Globals W) :
  (authHeader = Some (js "Bearer " ++ apiKey) ->
   Index.authMiddleware apiKey authHeader next g = next g)
  /\ (authHeader <> Some (js "Bearer " ++ apiKey) ->
      Index.authMiddleware apiKey authHeader next g
      = (Return (Index.errorReply (js "UNAUTHORIZED")
                   (js "Invalid or missing API key") 401), g)).
Proof.
  unfold Index.authMiddleware, Index.UNAUTHORIZED. split.
  - intros ->.
    assert (Hstart : startsWith (js "Bearer ") (js "Bearer " ++ apiKey) = true).
    { apply startsWith_prefix. reflexivity. }
    rewrite Hstart.
    change (drop 7 (js "Bearer " ++ apiKey)) with apiKey.
    unfold jsstring_eqb. rewrite bool_decide_eq_true_2 by reflexivity.
    reflexivity.
  - intros Hother. destruct authHeader as [h|]; [|reflexivity].
    destruct (truthy h); [|reflexivity]. cbn [negb orb].
    destruct (startsWith (js "Bearer ") h) eqn:Hstart; [|reflexivity].
    cbn [negb]. unfold jsstring_eqb.
    destruct (bool_decide_reflect (drop 7 h = apiKey)) as [Hkey|Hkey];
      [|reflexivity].
    exfalso. apply Hother. apply startsWith_prefix in Hstart.
    rewrite Hstart. change (length (js "Bearer ")) with 7%nat.
    rewrite Hkey. reflexivity.
Qed.



Lemma initLogin_total (account : AlzaAccount) (config : AppConfig)
    (g : Globals W) :
  exists st, fst (initLogin account config g) = Return st
             /\ st_label st = label account.
Proof.
  pose proof (initLogin_spec account config g) as Hspec.
  destruct (stillValid _ _).
  - rewrite Hspec. eexists. split; reflexivity.
  - destruct Hspec as (st & Hret & Hlabel & _). eauto.
Qed.

Lemma authInit_loop_spec (config : AppConfig) (todo : list AlzaAccount) :
  forall (done : list AccountSessionStatus) (g : Globals W),
  exists statuses,
    fst (Index.authInit_loop config todo done g) = Return (done ++ statuses)
    /\ map st_label statuses = map label todo.
Proof.
  induction todo as [|account rest IH]; intros done g.
  - exists []. cbn. rewrite app_nil_r. auto.
  - cbn [Index.authInit_loop].
    destruct (initLogin_total account config g) as (st & Hret & Hlabel).
    assert (Hstep : tryCatch (initLogin account config)
                      (fun e => ret (failedWith account
                                       (errorMessage e (js "Unknown error")))) g
                    = (Return st, snd (initLogin account config g))).
    { unfold tryCatch. destruct (initLogin account config g) as [r g1].
      cbn [fst snd] in *. subst r. reflexivity. }
    rewrite (bind_return _ _ _ _ _ Hstep).
    destruct (IH (done ++ [st]) (snd (initLogin account config g)))
      as (statuses & Hrun & Hlabels).
    exists (st :: statuses). rewrite Hrun, <- app_assoc. split; [reflexivity|].
    cbn [map]. rewrite Hlabel, Hlabels. reflexivity.
Qed.

(** POST /auth/init answers 200 with one status for every configured
    account, in the order of the configuration and under the label of the
    account, whatever happens to the single logins: it never fails as a
    whole. *)
Theorem authInit_answers_for_every_account (accounts : list AlzaAccount)
    (config : AppConfig) (g : Globals W) :
  exists statuses,
    fst (Index.authInit accounts config g)
    = Return (Index.json (Index.AccountsBody statuses) 200)
    /\ map st_label statuses = map label accounts.
Proof.
  destruct (authInit_loop_spec config accounts [] g) as (statuses & Hrun & Hlabels).
  exists statuses. split; [|exact Hlabels].
  unfold Index.authInit, bind.
  destruct (Index.authInit_loop config accounts [] g) as [r g1].
  cbn [fst] in Hrun. rewrite Hrun. reflexivity.
Qed.









End HandlerProperties.


(* ===================================================================== *)
(** * Properties: the comparison *)
(* ===================================================================== *)

(** ** The order of prices *)

Lemma Qred_sign (q : Q) : (0 <? Qnum (Qred q)) = (0 <? Qnum q).
Proof.
  pose proof (Qred_correct q) as Heq. unfold Qeq in Heq.
  destruct (Z.ltb_spec 0 (Qnum (Qred q))), (Z.ltb_spec 0 (Qnum q));
    first [reflexivity | exfalso; nia].
Qed.

Lemma dearer_finite (x y : Q) :
  dearer (Finite x) (Finite y) = true <-> (y < x)%Q.
Proof.
  unfold dearer, subtract, num, gtZero. rewrite Qred_sign, Z.ltb_lt.
  unfold Qlt, Qminus, Qplus, Qopp. cbn [Qnum Qden]. lia.
Qed.

Lemma dearer_finite_false (x y : Q) :
  dearer (Finite x) (Finite y) = false <-> (x <= y)%Q.
Proof.
  rewrite <- not_true_iff_false, dearer_finite. split.
  - apply Qnot_lt_le.
  - apply Qle_not_lt.
Qed.

Ltac number_cases :=
  repeat match goal with
         | n : number |- _ => destruct n as [|[]|?]
         end;
  try discriminate; try reflexivity.


Lemma dearer_not_trans (a b c : number) :
  isNaN a = false -> isNaN b = false -> isNaN c = false ->
  dearer a b = false -> dearer b c = false -> dearer a c = false.
Proof.
  number_cases. intros _ _ _. rewrite !dearer_finite_false. apply Qle_trans.
Qed.

Lemma dearer_below (a h y : number) :
  isNaN a = false -> isNaN h = false -> isNaN y = false ->
  dearer a h = false -> dearer y h = true -> dearer a y = false.
Proof.
  number_cases. intros _ _ _. rewrite !dearer_finite_false, dearer_finite.
  intros Hah Hhy. apply Qlt_le_weak. eapply Qle_lt_trans; eassumption.
Qed.


(** ** The sort *)

Section SortProperties.
Context {A : Type} (comparefn : A -> A -> number) (D : A -> Prop).

Local Abbreviation above := (fun x y => gtZero (comparefn x y)).
Local Abbreviation notAbove := (fun x y => gtZero (comparefn x y) = false).

Hypothesis not_trans : forall a b c, D a -> D b -> D c ->
  above a b = false -> above b c = false -> above a c = false.
Hypothesis below : forall a h y, D a -> D h -> D y ->
  above a h = false -> above y h = true -> above a y = false.
Hypothesis asym : forall a b, above a b = true -> above b a = false.



(** The first element of the sorted array: the first of the array that no
    other undercuts. *)
Lemma sortBy_first (l : list A) :
  Forall D l ->
  match sortBy comparefn l with
  | [] => l = []
  | h :: _ =>
      exists before after,
        l = before ++ h :: after
        /\ Forall (fun x => above x h = true) before
        /\ Forall (fun x => above h x = false) after
  end.
Proof.
  induction l as [|x l IH]; intros HD; [reflexivity|].
  apply Forall_cons in HD as [Hx HD]. specialize (IH HD).
  cbn [sortBy foldr]. fold (sortBy comparefn l).
  destruct (sortBy comparefn l) as [|h t]; cbn [insertSorted].
  - subst l. exists [], []. repeat split; constructor.
  - destruct IH as (before & after & -> & Hbefore & Hafter).
    assert (Hh : D h).
    { rewrite Forall_app, Forall_cons in HD. tauto. }
    destruct (gtZero (comparefn x h)) eqn:Hxh.
    + exists (x :: before), after. split; [reflexivity|].
      split; [constructor; assumption|assumption].
    + exists [], (before ++ h :: after). split; [reflexivity|].
      split; [constructor|].
      rewrite Forall_app, Forall_cons in HD. destruct HD as (HDb & _ & HDa).
      rewrite Forall_app, Forall_cons. refine (conj _ (conj Hxh _)).
      * rewrite Forall_forall in Hbefore, HDb |- *. intros y Hy.
        eapply below; eauto.
      * rewrite Forall_forall in Hafter, HDa |- *. intros y Hy.
        eapply not_trans; eauto.
Qed.



End SortProperties.

(** ** The response *)

Lemma availableResults_settled
    (settled : list (AlzaAccount * completion ScrapedData)) :
  Index.availableResults
    (map (fun ar => Index.accountResult (fst ar) (snd ar)) settled)
  = fulfilledPrices settled.
Proof.
  unfold Index.availableResults, fulfilledPrices.
  induction settled as [|[a [d|e]] l IH]; [reflexivity| |];
    cbn [map omap fst snd Index.accountResult option_bind mbind];
    unfold omap in *; cbn; rewrite IH; reflexivity.
Qed.

Section PriceOrder.

Let priced (lp : jsstring * number) : Prop := isNaN (snd lp) = false.

Lemma byPrice_first (l : list (jsstring * number)) :
  Forall priced l ->
  match sortBy Index.byPrice l with
  | [] => l = []
  | h :: _ =>
      exists before after,
        l = before ++ h :: after
        /\ Forall (fun x => dearer (snd x) (snd h) = true) before
        /\ Forall (fun x => dearer (snd h) (snd x) = false) after
  end.
Proof.
  apply (sortBy_first Index.byPrice priced).
  - intros a b c Ha Hb Hc. apply dearer_not_trans; assumption.
  - intros a h y Ha Hh Hy. apply dearer_below; assumption.
Qed.

End PriceOrder.

(** The cheapest account of a comparison is the first of the accounts
    with a price that no other account with a price undercuts: every
    such account before it is strictly dearer, none after it is cheaper.
    There is none exactly when no scrapePrice was fulfilled. *)
Theorem compare_response_cheapest (url : jsstring)
    (settled : list (AlzaAccount * completion ScrapedData)) :
  Forall (fun lp => isNaN (snd lp) = false) (fulfilledPrices settled) ->
  match Index.cmp_cheapest (Index.compare_response url settled) with
  | None => fulfilledPrices settled = []
  | Some cheapest =>
      exists p before after,
        fulfilledPrices settled = before ++ (cheapest, p) :: after
        /\ Forall (fun x => dearer (snd x) p = true) before
        /\ Forall (fun x => dearer p (snd x) = false) after
  end.
Proof.
  intros Hpriced. unfold Index.compare_response. cbn [Index.cmp_cheapest].
  rewrite availableResults_settled.
  pose proof (byPrice_first (fulfilledPrices settled) Hpriced) as Hfirst.
  destruct (sortBy Index.byPrice (fulfilledPrices settled)) as [|[l p] t].
  - exact Hfirst.
  - destruct Hfirst as (before & after & Hsplit & Hbefore & Hafter).
    exists p, before, after. auto.
Qed.


Lemma productNameFrom_first (name : jsstring)
    (settled : list (AlzaAccount * completion ScrapedData)) :
  Index.productNameFrom name (map snd settled)
  = if jsstring_eqb name Index.UNKNOWN_PRODUCT
    then default Index.UNKNOWN_PRODUCT
           (head (List.filter
                    (fun p => negb (jsstring_eqb p Index.UNKNOWN_PRODUCT))
                    (fulfilledProducts settled)))
    else name.
Proof.
  revert name. induction settled as [|[a [d|e]] l IH]; intros name.
  - change (Index.productNameFrom name (map snd [])) with name.
    change (fulfilledProducts []) with (@nil jsstring).
    cbn [List.filter head default].
    destruct (jsstring_eqb name Index.UNKNOWN_PRODUCT) eqn:Hn; [|reflexivity].
    apply bool_decide_eq_true in Hn. exact Hn.
  - cbn [map snd Index.productNameFrom]. rewrite IH.
    change (fulfilledProducts ((a, Return d) :: l))
      with (product d :: fulfilledProducts l).
    cbn [List.filter].
    destruct (jsstring_eqb name Index.UNKNOWN_PRODUCT) eqn:Hn; [|rewrite Hn; reflexivity].
    destruct (jsstring_eqb (product d) Index.UNKNOWN_PRODUCT); reflexivity.
  - cbn [map snd Index.productNameFrom]. rewrite IH. reflexivity.
Qed.

(** The response of a comparison has one entry for every account that was
    scraped, in their order and under their label, with the price where
    scrapePrice was fulfilled and the error message where it was not; its
    product name is the first name that a fulfilled result gives and that
    is not the placeholder, and the placeholder when there is none. *)
Theorem compare_response_entries_and_product (url : jsstring)
    (settled : list (AlzaAccount * completion ScrapedData)) :
  let r := Index.compare_response url settled in
  Index.cmp_url r = url
  /\ Forall2 (fun ar entry =>
               match snd ar with
               | Return d =>
                   entry = Index.PriceResult (label (fst ar)) (price d)
                             (priceFormatted d)
               | Throw e =>
                   entry = Index.PriceError (label (fst ar))
                             (errorMessage e (js "Unknown error"))
               end) settled (Index.cmp_accounts r)
  /\ Index.cmp_product r
     = default (js "Unknown Product")
         (head (List.filter (fun p => negb (jsstring_eqb p (js "Unknown Product")))
                  (fulfilledProducts settled))).
Proof.
  cbv zeta. unfold Index.compare_response.
  cbn [Index.cmp_url Index.cmp_accounts Index.cmp_product].
  refine (conj eq_refl (conj _ _)).
  - induction settled as [|[a [d|e]] l IH]; cbn [map];
      constructor; first [reflexivity | exact IH].
  - rewrite productNameFrom_first. reflexivity.
Qed.

(* ===================================================================== *)
(** * Properties: the configuration *)
(* ===================================================================== *)

Lemma showInt_inj (i j : Z) : 0 <= i -> 0 <= j -> showInt i = showInt j -> i = j.
Proof.
  intros Hi Hj. unfold showInt.
  destruct (Z.ltb_spec i 0); [lia|]. destruct (Z.ltb_spec j 0); [lia|].
  intros Heq.
  destruct (digits_spec i Hi) as (_ & _ & Hvi).
  destruct (digits_spec j Hj) as (_ & _ & Hvj).
  rewrite <- Hvi, <- Hvj, Heq. reflexivity.
Qed.

Lemma accountKey_inj (i j : Z) (suffix : jsstring) :
  0 <= i -> 0 <= j ->
  Config.accountPrefix i ++ suffix = Config.accountPrefix j ++ suffix -> i = j.
Proof.
  intros Hi Hj Heq. apply app_inv_tail in Heq.
  unfold Config.accountPrefix in Heq. apply app_inv_head in Heq.
  apply showInt_inj; assumption.
Qed.

Section LoadAccounts.
Variable env : Config.Env.

Lemma loadAccountsFrom_step (fuel : nat) (i : Z) (acc : list AlzaAccount) :
  Config.loadAccountsFrom env (S fuel) i acc
  = match accountAt env i with
    | Some a => Config.loadAccountsFrom env fuel (i + 1) (acc ++ [a])
    | None => Some (loadOutcome env acc i)
    end.
Proof.
  cbn [Config.loadAccountsFrom].
  unfold accountAt, loadOutcome, isGap, missingNames, accountVar.
  destruct (Config.nonEmpty (env !! (Config.accountPrefix i ++ js "_EMAIL")));
    destruct (Config.nonEmpty (env !! (Config.accountPrefix i ++ js "_PASSWORD")));
    destruct (Config.nonEmpty (env !! (Config.accountPrefix i ++ js "_LABEL")));
    reflexivity.
Qed.

Lemma accountsFrom_tail (i : Z) (a : AlzaAccount) (loaded : list AlzaAccount) :
  accountsFrom env i (a :: loaded) ->
  accountAt env i = Some a /\ accountsFrom env (i + 1) loaded.
Proof.
  intros Hall. split.
  - specialize (Hall 0%nat a eq_refl). rewrite Z.add_0_r in Hall. exact Hall.
  - intros k b Hk. specialize (Hall (S k) b Hk).
    rewrite Nat2Z.inj_succ in Hall.
    replace (i + 1 + Z.of_nat k) with (i + Z.succ (Z.of_nat k)) by lia.
    exact Hall.
Qed.

(** With fuel for one iteration more than there are complete accounts,
    the loop reads them and ends at the first index that is not
    complete. *)
Lemma loadAccountsFrom_spec (loaded : list AlzaAccount) :
  forall (fuel : nat) (i : Z) (acc : list AlzaAccount),
  accountsFrom env i loaded ->
  accountAt env (i + Z.of_nat (length loaded)) = None ->
  (length loaded < fuel)%nat ->
  Config.loadAccountsFrom env fuel i acc
  = Some (match loadOutcome env loaded (i + Z.of_nat (length loaded)) with
          | Return l => Return (acc ++ l)
          | Throw e => Throw e
          end).
Proof.
  induction loaded as [|a loaded IH]; intros fuel i acc Hall Hnext Hfuel.
  - destruct fuel as [|fuel]; [cbn in Hfuel; lia|].
    cbn [length Z.of_nat] in *. rewrite Z.add_0_r in *.
    rewrite loadAccountsFrom_step, Hnext.
    unfold loadOutcome. destruct (isGap env i); [|reflexivity].
    rewrite app_nil_r. reflexivity.
  - destruct fuel as [|fuel]; [cbn in Hfuel; lia|].
    apply accountsFrom_tail in Hall as [Ha Hall].
    rewrite loadAccountsFrom_step, Ha.
    cbn [length] in *. rewrite Nat2Z.inj_succ in *.
    replace (i + Z.succ (Z.of_nat (length loaded)))
      with (i + 1 + Z.of_nat (length loaded)) in * by lia.
    rewrite (IH fuel (i + 1) (acc ++ [a]) Hall Hnext) by lia.
    unfold loadOutcome. destruct (isGap env _); [|reflexivity].
    rewrite <- app_assoc. reflexivity.
Qed.

Lemma accountAt_email (i : Z) (a : AlzaAccount) :
  accountAt env i = Some a ->
  is_Some (env !! (Config.accountPrefix i ++ js "_EMAIL"))
  /\ email a <> [] /\ password a <> [] /\ label a <> [].
Proof.
  unfold accountAt, accountVar, Config.nonEmpty.
  destruct (env !! (Config.accountPrefix i ++ js "_EMAIL")) as [[|c e]|];
    cbn [truthy]; try discriminate.
  destruct (env !! (Config.accountPrefix i ++ js "_PASSWORD")) as [[|c' p]|];
    cbn [truthy]; try discriminate.
  destruct (env !! (Config.accountPrefix i ++ js "_LABEL")) as [[|c'' l]|];
    cbn [truthy]; try discriminate.
  intros [= <-]. cbn [email password label]. repeat split; eauto; discriminate.
Qed.

(** Every complete account has a variable of its own, so there are no
    more of them than variables in the environment. *)
Lemma accountsFrom_bound (loaded : list AlzaAccount) :
  accountsFrom env 1 loaded -> (length loaded <= size env)%nat.
Proof.
  intros Hall.
  set (key := fun k : nat => Config.accountPrefix (1 + Z.of_nat k) ++ js "_EMAIL").
  set (keys := key <$> seq 0 (length loaded)).
  assert (Hnodup : NoDup keys).
  { apply NoDup_fmap_2_strong; [|apply NoDup_seq].
    intros k1 k2 _ _ Heq. apply accountKey_inj in Heq; lia. }
  assert (Hsub : (list_to_set keys : gset jsstring) ⊆ dom env).
  { intros x Hx. apply elem_of_list_to_set in Hx.
    apply list_elem_of_fmap in Hx as (k & -> & Hk).
    apply elem_of_seq in Hk.
    destruct (lookup_lt_is_Some_2 loaded k) as [a Ha]; [lia|].
    apply elem_of_dom. apply (accountAt_email _ a). apply Hall. exact Ha. }
  apply subseteq_size in Hsub.
  rewrite size_list_to_set in Hsub by exact Hnodup.
  rewrite (size_dom (M:=gmap jsstring) env) in Hsub.
  unfold keys in Hsub. rewrite length_fmap, length_seq in Hsub. exact Hsub.
Qed.

(** The complete accounts from index [i] on, as far as [fuel] reaches. *)
Lemma accountsFrom_prefix (fuel : nat) :
  forall i, exists loaded,
    accountsFrom env i loaded
    /\ (length loaded = fuel
        \/ accountAt env (i + Z.of_nat (length loaded)) = None).
Proof.
  induction fuel as [|fuel IH]; intros i.
  - exists []. split; [intros k a Hk; discriminate Hk|]. left. reflexivity.
  - destruct (accountAt env i) as [a|] eqn:Ha.
    + destruct (IH (i + 1)) as (loaded & Hall & Hend).
      exists (a :: loaded). split.
      * intros [|k] b Hk.
        -- injection Hk as <-. rewrite Z.add_0_r. exact Ha.
        -- rewrite Nat2Z.inj_succ.
           replace (i + Z.succ (Z.of_nat k)) with (i + 1 + Z.of_nat k) by lia.
           apply Hall. exact Hk.
      * cbn [length]. rewrite Nat2Z.inj_succ.
        replace (i + Z.succ (Z.of_nat (length loaded)))
          with (i + 1 + Z.of_nat (length loaded)) by lia.
        destruct Hend as [->|Hend]; [left; reflexivity|right; exact Hend].
    + exists []. split; [intros k a Hk; discriminate Hk|].
      right. cbn. rewrite Z.add_0_r. exact Ha.
Qed.
End LoadAccounts.

(** loadAccounts reads the accounts 1, 2, ... for as long as all three of
    their variables are set and not empty, and stops at the first index
    where they are not: when none of the three is set there, it returns
    the accounts before (variables of later accounts are not looked at);
    when only some are, it throws, naming the account and the variables
    that are missing. *)
Theorem loadAccounts_reads_up_to_the_first_gap (env : Config.Env)
    (loaded : list AlzaAccount) :
  accountsFrom env 1 loaded ->
  accountAt env (1 + Z.of_nat (length loaded)) = None ->
  Config.loadAccounts env
  = Some (loadOutcome env loaded (1 + Z.of_nat (length loaded))).
Proof.
  intros Hall Hnext. unfold Config.loadAccounts.
  pose proof (accountsFrom_bound env loaded Hall) as Hbound.
  rewrite (loadAccountsFrom_spec env loaded _ 1 [] Hall Hnext) by lia.
  destruct (loadOutcome env loaded _); reflexivity.
Qed.

Lemma loadAccounts_total (env : Config.Env) :
  exists loaded,
    accountsFrom env 1 loaded
    /\ accountAt env (1 + Z.of_nat (length loaded)) = None
    /\ Config.loadAccounts env
       = Some (loadOutcome env loaded (1 + Z.of_nat (length loaded))).
Proof.
  destruct (accountsFrom_prefix env (S (size env)) 1) as (loaded & Hall & Hend).
  pose proof (accountsFrom_bound env loaded Hall) as Hbound.
  destruct Hend as [Hlen|Hnext]; [lia|].
  exists loaded. refine (conj Hall (conj Hnext _)).
  unfold Config.loadAccounts.
  rewrite (loadAccountsFrom_spec env loaded _ 1 [] Hall Hnext) by lia.
  destruct (loadOutcome env loaded _); reflexivity.
Qed.

(** loadConfig always comes to an end.  The configuration it returns has
    the API key of the environment, which is not empty, and at least one
    account; its accounts are the accounts 1, 2, ... of the environment up
    to the first gap, each with a non-empty e-mail, password and label.
    It throws only when the key is missing, when no account is set, or
    when an account is incomplete.  Without PORT the port is 3000, and
    without CHROME_PATH the browser path is the first of the list, the
    one for macOS. *)
Theorem loadConfig_checks_the_environment (env : Config.Env) :
  exists r,
    Config.loadConfig env = Some r
    /\ match r with
       | Return c =>
           Config.nonEmpty (env !! js "API_KEY") = Some (Config.apiKey c)
           /\ Config.accounts c <> []
           /\ accountsFrom env 1 (Config.accounts c)
           /\ isGap env (1 + Z.of_nat (length (Config.accounts c))) = true
           /\ Forall (fun a => email a <> [] /\ password a <> [] /\ label a <> [])
                (Config.accounts c)
           /\ (Config.nonEmpty (env !! js "PORT") = None ->
               Config.port c = Finite (inject_Z 3000))
           /\ (Config.nonEmpty (env !! js "CHROME_PATH") = None ->
               Config.chromePath c
               = js "/Applications/Google Chrome.app/Contents/MacOS/Google Chrome")
       | Throw _ =>
           Config.nonEmpty (env !! js "API_KEY") = None
           \/ isGap env 1 = true
           \/ exists i, 1 <= i /\ accountAt env i = None /\ isGap env i = false
       end.
Proof.
  unfold Config.loadConfig.
  destruct (Config.nonEmpty (env !! js "API_KEY")) as [key|] eqn:Hkey.
  2:{ eexists. split; [reflexivity|]. left. reflexivity. }
  destruct (loadAccounts_total env) as (loaded & Hall & Hnext & ->).
  unfold loadOutcome.
  destruct (isGap env (1 + Z.of_nat (length loaded))) eqn:Hgap.
  - destruct loaded as [|a loaded]; cbn [length Nat.eqb].
    + eexists. split; [reflexivity|]. right. left. exact Hgap.
    + eexists. split; [reflexivity|].
      cbn [Config.apiKey Config.accounts Config.port Config.chromePath].
      refine (conj eq_refl (conj _ (conj Hall (conj Hgap (conj _ (conj _ _)))))).
      * discriminate.
      * apply Forall_lookup. intros k b Hk.
        apply (accountAt_email env (1 + Z.of_nat k) b). apply Hall. exact Hk.
      * intros Hport. unfold Config.orElse. rewrite Hport. vm_compute. reflexivity.
      * intros Hpath. unfold Config.orElse. rewrite Hpath. vm_compute. reflexivity.
  - eexists. split; [reflexivity|]. right. right.
    exists (1 + Z.of_nat (length loaded)). split; [lia|]. auto.
Qed.

(* ===================================================================== *)
(** * Properties: more of the text helpers *)
(* ===================================================================== *)

(** ** The pattern fall-back of parsePrice *)

Lemma includes_at (p pre t : jsstring) :
  startsWith p t = true -> includes p (pre ++ t) = true.
Proof.
  intros Ht. induction pre as [|c pre IH]; cbn [app].
  - destruct t; cbn [includes]; rewrite Ht; reflexivity.
  - cbn [includes]. rewrite IH. apply orb_true_r.
Qed.

Lemma firstMatch_Some (m : jsstring -> option jsstring) (s g : jsstring) :
  firstMatch m s = Some g -> exists pre t, s = pre ++ t /\ m t = Some g.
Proof.
  induction s as [|c s IH]; cbn [firstMatch].
  - destruct (m []) eqn:Hm; [|discriminate]. intros [= <-]. exists [], []. auto.
  - destruct (m (c :: s)) eqn:Hm.
    + intros [= <-]. exists [], (c :: s). auto.
    + intros Hg. destruct (IH Hg) as (pre & t & -> & Ht).
      exists (c :: pre), t. auto.
Qed.

Lemma spanClass_app (cls : Z -> bool) (s : jsstring) :
  s = fst (spanClass cls s) ++ snd (spanClass cls s).
Proof.
  induction s as [|c s IH]; [reflexivity|].
  cbn [spanClass]. destruct (cls c); [|reflexivity].
  destruct (spanClass cls s) as [run rest]. cbn [fst snd app] in *.
  f_equal. exact IH.
Qed.

Lemma dropSpaces_suffix (s : jsstring) : exists pre, s = pre ++ dropSpaces s.
Proof.
  induction s as [|c s IH]; [exists []; reflexivity|].
  cbn [dropSpaces]. destruct (isSpace c); [|exists []; reflexivity].
  destruct IH as [pre Hpre]. exists (c :: pre). cbn [app]. f_equal. exact Hpre.
Qed.

(** Each of the three patterns ends in a currency marker. *)
Lemma pattern_has_marker (pattern : jsstring -> option jsstring)
    (t g : jsstring) :
  In pattern pricePatterns -> pattern t = Some g ->
  exists marker pre rest,
    (marker = js "Kč" \/ marker = js "CZK")
    /\ t = pre ++ rest /\ startsWith marker rest = true.
Proof.
  intros Hin Hg. destruct t as [|d t].
  { destruct Hin as [<-|[<-|[<-|[]]]]; discriminate Hg. }
  destruct Hin as [<-|[<-|[<-|[]]]].
  - unfold matchDigitsKc in Hg. destruct (isDigit d); [|discriminate].
    pose proof (spanClass_app (fun c => isDigit c || isSpace c) t) as Hsplit.
    destruct (spanClass _ t) as [run rest]. cbn [fst snd] in Hsplit.
    destruct (lastIsDigit (trimEnd run)); [|discriminate].
    destruct (startsWith (js "Kč") rest) eqn:Hm; [|discriminate].
    exists (js "Kč"), (d :: run), rest. rewrite Hsplit. auto.
  - unfold matchDigitsCommaDash in Hg. destruct (isDigit d); [|discriminate].
    pose proof (spanClass_app (fun c => isDigit c || isSpace c) t) as Hsplit.
    destruct (spanClass _ t) as [run rest]. cbn [fst snd] in Hsplit.
    destruct rest as [|c1 [|c2 rest']]; try discriminate.
    destruct (startsWith (js "Kč") (dropSpaces rest')) eqn:Hm;
      [|rewrite andb_false_r in Hg; discriminate].
    destruct (dropSpaces_suffix rest') as [blanks Hblanks].
    exists (js "Kč"), (d :: run ++ c1 :: c2 :: blanks), (dropSpaces rest').
    split; [auto|]. split; [|exact Hm].
    rewrite Hsplit. cbn [app]. f_equal. rewrite <- app_assoc. cbn [app].
    rewrite <- Hblanks. reflexivity.
  - unfold matchDigitsCZK in Hg. destruct (isDigit d); [|discriminate].
    match type of Hg with
    | context [spanClass ?cls t] =>
        pose proof (spanClass_app cls t) as Hsplit;
        destruct (spanClass cls t) as [run rest]
    end.
    cbn [fst snd] in Hsplit.
    destruct (lastIsDigit (trimEnd run)); [|discriminate].
    destruct (startsWith (js "CZK") rest) eqn:Hm; [|discriminate].
    exists (js "CZK"), (d :: run), rest. rewrite Hsplit. auto.
Qed.

Section Fallback.
Context `{HtmlParser} `{JsonApi}.

(** When the markup has no linked-data script and no element for the
    price selectors, parsePrice finds a price only in a text that has a
    currency marker, Kč or CZK as written: a number alone is never taken
    for a price. *)
Theorem parsePrice_fallback_needs_a_currency_marker (html : jsstring) :
  querySelectorAll (parseHTML html) SEL_JSON_LD = [] ->
  (forall selector, In selector (metaSelectors ++ priceSelectors) ->
                    querySelector (parseHTML html) selector = None) ->
  includes (js "Kč") html = false ->
  includes (js "CZK") html = false ->
  parsePrice html = None.
Proof.
  intros Hscripts Hnone Hkc Hczk. unfold parsePrice. rewrite Hscripts.
  cbn [firstSome].
  assert (Hmeta : firstSome (metaPrice (parseHTML html)) metaSelectors = None).
  { destruct (firstSome _ metaSelectors) as [p|] eqn:Hp; [|reflexivity].
    apply firstSome_Some in Hp as (sel & Hin & Hsel).
    unfold metaPrice in Hsel. rewrite Hnone in Hsel; [discriminate|].
    apply in_or_app. left. exact Hin. }
  assert (Hsel : firstSome (selectorPrice (parseHTML html)) priceSelectors = None).
  { destruct (firstSome _ priceSelectors) as [p|] eqn:Hp; [|reflexivity].
    apply firstSome_Some in Hp as (sel & Hin & Hsel).
    unfold selectorPrice in Hsel. rewrite Hnone in Hsel; [discriminate|].
    apply in_or_app. right. exact Hin. }
  rewrite Hmeta, Hsel.
  destruct (firstSome (patternPrice html) pricePatterns) as [p|] eqn:Hp;
    [|reflexivity].
  exfalso. apply firstSome_Some in Hp as (pattern & Hin & Hpat).
  unfold patternPrice in Hpat.
  destruct (firstMatch pattern html) as [g|] eqn:Hg; [|discriminate].
  apply firstMatch_Some in Hg as (pre & t & -> & Ht).
  destruct (pattern_has_marker pattern t g Hin Ht)
    as (marker & pre' & rest & Hmarker & -> & Hstart).
  pose proof (includes_at marker (pre ++ pre') rest Hstart) as Hinc.
  rewrite <- app_assoc in Hinc.
  destruct Hmarker as [-> | ->]; congruence.
Qed.
End Fallback.

(** ** The currency suffix *)

Lemma startsWithI_app (p s t : jsstring) :
  startsWithI p s = true -> startsWithI p (s ++ t) = true.
Proof.
  revert s. induction p as [|a p IH]; intros s; [reflexivity|].
  destruct s as [|b s]; cbn [startsWithI app]; [discriminate|].
  rewrite !andb_true_iff. intros [Hab Hp]. auto.
Qed.

Lemma startsWithI_before_blank (p s t : jsstring) :
  forallb (fun x => negb (eqi x 32)) p = true ->
  startsWithI p (s ++ 32 :: t) = true ->
  startsWithI p s = true /\ (length p <= length s)%nat.
Proof.
  revert s. induction p as [|a p IH]; intros s Hp Hs.
  - split; [reflexivity|cbn; lia].
  - cbn [forallb] in Hp. apply andb_true_iff in Hp as [Ha Hp].
    destruct s as [|b s]; cbn [app startsWithI] in Hs.
    + apply andb_true_iff in Hs as [Hs _]. rewrite Hs in Ha. discriminate Ha.
    + apply andb_true_iff in Hs as [Hab Hs].
      destruct (IH s Hp Hs) as [Hstart Hlen].
      cbn [startsWithI length]. rewrite Hab, Hstart. split; [reflexivity|lia].
Qed.

Lemma startsWithI_blank_eq (p s t : jsstring) :
  forallb (fun x => negb (eqi x 32)) p = true ->
  startsWithI p (s ++ 32 :: t) = startsWithI p s.
Proof.
  intros Hp. destruct (startsWithI p s) eqn:Hs.
  - apply startsWithI_app. exact Hs.
  - destruct (startsWithI p (s ++ 32 :: t)) eqn:Hst; [|reflexivity].
    apply startsWithI_before_blank in Hst as [Hst _]; [|exact Hp]. congruence.
Qed.

(** A match of the currency pattern does not reach across a blank. *)
Lemma stripCurrency_before_blank (s t : jsstring) :
  forall skip : nat, (skip <= length s)%nat ->
  stripCurrency skip (s ++ 32 :: t)
  = stripCurrency skip s ++ stripCurrency 0 (32 :: t).
Proof.
  induction s as [|c s IH]; intros skip Hskip.
  - cbn [length] in Hskip. replace skip with 0%nat by lia. reflexivity.
  - cbn [app]. destruct skip as [|k].
    + change (stripCurrency 0 (c :: s ++ 32 :: t))
        with (if startsWithI (js "Kč") ((c :: s) ++ 32 :: t)
              then stripCurrency 1 (s ++ 32 :: t)
              else if startsWithI (js "CZK") ((c :: s) ++ 32 :: t)
              then stripCurrency 2 (s ++ 32 :: t)
              else if startsWithI (js "&nbsp;") ((c :: s) ++ 32 :: t)
              then stripCurrency 5 (s ++ 32 :: t)
              else c :: stripCurrency 0 (s ++ 32 :: t)).
      change (stripCurrency 0 (c :: s))
        with (if startsWithI (js "Kč") (c :: s) then stripCurrency 1 s
              else if startsWithI (js "CZK") (c :: s) then stripCurrency 2 s
              else if startsWithI (js "&nbsp;") (c :: s) then stripCurrency 5 s
              else c :: stripCurrency 0 s).
      rewrite !startsWithI_blank_eq by (vm_compute; reflexivity).
      destruct (startsWithI (js "Kč") (c :: s)) eqn:H1.
      { apply (startsWithI_app _ _ (32 :: t)) in H1.
        apply startsWithI_before_blank in H1 as [_ Hlen]; [|vm_compute; reflexivity].
        change (length (js "Kč")) with 2%nat in Hlen. cbn [length] in Hlen.
        apply IH. lia. }
      destruct (startsWithI (js "CZK") (c :: s)) eqn:H2.
      { apply (startsWithI_app _ _ (32 :: t)) in H2.
        apply startsWithI_before_blank in H2 as [_ Hlen]; [|vm_compute; reflexivity].
        change (length (js "CZK")) with 3%nat in Hlen. cbn [length] in Hlen.
        apply IH. lia. }
      destruct (startsWithI (js "&nbsp;") (c :: s)) eqn:H3.
      { apply (startsWithI_app _ _ (32 :: t)) in H3.
        apply startsWithI_before_blank in H3 as [_ Hlen]; [|vm_compute; reflexivity].
        change (length (js "&nbsp;")) with 6%nat in Hlen. cbn [length] in Hlen.
        apply IH. lia. }
      cbn [app]. f_equal. apply IH. lia.
    + cbn [stripCurrency length] in *. apply IH. lia.
Qed.

Lemma cleanNumberText_suffix (text : jsstring) :
  cleanNumberText (text ++ js " Kč") = cleanNumberText text.
Proof.
  unfold cleanNumberText.
  change (js " Kč") with (32 :: js "Kč").
  rewrite (stripCurrency_before_blank text (js "Kč") 0) by lia.
  change (stripCurrency 0 (32 :: js "Kč")) with [32].
  unfold stripSpaces at 1. rewrite filter_app.
  change (filter (fun c => isSpace c = false) [32]) with (@nil Z).
  rewrite app_nil_r. reflexivity.
Qed.

(** A trailing " Kč" makes no difference to parseCzechNumber: a text with
    the currency suffix and the text without it give the same number, or
    both give none. *)
Theorem parseCzechNumber_ignores_currency_suffix (text : jsstring) :
  parseCzechNumber (text ++ js " Kč") = parseCzechNumber text.
Proof.
  destruct text as [|c text].
  - vm_compute. reflexivity.
  - unfold parseCzechNumber.
    rewrite (cleanNumberText_suffix (c :: text)). reflexivity.
Qed.

(** ** The product name is trimmed *)

Lemma dropSpaces_idem (s : jsstring) : dropSpaces (dropSpaces s) = dropSpaces s.
Proof.
  induction s as [|c s IH]; [reflexivity|].
  cbn [dropSpaces]. destruct (isSpace c) eqn:Hc; [exact IH|].
  cbn [dropSpaces]. rewrite Hc. reflexivity.
Qed.

Lemma dropSpaces_snoc (l : jsstring) (c : Z) :
  isSpace c = false -> exists l', dropSpaces (l ++ [c]) = l' ++ [c].
Proof.
  intros Hc. induction l as [|x l IH]; cbn [app dropSpaces].
  - rewrite Hc. exists []. reflexivity.
  - destruct (isSpace x); [exact IH|]. exists (x :: l). reflexivity.
Qed.

Lemma trim_idem (s : jsstring) : trim (trim s) = trim s.
Proof.
  unfold trim, trimStart.
  assert (Hstart : forall t, dropSpaces t = t -> dropSpaces (trimEnd t) = trimEnd t).
  { intros [|c r] Ht; [reflexivity|].
    assert (Hc : isSpace c = false).
    { destruct (isSpace c) eqn:Hc; [|reflexivity]. exfalso.
      cbn [dropSpaces] in Ht. rewrite Hc in Ht.
      destruct (dropSpaces_suffix r) as [pre Hpre].
      apply (f_equal length) in Ht, Hpre. rewrite length_app in Hpre.
      cbn [length] in Ht. lia. }
    unfold trimEnd. cbn [rev].
    destruct (dropSpaces_snoc (rev r) c Hc) as [l' ->].
    rewrite rev_app_distr. cbn [rev app dropSpaces]. rewrite Hc. reflexivity. }
  rewrite (Hstart (dropSpaces s) (dropSpaces_idem s)).
  unfold trimEnd. rewrite rev_involutive, dropSpaces_idem. reflexivity.
Qed.

Section TrimmedName.
Context `{HtmlParser}.

(** Whatever the markup, the name parseProductName returns has no white
    space at its start or end: trimming it again changes nothing. *)
Theorem parseProductName_is_trimmed (html : jsstring) :
  trim (parseProductName html) = parseProductName html.
Proof.
  unfold parseProductName, clean.
  repeat match goal with
         | |- context [match ?x with _ => _ end] =>
             lazymatch x with
             | querySelector _ _ => destruct x
             | getAttribute _ _ => destruct x
             | truthy _ => destruct x
             end
         end;
    first [apply trim_idem | vm_compute; reflexivity].
Qed.
End TrimmedName.

(* ===================================================================== *)
(** * Properties: a new login releases the old session *)
(* ===================================================================== *)

Section StaleSession.
Context {W : Type} `{World W} `{HtmlParser} `{JsonApi}.

Lemma logs_findLoginPage (pages : list Page) : logs (W:=W) (findLoginPage pages).
Proof. induction pages as [|p rest IH]; cbn [findLoginPage]; logs. Qed.

Lemma logs_ensureBrowser (config : AppConfig) : logs (W:=W) (ensureBrowser config).
Proof.
  unfold ensureBrowser, initBrowser, initBrowser_prelude, initBrowser_launch,
    initBrowser_challenge, initBrowser_connect, connectedBrowser, sleep.
  logs.
Qed.

Lemma logs_initLogin_body (account : AlzaAccount) (config : AppConfig) :
  logs (W:=W) (initLogin_body account config).
Proof.
  unfold initLogin_body, recordVerification, recordLoggedIn, setSession,
    waitForCloudflare, humanDelay.
  repeat first
    [ apply logs_ensureBrowser | apply logs_findLoginPage | progress logs ].
Qed.

Lemma initLogin_fresh (account : AlzaAccount) (config : AppConfig)
    (g : Globals W) :
  stillValid (sessions g !! email account) (observe DateNow (world g)) = false ->
  initLogin account config g
  = (initLogin_cleanup account (sessions g !! email account) ;;;
     tryCatch (initLogin_body account config)
       (fun e => ret (failedWith account (errorMessage e (js "Unknown error"))))) g.
Proof.
  intros Hstale. unfold initLogin, getSession, bind at 1, gets. cbn beta iota.
  unfold bind at 1, query. cbn beta iota. rewrite Hstale. reflexivity.
Qed.

(** initLogin for an account whose stored session is not live any more
    (expired, waiting for a code, or failed) first asks the verification
    page of that session, if it holds one, and then its browsing context
    to close, whatever these calls answer, before it does anything
    else. *)
Theorem initLogin_closes_the_stale_session (account : AlzaAccount)
    (config : AppConfig) (g : Globals W) (c : AccountSession) :
  sessions g !! email account = Some c ->
  ~ live c (observe DateNow (world g)) ->
  exists contextClosed pageClosed later,
    calls (snd (initLogin account config g))
    = later
        ++ Performed (ContextClose (context c)) contextClosed
        :: match verifyPage c with
           | Some p => [Performed (PageClose p) pageClosed]
           | None => []
           end
        ++ calls g.
Proof.
  intros Hc Hstale.
  assert (Hv : stillValid (sessions g !! email account) (observe DateNow (world g))
               = false).
  { apply not_true_iff_false. intros Hv. apply stillValid_live in Hv.
    destruct Hv as (s & Hs & Hlive). rewrite Hc in Hs. injection Hs as <-.
    exact (Hstale Hlive). }
  rewrite (initLogin_fresh account config g Hv), Hc.
  unfold initLogin_cleanup.
  assert (Hpage : exists g1 pageClosed,
             (match verifyPage c with
              | Some p => ignoreErrors (act (PageClose p))
              | None => ret tt
              end) g = (Return tt, g1)
             /\ calls g1 = match verifyPage c with
                           | Some p => [Performed (PageClose p) pageClosed]
                           | None => []
                           end ++ calls g).
  { destruct (verifyPage c) as [p|].
    - destruct (ignoreErrors_act_run (PageClose p) g) as (ok & w & ->).
      do 2 eexists. split; reflexivity.
    - exists g, true. split; reflexivity. }
  destruct Hpage as (g1 & pageClosed & Hrun1 & Hcalls1).
  destruct (ignoreErrors_act_run (ContextClose (context c)) g1)
    as (contextClosed & w & Hrun2).
  unfold bind at 1. unfold bind at 1. rewrite Hrun1.
  unfold bind at 1. rewrite Hrun2.
  unfold deleteSession, modify.
  match goal with
  | |- context [tryCatch ?m ?h ?g2] =>
      assert (Hlogs : logs (tryCatch m h));
      [ apply logs_tryCatch; [apply logs_initLogin_body|intros; apply logs_ret]
      | destruct (Hlogs g2) as [later Hlater] ]
  end.
  exists contextClosed, pageClosed, later.
  rewrite Hlater. cbn [calls set_sessions log_call set_world].
  rewrite Hcalls1. reflexivity.
Qed.
End StaleSession.

(* ===================================================================== *)
(** * Properties: numbers in the configuration *)
(* ===================================================================== *)



(* ===================================================================== *)
(** * The further properties at concrete inputs *)
(* ===================================================================== *)

Lemma initLogin_reuses_live_session_witness :
  let g := Sim.holding (email Sim.personal) (Sim.session logged_in None 2000)
             (Sim.site true true false) in
  live (Sim.session logged_in None 2000) (observe DateNow (world g))
  /\ initLogin Sim.personal Sim.config g
     = (Return (statusOnly Sim.personal logged_in), g).
Proof.
  cbv zeta.
  assert (Hlive : live (Sim.session logged_in None 2000)
                    (observe DateNow
                       (world (Sim.holding (email Sim.personal)
                                 (Sim.session logged_in None 2000)
                                 (Sim.site true true false))))).
  { split; [reflexivity|]. vm_compute. reflexivity. }
  split; [exact Hlive|].
  apply (initLogin_reuses_live_session Sim.personal Sim.config _
           (Sim.session logged_in None 2000)); [|exact Hlive].
  vm_compute. reflexivity.
Defined.

Lemma operations_keep_other_sessions_witness :
  let g := Sim.holding (email Sim.business) (Sim.session logged_in None 2000)
             (Sim.site true true false) in
  sessions (snd (initLogin Sim.personal Sim.config g)) !! email Sim.business
  = sessions g !! email Sim.business
  /\ sessions (snd (submitVerificationCode Sim.personal (js "123456") g))
       !! email Sim.business
     = sessions g !! email Sim.business
  /\ sessions (snd (scrapePrice Sim.personal (js "https://www.alza.cz/iphone") g))
       !! email Sim.business
     = sessions g !! email Sim.business.
Proof.
  cbv zeta. apply operations_keep_other_sessions.
  intros Hsame. vm_compute in Hsame. discriminate Hsame.
Defined.

Lemma initLogin_answer_is_the_stored_state_witness :
  let g := Sim.start (Sim.site true true false) in
  fst (initLogin Sim.personal Sim.config g)
  = Return (statusOnly Sim.personal logged_in)
  /\ exists st',
       fst (getSessionStatus Sim.personal (snd (initLogin Sim.personal Sim.config g)))
       = Return st'
       /\ st_status st' = logged_in.
Proof.
  cbv zeta.
  assert (Hret : fst (initLogin Sim.personal Sim.config
                        (Sim.start (Sim.site true true false)))
                 = Return (statusOnly Sim.personal logged_in)).
  { vm_compute. reflexivity. }
  split; [exact Hret|].
  destruct (initLogin_answer_is_the_stored_state Sim.personal Sim.config _ _ Hret)
    as (st' & Hread & _ & Hst & _).
  - discriminate.
  - exists st'. split; [exact Hread|exact Hst].
Defined.

Lemma submitVerificationCode_success_keeps_context_witness :
  let s := Sim.session verification_required (Some (PageHandle 0)) 500000 in
  let g := Sim.holding (email Sim.personal) s
             (Sim.with_urls [VERIFY_URL] (Sim.site true true true)) in
  fst (getSessionStatus Sim.personal
         (snd (submitVerificationCode Sim.personal (js "123456") g)))
  = Return {| st_label := label Sim.personal; st_status := logged_in;
              st_phone := None; st_error := None |}.
Proof.
  cbv zeta.
  destruct (submitVerificationCode_success_keeps_context Sim.personal (js "123456")
              (Sim.holding (email Sim.personal)
                 (Sim.session verification_required (Some (PageHandle 0)) 500000)
                 (Sim.with_urls [VERIFY_URL] (Sim.site true true true)))
              (Sim.session verification_required (Some (PageHandle 0)) 500000)
              (PageHandle 0) (statusOnly Sim.personal logged_in))
    as [_ Hread].
  - vm_compute. reflexivity.
  - vm_compute. reflexivity.
  - reflexivity.
  - exact Hread.
Defined.

Lemma submitVerificationCode_failure_is_final_witness :
  let s := Sim.session verification_required (Some (PageHandle 0)) 500000 in
  let g := Sim.holding (email Sim.personal) s
             (Sim.with_urls [js "https://identity.alza.cz/account/verify"]
                (Sim.site true false true)) in
  let g' := snd (submitVerificationCode Sim.personal (js "000000") g) in
  fst (submitVerificationCode Sim.personal (js "000000") g)
  = Return (failedWith Sim.personal (js "page.waitForURL: Timeout exceeded."))
  /\ submitVerificationCode Sim.personal (js "123456") g'
     = (Return (failedWith Sim.personal
                  (js "No pending verification for this account")), g').
Proof.
  cbv zeta.
  assert (Hret : fst (submitVerificationCode Sim.personal (js "000000")
                        (Sim.holding (email Sim.personal)
                           (Sim.session verification_required (Some (PageHandle 0)) 500000)
                           (Sim.with_urls [js "https://identity.alza.cz/account/verify"]
                              (Sim.site true false true))))
                 = Return (failedWith Sim.personal
                             (js "page.waitForURL: Timeout exceeded."))).
  { vm_compute. reflexivity. }
  split; [exact Hret|].
  destruct (submitVerificationCode_failure_is_final Sim.personal (js "000000")
              (js "123456")
              (Sim.holding (email Sim.personal)
                 (Sim.session verification_required (Some (PageHandle 0)) 500000)
                 (Sim.with_urls [js "https://identity.alza.cz/account/verify"]
                    (Sim.site true false true)))
              (Sim.session verification_required (Some (PageHandle 0)) 500000)
              (PageHandle 0)
              (failedWith Sim.personal (js "page.waitForURL: Timeout exceeded.")))
    as [_ Hagain].
  - vm_compute. reflexivity.
  - exact Hret.
  - reflexivity.
  - exact Hagain.
Defined.

Lemma scrapePrice_closes_its_page_witness :
  let s := Sim.session logged_in None 2000 in
  let g := Sim.holding (email Sim.personal) s (Sim.site true true false) in
  live s (observe DateNow (world g))
  /\ sessions (snd (scrapePrice Sim.personal (js "https://www.alza.cz/iphone") g))
     = sessions g.
Proof.
  cbv zeta.
  assert (Hlive : live (Sim.session logged_in None 2000)
                    (observe DateNow
                       (world (Sim.holding (email Sim.personal)
                                 (Sim.session logged_in None 2000)
                                 (Sim.site true true false))))).
  { split; [reflexivity|]. vm_compute. reflexivity. }
  split; [exact Hlive|].
  refine (proj1 (scrapePrice_closes_its_page Sim.personal _ _
                   (Sim.session logged_in None 2000) _ Hlive)).
  vm_compute. reflexivity.
Defined.


Lemma ensureBrowser_creates_in_order_witness :
  let g := Sim.start (Sim.site true true false) in
  fst (ensureBrowser Sim.config g) = Return (BrowserHandle 0)
  /\ browserInitPromise (snd (ensureBrowser Sim.config g)) = None
  /\ browser (snd (ensureBrowser Sim.config g)) = Some (BrowserHandle 0).
Proof.
  cbv zeta.
  assert (Hret : fst (ensureBrowser Sim.config (Sim.start (Sim.site true true false)))
                 = Return (BrowserHandle 0)).
  { vm_compute. reflexivity. }
  split; [exact Hret|].
  destruct (ensureBrowser_creates_in_order Sim.config
              (Sim.start (Sim.site true true false)))
    as (killed & cmd & args & url & _ & Hpending & Houtcome).
  - intros b Hb. discriminate Hb.
  - reflexivity.
  - rewrite Hret in Houtcome. destruct Houtcome as [_ Hbrowser].
    split; [exact Hpending|exact Hbrowser].
Defined.



Lemma compare_response_cheapest_witness :
  let scraped := fun q : Q => Return {| product := js "iPhone 16 Pro 256GB";
                                    price := num q;
                                    priceFormatted := formatCzechPrice (num q) |} in
  let settled := [(Sim.personal, scraped 29990%Q);
                  (Sim.business, scraped 28990.5%Q)] in
  Index.cmp_cheapest (Index.compare_response (js "https://www.alza.cz/iphone") settled)
  = Some (js "Business")
  /\ exists p before after,
       fulfilledPrices settled = before ++ (js "Business", p) :: after
       /\ Forall (fun x => dearer (snd x) p = true) before
       /\ Forall (fun x => dearer p (snd x) = false) after.
Proof.
  cbv zeta.
  pose proof (compare_response_cheapest (js "https://www.alza.cz/iphone")
                [(Sim.personal,
                  Return {| product := js "iPhone 16 Pro 256GB"; price := num 29990;
                            priceFormatted := formatCzechPrice (num 29990) |});
                 (Sim.business,
                  Return {| product := js "iPhone 16 Pro 256GB"; price := num 28990.5;
                            priceFormatted := formatCzechPrice (num 28990.5) |})])
    as Hcheapest.
  assert (Hrun : Index.cmp_cheapest
                   (Index.compare_response (js "https://www.alza.cz/iphone")
                      [(Sim.personal,
                        Return {| product := js "iPhone 16 Pro 256GB";
                                  price := num 29990;
                                  priceFormatted := formatCzechPrice (num 29990) |});
                       (Sim.business,
                        Return {| product := js "iPhone 16 Pro 256GB";
                                  price := num 28990.5;
                                  priceFormatted := formatCzechPrice (num 28990.5) |})])
                 = Some (js "Business")).
  { vm_compute. reflexivity. }
  rewrite Hrun in Hcheapest. split; [exact Hrun|].
  apply Hcheapest. repeat constructor.
Defined.


Lemma loadAccounts_reads_up_to_the_first_gap_witness :
  let env : Config.Env :=
    list_to_map [(js "API_KEY", js "secret");
                 (js "ALZA_ACC1_EMAIL", js "a@example.com");
                 (js "ALZA_ACC1_PASSWORD", js "pw1");
                 (js "ALZA_ACC1_LABEL", js "Personal");
                 (js "ALZA_ACC3_EMAIL", js "c@example.com")] in
  Config.loadAccounts env = Some (Return [Sim.personal]).
Proof.
  cbv zeta.
  rewrite (loadAccounts_reads_up_to_the_first_gap _ [Sim.personal]).
  - vm_compute. reflexivity.
  - intros [|k] a Hk; [|discriminate Hk].
    injection Hk as <-. vm_compute. reflexivity.
  - vm_compute. reflexivity.
Defined.

Lemma parsePrice_fallback_needs_a_currency_marker_witness :
  parsePrice (js "<p>Cena: 100 EUR</p>") = None.
Proof.
  apply parsePrice_fallback_needs_a_currency_marker.
  - reflexivity.
  - intros selector Hin.
    repeat (destruct Hin as [<-|Hin]; [vm_compute; reflexivity|]).
    destruct Hin.
  - vm_compute. reflexivity.
  - vm_compute. reflexivity.
Defined.

Lemma initLogin_closes_the_stale_session_witness :
  let c := Sim.session verification_required (Some (PageHandle 0)) 500000 in
  let g := Sim.holding (email Sim.personal) c
             (Sim.with_urls [VERIFY_URL] (Sim.site true true true)) in
  exists contextClosed pageClosed later,
    calls (snd (initLogin Sim.personal Sim.config g))
    = later
        ++ Performed (ContextClose (ContextHandle 0)) contextClosed
        :: [Performed (PageClose (PageHandle 0)) pageClosed]
        ++ calls g.
Proof.
  cbv zeta.
  apply (initLogin_closes_the_stale_session Sim.personal Sim.config
           (Sim.holding (email Sim.personal)
              (Sim.session verification_required (Some (PageHandle 0)) 500000)
              (Sim.with_urls [VERIFY_URL] (Sim.site true true true)))
           (Sim.session verification_required (Some (PageHandle 0)) 500000)).
  - vm_compute. reflexivity.
  - intros [Hst _]. discriminate Hst.
Defined.

(* ===================================================================== *)
(** * Properties: the query string of the authorisation URL *)
(* ===================================================================== *)






